(** * Web-Calculator: the expression evaluator and the calculator state

    A shallow embedding of [js/modules/Calculator.js]: the [Calculator] class
    with its rewrite / validate / evaluate pipeline ([evaluate],
    [processFunctionCalls], [isValidExpression], [factorial]) and its
    keystroke state machine ([handleAction], [appendNumber], [calculate],
    [backspace], [negate], ...).

    The host language is modelled as far as the class uses it:
    - a JavaScript string is the list of its UTF-16 code units;
    - a JavaScript Number is a binary64 float (Rocq's primitive floats);
    - the regular expressions of the source are written in a small regex
      syntax and run by a backtracking matcher ([Regex]);
    - [Number::toString] and [parseFloat] are implemented on exact integer
      arithmetic;
    - the code-evaluation sink [new Function(...)] is a parameter of the
      model, with an arithmetic interpreter given as one instance. *)

From Stdlib Require Import List Bool Arith NArith ZArith Lia.
From Stdlib Require Import String Ascii Floats.
Import ListNotations.

(* ================================================================== *)
(** * Strings *)

Module JsString.

(** A UTF-16 code unit. *)
Definition char := N.

Definition jsstring := list char.

(** A string literal of the source (ASCII only). *)
Definition str (s : string) : jsstring :=
  map N_of_ascii (list_ascii_of_string s).

(** The three operator glyphs the display uses. *)
Definition MULTIPLICATION_SIGN : char := 215%N.   (* U+00D7 *)
Definition DIVISION_SIGN : char := 247%N.         (* U+00F7 *)
Definition MINUS_SIGN : char := 8722%N.           (* U+2212 *)

Fixpoint eqs (a b : jsstring) : bool :=
  match a, b with
  | [], [] => true
  | x :: a', y :: b' => N.eqb x y && eqs a' b'
  | _, _ => false
  end.

(** [c] lies in the inclusive range of code units [lo-hi]. *)
Definition between (lo hi : N) (c : char) : bool :=
  (N.leb lo c && N.leb c hi)%bool.

(** [c] is one of the characters of [s]. *)
Definition oneOf (s : jsstring) (c : char) : bool :=
  existsb (N.eqb c) s.

Definition isDigit (c : char) : bool := between 48 57 c.

(** The regex class [\w]: [A-Za-z0-9_]. *)
Definition isWordChar (c : char) : bool :=
  between 97 122 c || between 65 90 c || isDigit c || N.eqb c 95.

(** The regex class [\s]: WhiteSpace and LineTerminator code units. *)
Definition isSpace (c : char) : bool :=
  between 9 13 c || N.eqb c 32 || N.eqb c 160 || N.eqb c 5760
  || between 8192 8202 c || N.eqb c 8232 || N.eqb c 8233 || N.eqb c 8239
  || N.eqb c 8287 || N.eqb c 12288 || N.eqb c 65279.

(** [s.startsWith(p)] and [s.endsWith(p)]. *)
Fixpoint startsWith (s p : jsstring) {struct p} : bool :=
  match p, s with
  | [], _ => true
  | y :: p', x :: s' => N.eqb x y && startsWith s' p'
  | _ :: _, [] => false
  end.

Definition endsWith (s p : jsstring) : bool :=
  startsWith (rev s) (rev p).

(** [s.includes(c)] for a one-character string. *)
Definition includes (s : jsstring) (c : char) : bool := oneOf s c.

(** [s.slice(0, -1)]. *)
Definition slice_0_m1 (s : jsstring) : jsstring := removelast s.

(** [s.substring(1)]. *)
Definition substring_1 (s : jsstring) : jsstring := tl s.

(** A string is truthy when it is not empty. *)
Definition truthy (s : jsstring) : bool :=
  match s with [] => false | _ :: _ => true end.

End JsString.
Import JsString.

(* ================================================================== *)
(** * Completions: a value, or a thrown [Error] with its message *)

Inductive outcome (A : Type) : Type :=
| Return (a : A)
| Throw (message : jsstring).

Arguments Return {A} a.
Arguments Throw {A} message.

Definition bind {A B : Type} (m : outcome A) (k : A -> outcome B) : outcome B :=
  match m with
  | Return a => k a
  | Throw e => Throw e
  end.

Notation "x <- m ;; k" := (bind m (fun x => k))
  (at level 61, m at next level, right associativity).

(* ================================================================== *)
(** * Numbers *)

Module JsNumber.

Open Scope float_scope.

(** The Number nearest to an integer. *)
Definition ofZ (z : Z) : float :=
  SF2Prim (binary_normalize prec emax z 0 false).

Definition ofNat (n : nat) : float := ofZ (Z.of_nat n).

(** [Number.isFinite], [Number.isNaN] on a Number. *)
Definition isFinite (x : float) : bool := is_finite x.
Definition isNaN (x : float) : bool := is_nan x.

(** [Number.isInteger]: finite, with no fractional part.  A finite nonzero
    binary64 value is [m * 2^e]; it is integral when [e >= 0] or when [2^-e]
    divides [m]. *)
Definition isInteger (x : float) : bool :=
  match Prim2SF x with
  | S754_zero _ => true
  | S754_finite _ m e =>
      (0 <=? e)%Z || (Z.pos m mod 2 ^ (- e) =? 0)%Z
  | S754_infinity _ | S754_nan => false
  end.

(** A Number is falsy when it is [0], [-0] or [NaN]. *)
Definition truthy (x : float) : bool :=
  negb (is_zero x || is_nan x).

Definition Math_PI : float := 0x1.921fb54442d18p+1.
Definition Math_E : float := 0x1.5bf0a8b145769p+1.

End JsNumber.

(* ================================================================== *)
(** * [Calculator.factorial] *)

Module Factorial.
Import JsNumber.
Open Scope float_scope.

Definition not_a_natural : jsstring :=
  str "Factorial is only defined for non-negative integers".
Definition too_large : jsstring :=
  str "Factorial too large (max 170)".

(** The two messages [factorial] throws: the FactorialDomainError kind. *)
Definition FactorialDomainError (message : jsstring) : bool :=
  eqs message not_a_natural || eqs message too_large.

(** [for (let i = 2; i <= num; i++) result *= i], run for at most [steps]
    tests of the loop condition.  [loop_exits] says the loop left through
    its condition within that many tests. *)
Fixpoint loop (steps : nat) (num i result : float) : float :=
  match steps with
  | O => result
  | S k => if i <=? num then loop k num (i + 1) (result * i) else result
  end.

Fixpoint loop_exits (steps : nat) (num i : float) : bool :=
  match steps with
  | O => false
  | S k => if i <=? num then loop_exits k num (i + 1) else true
  end.

(** [factorial(n)] for a Number [n] ([Number(n)] is then [n] itself).  The
    guard [num > 170] bounds the loop: [loop_bound] tests of its condition
    are enough, see [loop_exits_in_bound] and [loop_more_steps]. *)
Definition loop_bound : nat := 170.

Definition factorial (n : float) : outcome float :=
  let num := n in
  if negb (isFinite num) || negb (isInteger num) || (num <? 0) then
    Throw not_a_natural
  else if 170 <? num then
    Throw too_large
  else if num <=? 1 then Return 1
  else Return (loop loop_bound num 2 1).

(** The specification's words: the product [2 * 3 * ... * n], multiplied up from
    [1] in that order, in binary64 arithmetic. *)
Definition iterative_product (n : nat) : float :=
  fold_left (fun acc i => acc * ofNat i) (seq 2 (n - 1)) 1.

(** The specification's domain: finite, a mathematical integer, and in [0, 170]. *)
Definition in_domain (n : float) : bool :=
  isFinite n && isInteger n && (0 <=? n) && (n <=? 170).

End Factorial.


(* ================================================================== *)
(** * Regular expressions

    The regular expressions of the source use literal characters, character
    classes, [\b], [^], [$], greedy repetition of a class and one capture
    group around such a repetition.  [exec] is the backtracking matcher at
    one position; [prev] is the character before that position ([None] at
    the start of the input). *)

Module Regex.

Inductive atom : Type :=
| Chr (c : char)                        (* a literal character *)
| Cls (p : char -> bool)                (* one character of a class *)
| WordB                                 (* \b *)
| Bol                                   (* ^ *)
| Eol                                   (* $ *)
| Many (p : char -> bool) (min : nat)   (* p* , p+ , p{min,} : greedy *)
| Group (p : char -> bool) (min : nat). (* the same inside ( ) : captured *)

Definition regex := list atom.

(** A literal word. *)
Definition lit (s : jsstring) : regex := map Chr s.

Definition isWordAt (o : option char) : bool :=
  match o with Some c => isWordChar c | None => false end.

Section Greedy.
Variable X : Type.
Variable p : char -> bool.
(** What follows the repetition: it is given the run consumed. *)
Variable k : jsstring -> option char -> jsstring -> option X.

(** Take as many characters of [p] as possible, then give back one at a
    time until the rest of the pattern matches; at least [min]. *)
Fixpoint greedy (min : nat) (run : jsstring) (prev : option char)
         (s : jsstring) : option X :=
  let stop := match min with O => k (rev run) prev s | S _ => None end in
  match s with
  | c :: t =>
      if p c then
        match greedy (pred min) (c :: run) (Some c) t with
        | Some r => Some r
        | None => stop
        end
      else stop
  | [] => stop
  end.
End Greedy.

Arguments greedy {X} p k min run prev s.

(** [exec r cap prev s]: match [r] at the head of [s]; on success the
    capture and what is left of [s] after the match. *)
Fixpoint exec (r : regex) (cap : jsstring) (prev : option char)
         (s : jsstring) : option (jsstring * jsstring) :=
  match r with
  | [] => Some (cap, s)
  | a :: r' =>
      match a with
      | Chr c =>
          match s with
          | x :: t => if N.eqb x c then exec r' cap (Some x) t else None
          | [] => None
          end
      | Cls p =>
          match s with
          | x :: t => if p x then exec r' cap (Some x) t else None
          | [] => None
          end
      | WordB =>
          if xorb (isWordAt prev) (isWordAt (hd_error s))
          then exec r' cap prev s else None
      | Bol => match prev with None => exec r' cap prev s | Some _ => None end
      | Eol => match s with [] => exec r' cap prev s | _ :: _ => None end
      | Many p min =>
          greedy p (fun _ prev' s' => exec r' cap prev' s') min [] prev s
      | Group p min =>
          greedy p (fun run prev' s' => exec r' run prev' s') min [] prev s
      end
  end.

(** [r.test(s)] (no [g] flag): is there a match at some position. *)
Fixpoint search (r : regex) (prev : option char) (s : jsstring) : bool :=
  match exec r [] prev s with
  | Some _ => true
  | None =>
      match s with
      | [] => false
      | c :: t => search r (Some c) t
      end
  end.

Definition test (r : regex) (s : jsstring) : bool := search r None s.

(** [s.match(r)] (no [g] flag): the text of the leftmost match. *)
Fixpoint findFrom (r : regex) (prev : option char) (s : jsstring)
  : option jsstring :=
  match exec r [] prev s with
  | Some (_, rest) => Some (firstn (List.length s - List.length rest) s)
  | None =>
      match s with
      | [] => None
      | c :: t => findFrom r (Some c) t
      end
  end.

Definition matchFirst (r : regex) (s : jsstring) : option jsstring :=
  findFrom r None s.

(** A global replace walks the input once: a character outside every match
    is kept, a match is handed to the replacement.  [skip] counts the
    characters still inside the last match; after an empty match one
    character is kept before the next attempt. *)
Inductive piece : Type :=
| Keep (c : char)
| Hit (matched capture : jsstring).

Fixpoint scan (r : regex) (skip : nat) (prev : option char) (s : jsstring)
  : list piece :=
  match s with
  | [] =>
      match skip with
      | O =>
          match exec r [] prev [] with
          | Some (cap, _) => [Hit [] cap]
          | None => []
          end
      | S _ => []
      end
  | c :: t =>
      match skip with
      | S k => scan r k (Some c) t
      | O =>
          match exec r [] prev s with
          | Some (cap, rest) =>
              match List.length s - List.length rest with
              | O => Hit [] cap :: Keep c :: scan r O (Some c) t
              | S k => Hit (firstn (S k) s) cap :: scan r k (Some c) t
              end
          | None => Keep c :: scan r O (Some c) t
          end
      end
  end.

(** [s.replace(r, text)] with the [g] flag, for a replacement text without
    [$] (every replacement text of the source is a number or an operator). *)
Definition replaceWith (r : regex) (text : jsstring) (s : jsstring) : jsstring :=
  flat_map (fun p => match p with Keep c => [c] | Hit _ _ => text end)
           (scan r 0 None s).

(** [s.replace(r, (_, args) => ...)] with the [g] flag: the callback runs on
    the matches from left to right, and the first one that throws ends the
    call. *)
Fixpoint splice (f : jsstring -> jsstring -> outcome jsstring)
         (ps : list piece) : outcome jsstring :=
  match ps with
  | [] => Return []
  | Keep c :: ps' => tl <- splice f ps' ;; Return (c :: tl)
  | Hit m cap :: ps' =>
      out <- f m cap ;; tl <- splice f ps' ;; Return (out ++ tl)
  end.

Definition replace (r : regex) (f : jsstring -> jsstring -> outcome jsstring)
           (s : jsstring) : outcome jsstring :=
  splice f (scan r 0 None s).

(** The character before the position reached after reading [pre]. *)
Definition lastChar (prev : option char) (pre : jsstring) : option char :=
  fold_left (fun _ c => Some c) pre prev.

End Regex.
Import Regex.

(* ================================================================== *)
(** * Numbers and text: [Number::toString] and [parseFloat] *)

Module NumberText.
Import JsNumber.

Definition digitChar (d : Z) : char := (48 + Z.to_N d)%N.

(** The decimal digits of a non-negative integer, most significant first. *)
Fixpoint digitsFrom (fuel : nat) (z : Z) (acc : jsstring) : jsstring :=
  match fuel with
  | O => acc
  | S f =>
      let acc' := digitChar (z mod 10) :: acc in
      if (z <? 10)%Z then acc' else digitsFrom f (z / 10) acc'
  end.

Definition digits (z : Z) : jsstring :=
  digitsFrom (S (Z.to_nat (Z.log2 z))) z [].

(** The value of a run of decimal digits. *)
Definition digitsValue (ds : jsstring) : Z :=
  fold_left (fun acc c => (10 * acc + (Z.of_N c - 48))%Z) ds 0%Z.

(** ** Number::toString

    A positive finite Number is [m * 2^e].  In units of [2^(e-2)] it is
    [4m], and the reals that round to it lie between [4m - below] and
    [4m + 2] (bounds included when [m] is even), where [below] is [1] at the
    bottom of a binade and [2] elsewhere.  [cmp10 a s q] compares
    [a * 2^(e-2)] with the decimal [s * 10^q]. *)
Section Shortest.
Variable m : Z.
Variable e : Z.

Definition below : Z :=
  if ((m =? 2 ^ 52) && (-1074 <? e))%Z%bool then 1%Z else 2%Z.

Definition cmp10 (a s q : Z) : comparison :=
  let u := (e - 2)%Z in
  let lhs :=
    (a * (if 0 <=? u then 2 ^ u else 1) * (if q <? 0 then 10 ^ (- q) else 1))%Z in
  let rhs :=
    (s * (if 0 <=? q then 10 ^ q else 1) * (if u <? 0 then 2 ^ (- u) else 1))%Z in
  (lhs ?= rhs)%Z.

(** Does the decimal [s * 10^q] round to the Number. *)
Definition roundsHere (s q : Z) : bool :=
  let lo := cmp10 (4 * m - below) s q in
  let hi := cmp10 (4 * m + 2) s q in
  let closed := Z.even m in
  match lo, hi with
  | Lt, Gt => true
  | Eq, _ => closed
  | _, Eq => closed
  | _, _ => false
  end.

(** The least [n] from [n0] on with [value < 10^n]. *)
Fixpoint magnitude (fuel : nat) (n : Z) : Z :=
  match fuel with
  | O => n
  | S f =>
      match cmp10 (4 * m) 1 n with
      | Lt => n
      | _ => magnitude f (n + 1)%Z
      end
  end.

(** [floor (value / 10^q)]. *)
Definition floor10 (q : Z) : Z :=
  let num := (m * (if 0 <=? e then 2 ^ e else 1) * (if q <? 0 then 10 ^ (- q) else 1))%Z in
  let den := ((if e <? 0 then 2 ^ (- e) else 1) * (if 0 <=? q then 10 ^ q else 1))%Z in
  (num / den)%Z.

(** With [k] digits: the two [k]-digit decimals around the value, the
    nearer first (the even one on a tie). *)
Definition candidates (n k : Z) : list Z :=
  let q := (n - k)%Z in
  let s := floor10 q in
  match cmp10 (8 * m) (2 * s + 1) q with
  | Lt => [s; s + 1]
  | Gt => [s + 1; s]
  | Eq => if Z.even s then [s; s + 1] else [s + 1; s]
  end%Z.

(** The shortest decimal [s * 10^(n-k)] that rounds to the Number:
    [(s, k, n)] with [10^(k-1) <= s < 10^k]. *)
Fixpoint shortest (fuel : nat) (n k : Z) : Z * Z * Z :=
  let q := (n - k)%Z in
  let norm s := if (s =? 10 ^ k)%Z then (10 ^ (k - 1), k, n + 1)%Z else (s, k, n) in
  match filter (fun s => roundsHere s q) (candidates n k) with
  | s :: _ => norm s
  | [] =>
      match fuel with
      | O => norm (hd 0%Z (candidates n k))
      | S f => shortest f n (k + 1)%Z
      end
  end.
End Shortest.

Definition exponentText (x : Z) : jsstring :=
  (if (x <? 0)%Z then str "-" else str "+") ++ digits (Z.abs x).

(** Number::toString step 5 onwards, for the digits [ds] of [s]. *)
Definition layout (ds : jsstring) (k n : Z) : jsstring :=
  if ((k <=? n) && (n <=? 21))%Z%bool then
    ds ++ repeat 48%N (Z.to_nat (n - k))
  else if ((0 <? n) && (n <=? 21))%Z%bool then
    firstn (Z.to_nat n) ds ++ str "." ++ skipn (Z.to_nat n) ds
  else if ((-6 <? n) && (n <=? 0))%Z%bool then
    str "0." ++ repeat 48%N (Z.to_nat (- n)) ++ ds
  else if (k =? 1)%Z then
    ds ++ str "e" ++ exponentText (n - 1)
  else
    firstn 1 ds ++ str "." ++ skipn 1 ds ++ str "e" ++ exponentText (n - 1).

Definition numberToString (x : float) : jsstring :=
  match Prim2SF x with
  | S754_nan => str "NaN"
  | S754_zero _ => str "0"
  | S754_infinity s => (if s then str "-" else []) ++ str "Infinity"
  | S754_finite s m e =>
      let m := Z.pos m in
      let bits := (Z.log2 m + e)%Z in
      let n := magnitude m e 700 (bits * 30103 / 100000 - 2) in
      let '(d, k, n) := shortest m e 16 n 1 in
      (if s then str "-" else []) ++ layout (digits d) k n
  end.

(** ** parseFloat *)

Fixpoint dropWhile (p : char -> bool) (s : jsstring) : jsstring :=
  match s with
  | c :: t => if p c then dropWhile p t else s
  | [] => []
  end.

Fixpoint takeWhile (p : char -> bool) (s : jsstring) : jsstring :=
  match s with
  | c :: t => if p c then c :: takeWhile p t else []
  | [] => []
  end.

(** The Number nearest to [mant * 10^exp10], signed. *)
Definition decimalToNumber (neg : bool) (mant exp10 : Z) : float :=
  match mant with
  | Z.pos p =>
      if (0 <=? exp10)%Z then
        SF2Prim (binary_normalize prec emax
                   (if neg then - (mant * 10 ^ exp10) else mant * 10 ^ exp10) 0 false)
      else
        match (10 ^ (- exp10))%Z with
        | Z.pos d => SF2Prim (SFdiv prec emax (S754_finite neg p 0) (S754_finite false d 0))
        | _ => nan
        end
  | _ => if neg then neg_zero else zero
  end.

(** An exponent part [e], [e+] or [e-] followed by digits, if [s] starts
    with one: its value and the text after it. *)
Definition exponentPart (s : jsstring) : option (Z * jsstring) :=
  match s with
  | c :: t =>
      if oneOf (str "eE") c then
        let '(neg, t') :=
          match t with
          | sg :: u =>
              if N.eqb sg 45 then (true, u)
              else if N.eqb sg 43 then (false, u) else (false, t)
          | [] => (false, t)
          end in
        match takeWhile isDigit t' with
        | [] => None
        | ds => Some ((if neg then - digitsValue ds else digitsValue ds)%Z,
                      dropWhile isDigit t')
        end
      else None
  | [] => None
  end.

(** An unsigned decimal literal at the head of [s]: digits, an optional
    fraction, an optional exponent.  Its mantissa, decimal exponent and the
    text after it; [None] when no digit is there. *)
Definition decimalLiteral (s : jsstring) : option (Z * Z * jsstring) :=
  let int := takeWhile isDigit s in
  let s1 := dropWhile isDigit s in
  let '(frac, s2) :=
    match s1 with
    | c :: t => if N.eqb c 46 then (takeWhile isDigit t, dropWhile isDigit t)
                else ([], s1)
    | [] => ([], s1)
    end in
  match int ++ frac with
  | [] => None
  | ds =>
      let mant := digitsValue ds in
      let scale := Z.of_nat (List.length frac) in
      match exponentPart s2 with
      | Some (x, s3) => Some (mant, x - scale, s3)%Z
      | None => Some (mant, - scale, s2)%Z
      end
  end.

(** [parseFloat(s)]: the longest prefix of the trimmed text that is a
    signed decimal literal or [Infinity]; [NaN] without one. *)
Definition parseFloat (s : jsstring) : float :=
  let s := dropWhile isSpace s in
  let '(neg, s) :=
    match s with
    | c :: t =>
        if N.eqb c 45 then (true, t)
        else if N.eqb c 43 then (false, t) else (false, s)
    | [] => (false, s)
    end in
  if startsWith s (str "Infinity") then
    (if neg then neg_infinity else infinity)
  else
    match decimalLiteral s with
    | Some (mant, exp10, _) => decimalToNumber neg mant exp10
    | None => nan
    end.

End NumberText.
Import NumberText.

(* ================================================================== *)
(** * An arithmetic interpreter for the evaluation sink

    [interpret Math text] is the value of [return text] in strict mode for
    the texts the rewriting stage produces: decimal, hexadecimal, octal and
    binary literals, [+ - * / **], parentheses, the comma operator,
    [undefined], [Math.PI] and calls [Math.name(args)].  Values are given by
    their [ToNumber] ([undefined] is [NaN]), which is all [evaluate] looks
    at.  [Math] gives the methods of the [Math] object by name.  Any other
    text is an error here; an engine words its messages differently.

    The interpreter reads one line of arithmetic.  It is not the engine on
    a text with a line break inside (the engine ends the [return] statement
    at some line breaks: [1], line feed, [2] is [1]), nor on a text with
    [//] or [/* */] (comments for the engine), nor on a text whose value is
    not a Number.  It runs the concrete examples below, each of them one
    line of such arithmetic. *)

Module Interpreter.
Import JsNumber.
Open Scope float_scope.

Inductive token : Type :=
| TNum (x : float)
| TId (name : jsstring)
| TPunct (p : jsstring).

Definition isIdStart (c : char) : bool :=
  between 97 122 c || between 65 90 c || N.eqb c 95 || N.eqb c 36.
Definition isIdPart (c : char) : bool := isIdStart c || isDigit c.

Definition SyntaxError (what : string) : jsstring :=
  str "SyntaxError: " ++ str what.

(** The digits of a literal in radix 2, 8 or 16. *)
Definition radixDigit (radix : Z) (c : char) : option Z :=
  let v :=
    (if isDigit c then Z.of_N c - 48
     else if between 97 102 c then Z.of_N c - 87
     else if between 65 70 c then Z.of_N c - 55
     else 99)%Z in
  if (v <? radix)%Z then Some v else None.

Definition isRadixDigit (radix : Z) (c : char) : bool :=
  match radixDigit radix c with Some _ => true | None => false end.

Definition radixValue (radix : Z) (ds : jsstring) : Z :=
  fold_left (fun acc c =>
      match radixDigit radix c with
      | Some v => radix * acc + v
      | None => acc
      end)%Z ds 0%Z.

Definition radixOf (c : char) : option Z :=
  if oneOf (str "xX") c then Some 16%Z
  else if oneOf (str "oO") c then Some 8%Z
  else if oneOf (str "bB") c then Some 2%Z
  else None.

(** A numeric literal at the head of [s] (which starts with a digit, or
    with a dot and a digit): its value and the text after it. *)
Definition numericLiteral (s : jsstring) : outcome (float * jsstring) :=
  let after (x : float) (rest : jsstring) : outcome (float * jsstring) :=
    match rest with
    | c :: _ =>
        if N.eqb c 110 then
          Throw (str "TypeError: Cannot convert a BigInt value to a number")
        else if isIdPart c then
          Throw (SyntaxError "Invalid or unexpected token")
        else Return (x, rest)
    | [] => Return (x, rest)
    end in
  match s with
  | z :: r :: t =>
      match (if N.eqb z 48 then radixOf r else None) with
      | Some radix =>
          match takeWhile (isRadixDigit radix) t with
          | [] => Throw (SyntaxError "Invalid or unexpected token")
          | ds => after (ofZ (radixValue radix ds)) (dropWhile (isRadixDigit radix) t)
          end
      | None =>
          if N.eqb z 48 && isDigit r then
            Throw (SyntaxError "Octal literals are not allowed in strict mode")
          else
            match decimalLiteral s with
            | Some (mant, exp10, rest) => after (decimalToNumber false mant exp10) rest
            | None => Throw (SyntaxError "Invalid or unexpected token")
            end
      end
  | _ =>
      match decimalLiteral s with
      | Some (mant, exp10, rest) => after (decimalToNumber false mant exp10) rest
      | None => Throw (SyntaxError "Invalid or unexpected token")
      end
  end.

Definition startsNumber (s : jsstring) : bool :=
  match s with
  | c :: t =>
      isDigit c
      || (N.eqb c 46 && match t with d :: _ => isDigit d | [] => false end)
  | [] => false
  end.

Fixpoint lex (fuel : nat) (s : jsstring) : outcome (list token) :=
  match fuel with
  | O => Return []
  | S f =>
      match s with
      | [] => Return []
      | c :: t =>
          if isSpace c then lex f t
          else if startsNumber s then
            p <- numericLiteral s ;;
            ts <- lex f (snd p) ;; Return (TNum (fst p) :: ts)
          else if isIdStart c then
            ts <- lex f (dropWhile isIdPart s) ;;
            Return (TId (takeWhile isIdPart s) :: ts)
          else if startsWith s (str "**") || startsWith s (str "++")
                  || startsWith s (str "--") then
            ts <- lex f (skipn 2 s) ;; Return (TPunct (firstn 2 s) :: ts)
          else if oneOf (str "+-*/(),.") c then
            ts <- lex f t ;; Return (TPunct [c] :: ts)
          else Throw (SyntaxError "Invalid or unexpected token")
      end
  end.

Definition isPunct (p : string) (t : token) : bool :=
  match t with TPunct q => eqs q (str p) | _ => false end.

Section Evaluator.
Variable Math : jsstring -> list float -> outcome float.

Definition unexpected : outcome (float * list token) :=
  Throw (SyntaxError "Unexpected token").

(** [fuel] bounds the nesting of calls; [interpret] gives enough of it. *)
Fixpoint comma (fuel : nat) (ts : list token) : outcome (float * list token) :=
  match fuel with
  | O => unexpected
  | S f =>
      p <- additive f ts ;;
      match snd p with
      | t :: r => if isPunct "," t then comma f r else Return p
      | [] => Return p
      end
  end
with additive (fuel : nat) (ts : list token) : outcome (float * list token) :=
  match fuel with
  | O => unexpected
  | S f => p <- multiplicative f ts ;; additiveLoop f (fst p) (snd p)
  end
with additiveLoop (fuel : nat) (acc : float) (ts : list token)
  : outcome (float * list token) :=
  match fuel with
  | O => unexpected
  | S f =>
      match ts with
      | t :: r =>
          if isPunct "+" t then
            p <- multiplicative f r ;; additiveLoop f (acc + fst p) (snd p)
          else if isPunct "-" t then
            p <- multiplicative f r ;; additiveLoop f (acc - fst p) (snd p)
          else Return (acc, ts)
      | [] => Return (acc, ts)
      end
  end
with multiplicative (fuel : nat) (ts : list token) : outcome (float * list token) :=
  match fuel with
  | O => unexpected
  | S f => p <- exponent f ts ;; multiplicativeLoop f (fst p) (snd p)
  end
with multiplicativeLoop (fuel : nat) (acc : float) (ts : list token)
  : outcome (float * list token) :=
  match fuel with
  | O => unexpected
  | S f =>
      match ts with
      | t :: r =>
          if isPunct "*" t then
            p <- exponent f r ;; multiplicativeLoop f (acc * fst p) (snd p)
          else if isPunct "/" t then
            p <- exponent f r ;; multiplicativeLoop f (acc / fst p) (snd p)
          else Return (acc, ts)
      | [] => Return (acc, ts)
      end
  end
with exponent (fuel : nat) (ts : list token) : outcome (float * list token) :=
  match fuel with
  | O => unexpected
  | S f =>
      match ts with
      | t :: _ =>
          if isPunct "+" t || isPunct "-" t then
            (* a unary expression cannot be the base of [**] *)
            p <- unary f ts ;;
            match snd p with
            | t' :: _ => if isPunct "**" t' then unexpected else Return p
            | [] => Return p
            end
          else
            p <- primary f ts ;;
            match snd p with
            | t' :: r =>
                if isPunct "**" t' then
                  q <- exponent f r ;;
                  v <- Math (str "pow") [fst p; fst q] ;; Return (v, snd q)
                else Return p
            | [] => Return p
            end
      | [] => unexpected
      end
  end
with unary (fuel : nat) (ts : list token) : outcome (float * list token) :=
  match fuel with
  | O => unexpected
  | S f =>
      match ts with
      | t :: r =>
          if isPunct "-" t then p <- unary f r ;; Return (- fst p, snd p)
          else if isPunct "+" t then unary f r
          else primary f ts
      | [] => unexpected
      end
  end
with primary (fuel : nat) (ts : list token) : outcome (float * list token) :=
  match fuel with
  | O => unexpected
  | S f =>
      match ts with
      | TNum x :: r => Return (x, r)
      | TPunct p :: r =>
          if eqs p (str "(") then
            q <- comma f r ;;
            match snd q with
            | t :: r' => if isPunct ")" t then Return (fst q, r') else unexpected
            | [] => unexpected
            end
          else unexpected
      | TId name :: r =>
          if eqs name (str "undefined") then Return (nan, r)
          else if eqs name (str "Math") then
            match r with
            | dot :: TId method :: r' =>
                if isPunct "." dot then
                  match r' with
                  | TPunct p :: r'' =>
                      if eqs p (str "(") then
                        a <- arguments f r'' ;;
                        v <- Math method (fst a) ;; Return (v, snd a)
                      else if eqs method (str "PI") then Return (Math_PI, r')
                      else Return (nan, r')
                  | _ =>
                      if eqs method (str "PI") then Return (Math_PI, r')
                      else Return (nan, r')
                  end
                else unexpected
            | _ => Return (nan, r)
            end
          else Throw (str "ReferenceError: " ++ name ++ str " is not defined")
      | [] => unexpected
      end
  end
with arguments (fuel : nat) (ts : list token) : outcome (list float * list token) :=
  match fuel with
  | O => Throw (SyntaxError "Unexpected token")
  | S f =>
      match ts with
      | t :: r =>
          if isPunct ")" t then Return ([], r)
          else
            p <- additive f ts ;;
            match snd p with
            | t' :: r' =>
                if isPunct "," t' then
                  a <- arguments f r' ;; Return (fst p :: fst a, snd a)
                else if isPunct ")" t' then Return ([fst p], r')
                else Throw (SyntaxError "Unexpected token")
            | [] => Throw (SyntaxError "Unexpected token")
            end
      | [] => Throw (SyntaxError "Unexpected token")
      end
  end.

(** [return] directly followed by a line break, or by nothing, returns
    [undefined]. *)
Definition isLineTerminator (c : char) : bool :=
  N.eqb c 10 || N.eqb c 13 || N.eqb c 8232 || N.eqb c 8233.

Definition interpret (text : jsstring) : outcome float :=
  ts <- lex (S (List.length text)) text ;;
  match ts with
  | [] => Return nan
  | _ :: _ =>
      p <- comma (10 * S (List.length ts)) ts ;;
      match snd p with
      | [] =>
          if existsb isLineTerminator (takeWhile isSpace text)
          then Return nan else Return (fst p)
      | _ :: _ => Throw (SyntaxError "Unexpected token")
      end
  end.
End Evaluator.

(** A host without numeric library: every call of a [Math] method is a
    TypeError, and so is [**], which needs the primitive [pow].  It runs
    the texts that use neither. *)
Definition noMethods (name : jsstring) (args : list float) : outcome float :=
  Throw (str "TypeError: Math." ++ name ++ str " is not a function").

End Interpreter.
Import Interpreter.

(* ================================================================== *)
(** * The [Calculator] class *)

Module Calc.
Import JsNumber Factorial.
Open Scope float_scope.

Inductive AngleMode : Type := rad | deg.

(** The fields an instance mutates.  [lastResult] is [None] for [null]. *)
Record Calculator : Type := mkCalculator {
  expression : jsstring;
  result : jsstring;
  lastResult : option float;
  memory : float;
  isNewExpression : bool;
  angleMode : AngleMode
}.

(** [this.constants], set once by the constructor. *)
Definition constants : list (jsstring * float) :=
  [ (str "pi", Math_PI);
    (str "e", Math_E);
    (str "phi", (1 + sqrt 5) / 2) ].

(** The keys of [this.functions], in insertion order.  The pipeline only
    ever reads the keys: [processFunctionCalls] rewrites a call into text
    for the evaluation sink and never calls the table's entries. *)
Definition functions : list jsstring :=
  map str
    [ "sin"; "cos"; "tan"; "asin"; "acos"; "atan"; "log"; "log10"; "log2";
      "sqrt"; "cbrt"; "pow"; "exp"; "abs"; "ceil"; "floor"; "round";
      "factorial"; "reciprocal"; "square"; "cube"; "percent" ]%string.

Definition constant (name : jsstring) : float :=
  match find (fun kv => eqs (fst kv) name) constants with
  | Some kv => snd kv
  | None => nan
  end.

(** [new Calculator()]. *)
Definition new : Calculator :=
  {| expression := []; result := []; lastResult := None; memory := 0;
     isNewExpression := true; angleMode := rad |}.

Definition set_expression (v : jsstring) (c : Calculator) : Calculator :=
  mkCalculator v (result c) (lastResult c) (memory c) (isNewExpression c) (angleMode c).
Definition set_result (v : jsstring) (c : Calculator) : Calculator :=
  mkCalculator (expression c) v (lastResult c) (memory c) (isNewExpression c) (angleMode c).
Definition set_lastResult (v : option float) (c : Calculator) : Calculator :=
  mkCalculator (expression c) (result c) v (memory c) (isNewExpression c) (angleMode c).
Definition set_memory (v : float) (c : Calculator) : Calculator :=
  mkCalculator (expression c) (result c) (lastResult c) v (isNewExpression c) (angleMode c).
Definition set_isNewExpression (v : bool) (c : Calculator) : Calculator :=
  mkCalculator (expression c) (result c) (lastResult c) (memory c) v (angleMode c).
Definition set_angleMode (v : AngleMode) (c : Calculator) : Calculator :=
  mkCalculator (expression c) (result c) (lastResult c) (memory c) (isNewExpression c) v.

(** [this.lastResult || 0]. *)
Definition lastResultOr0 (c : Calculator) : float :=
  match lastResult c with
  | Some x => if truthy x then x else 0
  | None => 0
  end.

(** [!this.lastResult]. *)
Definition noLastResult (c : Calculator) : bool :=
  match lastResult c with
  | Some x => negb (truthy x)
  | None => true
  end.

(** ** Patterns of the source *)

(** [/\bNAME\b/g] *)
Definition wholeWord (name : jsstring) : regex :=
  [WordB] ++ lit name ++ [WordB].

(** [/\bNAME\s*\(([^)]+)\)/g] *)
Definition callOf (name : jsstring) : regex :=
  [WordB] ++ lit name
  ++ [Many isSpace 0; Chr 40%N; Group (fun c => negb (N.eqb c 41)) 1; Chr 41%N].

(** [[+\-*/]] *)
Definition arithOp (c : char) : bool := oneOf (str "+-*/") c.

(** [[0-9+\-*/().\s,]] *)
Definition argChar (c : char) : bool :=
  isDigit c || oneOf (str "+-*/().") c || isSpace c || N.eqb c 44.

(** [[0-9+\-*/().\s,Math.sincostalogqrtbcexpfloorundefinedPI*]] *)
Definition allowedChar (c : char) : bool :=
  isDigit c || oneOf (str "+-*/().") c || isSpace c
  || oneOf (str ",Math.sincostalogqrtbcexpfloorundefinedPI*") c.

(** [/^[...]*$/] over [allowedChar]: [validPattern] and [allowedPattern]. *)
Definition validPattern : regex := [Bol; Many allowedChar 0; Eol].

(** [/([+\-*/]{3,})/] *)
Definition operatorRun : regex := [Group arithOp 3].

(** [/[+\-*/]{1}[+*/]/] *)
Definition operatorPair : regex := [Cls arithOp; Cls (oneOf (str "+*/"))].

(** [/\*\*/] *)
Definition powerOperator : regex := [Chr 42%N; Chr 42%N].

(** ** Validation *)

Fixpoint balancedFrom (count : Z) (s : jsstring) : bool :=
  match s with
  | [] => (count =? 0)%Z
  | char :: rest =>
      let count := if N.eqb char 40 then (count + 1)%Z else count in
      let count := if N.eqb char 41 then (count - 1)%Z else count in
      if (count <? 0)%Z then false else balancedFrom count rest
  end.

Definition hasBalancedParentheses (expression : jsstring) : bool :=
  balancedFrom 0 expression.

Definition isValidExpression (expression : jsstring) : bool :=
  if negb (hasBalancedParentheses expression) then false
  else if negb (test validPattern expression) then false
  else if test operatorRun expression then false
  else if test operatorPair expression && negb (test powerOperator expression)
       then false
  else true.

Definition trim (s : jsstring) : jsstring :=
  rev (dropWhile isSpace (rev (dropWhile isSpace s))).

Definition isValidFunctionArgs (args : jsstring) : bool :=
  if negb (JsString.truthy args) then false
  else test [Bol; Many argChar 0; Eol] (trim args).

(** [mathMapping[funcName] || funcName].  The table is an object literal,
    read here through its own properties; a name it inherits from
    [Object.prototype] ([constructor], [toString], ...) is outside this
    model: for it the source returns the inherited member, not a string.
    [processFunctionCalls] calls it with the names of [functions] only. *)
Definition getMathEquivalent (funcName : jsstring) : jsstring :=
  let mathMapping :=
    map (fun n => (str n, str n))
      [ "sin"; "cos"; "tan"; "asin"; "acos"; "atan"; "log"; "log10"; "log2";
        "sqrt"; "cbrt"; "exp"; "abs"; "ceil"; "floor"; "round"; "pow" ]%string in
  match find (fun kv => eqs (fst kv) funcName) mathMapping with
  | Some kv => snd kv
  | None => funcName
  end.

(** ** Function-call rewriting *)

Definition handledAbove : list jsstring :=
  map str [ "factorial"; "reciprocal"; "square"; "cube"; "percent";
            "sin"; "cos"; "tan" ]%string.

Definition processFunctionCalls (c : Calculator) (expression : jsstring)
  : outcome jsstring :=
  let processed := expression in
  processed <- replace (callOf (str "factorial")) (fun _ args =>
      if negb (isValidFunctionArgs args) then
        Throw (str "Invalid arguments for factorial")
      else
        let num := parseFloat args in
        r <- factorial num ;; Return (numberToString r)) processed ;;
  processed <- replace (callOf (str "reciprocal")) (fun _ args =>
      Return (str "(1/(" ++ args ++ str "))")) processed ;;
  processed <- replace (callOf (str "square")) (fun _ args =>
      Return (str "Math.pow(" ++ args ++ str ", 2)")) processed ;;
  processed <- replace (callOf (str "cube")) (fun _ args =>
      Return (str "Math.pow(" ++ args ++ str ", 3)")) processed ;;
  processed <- replace (callOf (str "percent")) (fun _ args =>
      Return (str "((" ++ args ++ str ")/100)")) processed ;;
  processed <-
    match angleMode c with
    | deg =>
        processed <- replace (callOf (str "sin")) (fun _ args =>
            Return (str "Math.sin((" ++ args ++ str ") * Math.PI / 180)")) processed ;;
        processed <- replace (callOf (str "cos")) (fun _ args =>
            Return (str "Math.cos((" ++ args ++ str ") * Math.PI / 180)")) processed ;;
        replace (callOf (str "tan")) (fun _ args =>
            Return (str "Math.tan((" ++ args ++ str ") * Math.PI / 180)")) processed
    | rad =>
        processed <- replace (callOf (str "sin")) (fun _ args =>
            Return (str "Math.sin(" ++ args ++ str ")")) processed ;;
        processed <- replace (callOf (str "cos")) (fun _ args =>
            Return (str "Math.cos(" ++ args ++ str ")")) processed ;;
        replace (callOf (str "tan")) (fun _ args =>
            Return (str "Math.tan(" ++ args ++ str ")")) processed
    end ;;
  fold_left (fun acc funcName =>
      processed <- acc ;;
      if existsb (eqs funcName) handledAbove then Return processed
      else
        replace (callOf funcName) (fun _ args =>
            if negb (isValidFunctionArgs args) then
              Throw (str "Invalid arguments for " ++ funcName)
            else
              Return (str "Math." ++ getMathEquivalent funcName
                        ++ str "(" ++ args ++ str ")")) processed)
    functions (Return processed).

(** ** Evaluation *)

Section Host.
(** [new Function('Math', '"use strict"; return ' + text)(Math)]: the
    Number the text evaluates to, or the error the engine throws.  The
    rewriting stage produces arithmetic over Numbers; [undefined] counts as
    [NaN], which [evaluate] cannot tell apart, and a text whose value has
    another type is outside this model.

    Such texts pass validation, whose letters spell [null], [true], [false]
    and the suffix of [1n].  On them the source goes on with the value as it
    is: [isFinite] converts it, so that [evaluate] returns [null] or a
    boolean unchanged and throws the TypeError of the conversion on a
    BigInt, and [calculate] stores what [evaluate] returned before it calls
    [toString] on it, which throws on [null].  The model, and with it every
    statement below about a value that [runFunction] or [evaluate] returns,
    is about a sink with Number values. *)
Variable runFunction : jsstring -> outcome float.
(** What [Math.random()] returns. *)
Variable Math_random : float.

Definition safeEvaluate (expression : jsstring) : outcome float :=
  if negb (test validPattern expression) then
    Throw (str "Expression contains invalid characters")
  else runFunction expression.

(** [try { ... } catch (error) { throw new Error(`Calculation error: ...`) }] *)
Definition rethrow (m : outcome float) : outcome float :=
  match m with
  | Return v => Return v
  | Throw message => Throw (str "Calculation error: " ++ message)
  end.

(** Steps 1 and 2 of [evaluate]: constants, then operator glyphs. *)
Definition substituteConstants (c : Calculator) (expression : jsstring) : jsstring :=
  let e1 := replaceWith (wholeWord (str "pi")) (numberToString (constant (str "pi"))) expression in
  let e2 := replaceWith (wholeWord (str "e")) (numberToString (constant (str "e"))) e1 in
  let e3 := replaceWith (wholeWord (str "phi")) (numberToString (constant (str "phi"))) e2 in
  replaceWith (wholeWord (str "ans")) (numberToString (lastResultOr0 c)) e3.

Definition normalizeOperators (expression : jsstring) : jsstring :=
  let e1 := replaceWith [Chr 94%N] (str "**") expression in
  let e2 := replaceWith [Chr MULTIPLICATION_SIGN] (str "*") e1 in
  let e3 := replaceWith [Chr DIVISION_SIGN] (str "/") e2 in
  replaceWith [Chr MINUS_SIGN] (str "-") e3.

(** The text handed to validation and to the sink. *)
Definition rewrite (c : Calculator) (expression : jsstring) : outcome jsstring :=
  processFunctionCalls c (normalizeOperators (substituteConstants c expression)).

(** Result classification, the end of [evaluate]'s [try] block. *)
Definition classify (result : float) : outcome float :=
  if negb (isFinite result) then
    if isNaN result then Throw (str "Result is not a number")
    else if (result =? infinity) || (result =? neg_infinity) then
      Throw (str "Result is infinite")
    else Return result
  else Return result.

Definition evaluate (c : Calculator) (expression : jsstring) : outcome float :=
  rethrow (
    processedExpression <- rewrite c expression ;;
    if negb (isValidExpression processedExpression) then
      Throw (str "Invalid expression")
    else
      result <- safeEvaluate processedExpression ;;
      classify result).

(** ** The keystroke state machine *)

Definition updateDisplay (c : Calculator) : Calculator :=
  if noLastResult c then
    set_result (if JsString.truthy (expression c) then expression c else str "0") c
  else c.

Definition init (c : Calculator) : Calculator := updateDisplay c.

(** [/^[0-9.]$/] *)
Definition isNumber (value : jsstring) : bool :=
  test [Bol; Cls (fun c => isDigit c || N.eqb c 46); Eol] value.

(** [/^[+\-*/()^%]$/] *)
Definition isOperator (value : jsstring) : bool :=
  test [Bol; Cls (oneOf (str "+-*/()^%")); Eol] value.

Definition isFunction (value : jsstring) : bool :=
  existsb (eqs value) functions.

Definition isConstant (value : jsstring) : bool :=
  existsb (eqs value) (map fst constants).

Definition appendNumber (number : jsstring) (c : Calculator) : Calculator :=
  if isNewExpression c then
    set_isNewExpression false (set_result [] (set_expression number c))
  else
    let lastNumberMatch :=
      matchFirst [Many (fun c => isDigit c || N.eqb c 46) 1; Eol] (expression c) in
    let currentNumber :=
      match lastNumberMatch with Some m => m | None => [] end in
    if eqs number (str ".") && includes currentNumber 46%N then c
    else if eqs number (str "0") && eqs (expression c) (str "0") then c
    else set_expression (expression c ++ number) c.

Definition operatorMap (operator : jsstring) : jsstring :=
  if eqs operator (str "-") then [MINUS_SIGN]
  else if eqs operator (str "*") then [MULTIPLICATION_SIGN]
  else if eqs operator (str "/") then [DIVISION_SIGN]
  else operator.

Definition appendOperator (operator : jsstring) (c : Calculator) : Calculator :=
  let c :=
    match isNewExpression c, lastResult c with
    | true, Some r =>
        set_isNewExpression false
          (set_result [] (set_expression (numberToString r) c))
    | _, _ => c
    end in
  set_expression (expression c ++ operatorMap operator) c.

(** The test shared by [appendFunction] and [appendConstant]. *)
Definition needsMultiplication (expression : jsstring) : bool :=
  JsString.truthy expression
  && negb (endsWith expression (str "("))
  && negb (endsWith expression [MULTIPLICATION_SIGN])
  && negb (endsWith expression [DIVISION_SIGN])
  && negb (endsWith expression (str "+"))
  && negb (endsWith expression [MINUS_SIGN]).

Definition appendFunction (funcName : jsstring) (c : Calculator) : Calculator :=
  let c :=
    if isNewExpression c then set_isNewExpression false (set_expression [] c)
    else c in
  let c :=
    if needsMultiplication (expression c)
    then set_expression (expression c ++ [MULTIPLICATION_SIGN]) c else c in
  set_expression (expression c ++ funcName ++ str "(") c.

Definition appendConstant (constant : jsstring) (c : Calculator) : Calculator :=
  let c :=
    if isNewExpression c then set_isNewExpression false (set_expression [] c)
    else c in
  let c :=
    if needsMultiplication (expression c)
    then set_expression (expression c ++ [MULTIPLICATION_SIGN]) c else c in
  set_expression (expression c ++ constant) c.

(** What [calculate] returns on success. *)
Record EvaluationResult : Type := {
  er_expression : jsstring;
  er_result : float
}.

(** [calculate()]: the instance afterwards and the completion ([None] is
    [null]).  A throw of [evaluate] leaves before any assignment.  The
    [Return] branch is the source on a Number [result]; on [null], which
    [evaluate] can return from a sink outside this model, the source assigns
    [lastResult] and then throws from [result.toString()]. *)
Definition calculate (c : Calculator)
  : Calculator * outcome (option EvaluationResult) :=
  if negb (JsString.truthy (expression c)) then (c, Return None)
  else
    match evaluate c (expression c) with
    | Return result =>
        let c' :=
          set_isNewExpression true
            (set_result (numberToString result)
               (set_lastResult (Some result) c)) in
        (c', Return (Some {| er_expression := expression c';
                             er_result := result |}))
    | Throw error => (c, Throw error)
    end.

Definition clear (c : Calculator) : Calculator :=
  updateDisplay
    (set_isNewExpression true
       (set_lastResult None (set_result [] (set_expression [] c)))).

Definition clearEntry (c : Calculator) : Calculator :=
  if isNewExpression c then clear c
  else updateDisplay (set_expression [] c).

Definition backspace (c : Calculator) : Calculator :=
  if (0 <? List.length (expression c))%nat then
    updateDisplay (set_expression (slice_0_m1 (expression c)) c)
  else c.

Definition negate (c : Calculator) : Calculator :=
  if JsString.truthy (expression c) then
    if startsWith (expression c) (str "-") then
      set_expression (substring_1 (expression c)) c
    else
      set_expression (str "-" ++ expression c) c
  else
    match lastResult c with
    | Some r =>
        set_isNewExpression false
          (set_expression (str "-(" ++ numberToString r ++ str ")") c)
    | None => c
    end.

Definition setExpression (expression : jsstring) (c : Calculator) : Calculator :=
  updateDisplay (set_isNewExpression false (set_expression expression c)).

Definition setAngleMode (mode : AngleMode) (c : Calculator) : Calculator :=
  set_angleMode mode c.

(** [handleAction(action)]: every case but [equals] ends in
    [updateDisplay()] and returns [null]. *)
Definition handleAction (action : jsstring) (c : Calculator)
  : Calculator * outcome (option EvaluationResult) :=
  let done c' := (updateDisplay c', Return None) in
  if eqs action (str "clear") then done (clear c)
  else if eqs action (str "ce") then done (clearEntry c)
  else if eqs action (str "backspace") then done (backspace c)
  else if eqs action (str "equals") then calculate c
  else if eqs action (str "ans") then
    done match lastResult c with
         | Some r => appendNumber (numberToString r) c
         | None => c
         end
  else if eqs action (str "memory-clear") then done (set_memory 0 c)
  else if eqs action (str "memory-recall") then
    done (appendNumber (numberToString (memory c)) c)
  else if eqs action (str "memory-add") then
    done (set_memory (memory c + lastResultOr0 c) c)
  else if eqs action (str "memory-subtract") then
    done (set_memory (memory c - lastResultOr0 c) c)
  else if eqs action (str "random") then
    done (appendNumber (numberToString Math_random) c)
  else if eqs action (str "negate") then done (negate c)
  else if isNumber action then done (appendNumber action c)
  else if isOperator action then done (appendOperator action c)
  else if isFunction action then done (appendFunction action c)
  else if isConstant action then done (appendConstant action c)
  else done c.

End Host.

End Calc.
Import Calc.

(* ================================================================== *)
(** * The words of the specification *)

Module Spec.

(** A run of three arithmetic operators somewhere in the text. *)
Definition hasOperatorRun (s : jsstring) : Prop :=
  exists pre a b c post,
    s = pre ++ a :: b :: c :: post
    /\ arithOp a = true /\ arithOp b = true /\ arithOp c = true.

(** An arithmetic operator directly followed by a character of [q]. *)
Definition hasOperatorThen (q : char -> bool) (s : jsstring) : Prop :=
  exists pre a b post,
    s = pre ++ a :: b :: post /\ arithOp a = true /\ q b = true.

(** The power digraph somewhere in the text. *)
Definition hasPowerOperator (s : jsstring) : Prop :=
  exists pre post, s = pre ++ 42%N :: 42%N :: post.

(** Two adjacent arithmetic operators that are not the power digraph. *)
Definition hasAdjacentOperators (s : jsstring) : Prop :=
  exists pre a b post,
    s = pre ++ a :: b :: post /\ arithOp a = true /\ arithOp b = true
    /\ (N.eqb a 42 && N.eqb b 42) = false.

(** The error kinds of [evaluate], by message. *)
Definition InvalidExpression : jsstring :=
  str "Calculation error: Invalid expression".
Definition ResultNotANumber : jsstring :=
  str "Calculation error: Result is not a number".
Definition ResultInfinite : jsstring :=
  str "Calculation error: Result is infinite".
Definition NonFiniteResult (message : jsstring) : bool :=
  eqs message ResultNotANumber || eqs message ResultInfinite.

(** The tokens of a text: a [Word] is a maximal run of word characters
    (letters, digits, underscore), every other character is a [Sign] of its
    own. *)
Inductive lexeme : Type :=
| Word (w : jsstring)
| Sign (c : char).

Fixpoint lexemes (s : jsstring) : list lexeme :=
  match s with
  | [] => []
  | c :: t =>
      if isWordChar c then
        match lexemes t with
        | Word w :: r => Word (c :: w) :: r
        | ts => Word [c] :: ts
        end
      else Sign c :: lexemes t
  end.

(** The text starts with a word character. *)
Definition startsWord (s : jsstring) : bool := isWordAt (hd_error s).

(** The value of a constant name: [ans] is the last result, or [0] when
    there is none. *)
Definition constantValue (c : Calculator) (name : jsstring) : option float :=
  if eqs name (str "pi") then Some JsNumber.Math_PI
  else if eqs name (str "e") then Some JsNumber.Math_E
  else if eqs name (str "phi") then Some ((1 + sqrt 5) / 2)%float
  else if eqs name (str "ans") then
    Some (match lastResult c with Some x => x | None => 0%float end)
  else None.

(** Substitution on tokens: a token that is the name of a constant becomes
    the text of its value, every other token stays. *)
Definition substituteToken (c : Calculator) (t : lexeme) : jsstring :=
  match t with
  | Word w =>
      match constantValue c w with
      | Some v => numberToString v
      | None => w
      end
  | Sign x => [x]
  end.

Definition substituteTokens (c : Calculator) (s : jsstring) : jsstring :=
  flat_map (substituteToken c) (lexemes s).

(** A buffer on which [negate] is its own inverse: not empty, not the lone
    sign ["-"], and not starting with ["--"]. *)
Definition togglesBack (buffer : jsstring) : bool :=
  match buffer with
  | [] => false
  | a :: rest =>
      if N.eqb a 45 then
        match rest with
        | [] => false
        | b :: _ => negb (N.eqb b 45)
        end
      else true
  end.

End Spec.
Import Spec.

(* ================================================================== *)
(** * Notions used in the proofs *)

Module Notions.
Import JsNumber.

(** [s] starts with [n] characters of [p]. *)
Fixpoint leading (p : char -> bool) (n : nat) (s : jsstring) : bool :=
  match n with
  | O => true
  | S n' => match s with c :: t => p c && leading p n' t | [] => false end
  end.

Definition text (t : lexeme) : jsstring :=
  match t with Word w => w | Sign c => [c] end.

(** A token list as [lexemes] produces it: words are non-empty runs of
    word characters, signs are other characters, and no two words touch.
    [afterWord] says a word came just before. *)
Fixpoint wellFormed (afterWord : bool) (ts : list lexeme) : Prop :=
  match ts with
  | [] => True
  | Word w :: r =>
      afterWord = false /\ w <> [] /\ forallb isWordChar w = true
      /\ wellFormed true r
  | Sign c :: r => isWordChar c = false /\ wellFormed false r
  end.

Definition render (txt : jsstring) (ps : list piece) : jsstring :=
  flat_map (fun p => match p with Keep c => [c] | Hit _ _ => txt end) ps.

(** What [replaceWith (wholeWord name) txt] does to one token. *)
Definition swap (name txt : jsstring) (t : lexeme) : jsstring :=
  match t with
  | Word w => if eqs w name then txt else w
  | Sign c => [c]
  end.

(** No token of [t] is the word [name]. *)
Definition freeOf (name t : jsstring) : bool :=
  negb (existsb (fun l => match l with Word w => eqs w name | Sign _ => false end)
          (lexemes t)).

(** One replacement, seen on a text [t] that is itself the image of a
    token. *)
Definition pass (name txt t : jsstring) : jsstring :=
  flat_map (swap name txt) (lexemes t).

(** The instance after [setExpression("2+3")] and a successful [equals],
    with the arithmetic interpreter as the sink. *)
Definition afterEquals : Calculator :=
  fst (handleAction (interpret noMethods) 0 (str "equals")
         (setExpression (str "2+3") (init new))).

(** The instance after the keys [5], [negate], [backspace]. *)
Definition loneMinus : Calculator :=
  let press a c := fst (handleAction (interpret noMethods) 0 a c) in
  press (str "backspace") (press (str "negate") (press (str "5") (init new))).

Definition lastResultFinite (c : Calculator) : Prop :=
  forall x, lastResult c = Some x -> isFinite x = true.

(** The instances a page can reach: [init] after the constructor, then
    [handleAction], [setExpression] and [setAngleMode] in any order. *)
Inductive reachable (runFunction : jsstring -> outcome float)
  : Calculator -> Prop :=
| reach_init : reachable runFunction (init new)
| reach_action (random : float) (action : jsstring) (c : Calculator) :
    reachable runFunction c ->
    reachable runFunction (fst (handleAction runFunction random action c))
| reach_setExpression (expression : jsstring) (c : Calculator) :
    reachable runFunction c ->
    reachable runFunction (setExpression expression c)
| reach_setAngleMode (mode : AngleMode) (c : Calculator) :
    reachable runFunction c ->
    reachable runFunction (setAngleMode mode c).

End Notions.
Import Notions.

(* ================================================================== *)
(** * The [HistoryManager] class: the list it keeps in memory

    [saveHistory], which every mutating method ends with, writes the list
    to [localStorage] and does not touch [this.history]; it is left out. *)

Module History.
Import JsNumber.
Open Scope float_scope.

(** An entry of [this.history].  [h_expression] and [h_result] are its
    fields [expression] and [result]. *)
Record HistoryItem : Type := {
  id : float;
  h_expression : jsstring;
  h_result : float;
  timestamp : jsstring
}.

(** [this.maxHistoryItems], set once by the constructor. *)
Definition maxHistoryItems : nat := 50.

(** [item.expression === expression && item.result === result] *)
Definition sameCalculation (expression : jsstring) (result : float)
           (item : HistoryItem) : bool :=
  eqs (h_expression item) expression && (h_result item =? result).

(** [addToHistory(expression, result)] on the list [history]; [newId] is
    what [Date.now() + Math.random()] gives and [now] what
    [new Date().toISOString()] gives at the call. *)
Definition addToHistory (newId : float) (now : jsstring)
           (expression : jsstring) (result : float)
           (history : list HistoryItem) : list HistoryItem :=
  let isDuplicate := existsb (sameCalculation expression result) history in
  if isDuplicate then history
  else
    let historyItem :=
      {| id := newId; h_expression := expression; h_result := result;
         timestamp := now |} in
    let history := historyItem :: history in
    if (maxHistoryItems <? List.length history)%nat
    then firstn maxHistoryItems history
    else history.

Definition clearHistory (history : list HistoryItem) : list HistoryItem := [].

(** [this.history.filter(item => item.id !== id)] *)
Definition removeHistoryItem (i : float) (history : list HistoryItem)
  : list HistoryItem :=
  filter (fun item => negb (id item =? i)) history.

(** [this.history.find(item => item.id === id)]; [None] is [undefined]. *)
Definition getHistoryItem (i : float) (history : list HistoryItem)
  : option HistoryItem :=
  find (fun item => id item =? i) history.

(** [importHistory(data)]: [data] is [Some l] when [data.history] is an
    array [l], [None] otherwise.  The list afterwards and the value
    returned. *)
Definition importHistory (data : option (list HistoryItem))
           (history : list HistoryItem) : list HistoryItem * bool :=
  match data with
  | Some l => (firstn maxHistoryItems l, true)
  | None => (history, false)
  end.

End History.
Import History.

(* ================================================================== *)
(** * The [KeyboardHandler] class: keys and shortcuts to actions *)

Module Keyboard.

(** [o[key]] for an object literal [o] given by its entries in source
    order: of a key written twice the later value counts.  [None] is
    [undefined].  The names [Object.prototype] adds to every object are
    outside the model: none of them is the key value or the code of a
    keyboard event. *)
Definition property (o : list (jsstring * jsstring)) (key : jsstring)
  : option jsstring :=
  option_map snd (find (fun kv => eqs (fst kv) key) (rev o)).

(** [o[key]] where the source tests it for truthiness. *)
Definition truthyProperty (o : list (jsstring * jsstring)) (key : jsstring)
  : option jsstring :=
  match property o key with
  | Some v => if JsString.truthy v then Some v else None
  | None => None
  end.

Definition entries (l : list (string * string)) : list (jsstring * jsstring) :=
  map (fun kv => (str (fst kv), str (snd kv))) l.

(** [this.keyMappings], as the constructor writes it. *)
Definition keyMappings : list (jsstring * jsstring) :=
  entries
    [ ("0", "0"); ("1", "1"); ("2", "2"); ("3", "3"); ("4", "4");
      ("5", "5"); ("6", "6"); ("7", "7"); ("8", "8"); ("9", "9");
      ("+", "+"); ("-", "-"); ("*", "*"); ("/", "/");
      ("Enter", "equals"); ("=", "equals");
      ("Escape", "clear"); ("Delete", "clear");
      ("Backspace", "backspace");
      (".", "."); ("(", "("); (")", ")");
      ("^", "^"); ("%", "%");
      ("s", "sin"); ("c", "cos"); ("t", "tan");
      ("l", "log"); ("q", "sqrt"); ("e", "exp");
      ("b", "abs"); ("n", "negate"); ("r", "cbrt");
      ("S", "sin"); ("C", "cos"); ("T", "tan");
      ("L", "log"); ("Q", "sqrt"); ("E", "exp");
      ("B", "abs"); ("N", "negate"); ("R", "cbrt");
      ("p", "pi"); ("P", "pi"); ("E", "e");
      ("m", "memory-recall"); ("M", "memory-add");
      ("h", "history-toggle"); ("H", "history-toggle");
      ("T", "theme-toggle");
      ("a", "ans"); ("A", "ans");
      ("w", "random"); ("W", "random");
      ("f", "factorial"); ("F", "factorial");
      ("Space", "equals");
      ("Tab", "ans") ]%string.

(** [this.shortcuts]. *)
Definition shortcuts : list (jsstring * jsstring) :=
  entries
    [ ("Ctrl+KeyC", "clear");
      ("Ctrl+KeyA", "clear");
      ("Ctrl+KeyH", "history-toggle");
      ("Ctrl+KeyT", "theme-toggle");
      ("Ctrl+KeyM", "memory-clear");
      ("Ctrl+KeyR", "memory-recall");
      ("Ctrl+KeyS", "memory-add");
      ("Ctrl+KeyD", "memory-subtract");
      ("Ctrl+KeyE", "export-history");
      ("Ctrl+KeyI", "import-history");
      ("Ctrl+KeyP", "print");
      ("F1", "help");
      ("F2", "history-toggle");
      ("F3", "theme-toggle");
      ("F9", "memory-clear");
      ("F10", "memory-recall");
      ("F11", "fullscreen");
      ("F12", "dev-tools") ]%string.

(** [s.toLowerCase()] on the letters A-Z.  Other code units are left as
    they are: of the characters outside ASCII only the Kelvin sign
    lower-cases to an ASCII string, [k], which is no key of
    [keyMappings]. *)
Definition toLowerCase (s : jsstring) : jsstring :=
  map (fun c => if between 65 90 c then (c + 32)%N else c) s.

(** [getAction(key, event)]; [None] is [null]. *)
Definition getAction (key : jsstring) : option jsstring :=
  match truthyProperty keyMappings key with
  | Some action => Some action
  | None =>
      let lowerKey := toLowerCase key in
      match truthyProperty keyMappings lowerKey with
      | Some action => Some action
      | None =>
          if eqs key (str "Enter") || eqs key (str "=") then
            Some (str "equals")
          else if eqs key (str "Escape") || eqs key (str "Delete") then
            Some (str "clear")
          else if eqs key (str "Backspace") then Some (str "backspace")
          else None
      end
  end.

(** The fields of a keyboard event the handler reads. *)
Record KeyboardEvent : Type := {
  key : jsstring;
  code : jsstring;
  ctrlKey : bool;
  altKey : bool;
  shiftKey : bool;
  metaKey : bool
}.

(** [getShortcut(event)]. *)
Definition getShortcut (event : KeyboardEvent) : option jsstring :=
  let shortcut := [] in
  let shortcut := if ctrlKey event then shortcut ++ str "Ctrl+" else shortcut in
  let shortcut := if altKey event then shortcut ++ str "Alt+" else shortcut in
  let shortcut := if shiftKey event then shortcut ++ str "Shift+" else shortcut in
  let shortcut := if metaKey event then shortcut ++ str "Meta+" else shortcut in
  let shortcut := shortcut ++ code event in
  truthyProperty shortcuts shortcut.

End Keyboard.
Import Keyboard.

(* ================================================================== *)
(** * [App]: the calculator and the history behind the buttons *)

Module Application.
Import JsNumber.

(** What [getDisplayState()] returns. *)
Record DisplayState : Type := {
  d_expression : jsstring;
  d_result : jsstring
}.

Definition getDisplayState (c : Calculator) : DisplayState :=
  let result := str "0" in
  let result :=
    if JsString.truthy (Calc.result c) then Calc.result c
    else
      match lastResult c with
      | Some r => numberToString r
      | None => result
      end in
  {| d_expression :=
       if JsString.truthy (expression c) then expression c else str "0";
     d_result := result |}.

(** The fields of [App] that the button handlers read and write. *)
Record App : Type := {
  calculator : Calculator;
  historyManager : list HistoryItem
}.

(** What a click hands to the [UIManager]: a display state for
    [updateDisplay], or a message for [showError]. *)
Inductive Shown : Type :=
| Display (state : DisplayState)
| Error (message : jsstring).

Section Host.
Variable runFunction : jsstring -> outcome float.
Variable Math_random : float.

(** [handleButtonClick(action)].  [newId] and [now] are the identifier
    and the time stamp a new history entry would get. *)
Definition handleButtonClick (newId : float) (now : jsstring)
           (action : jsstring) (app : App) : App * Shown :=
  match handleAction runFunction Math_random action (calculator app) with
  | (c, Return result) =>
      let history :=
        match result with
        | Some r =>
            if JsString.truthy (er_expression r) then
              addToHistory newId now (er_expression r) (er_result r)
                (historyManager app)
            else historyManager app
        | None => historyManager app
        end in
      ({| calculator := c; historyManager := history |},
       Display (getDisplayState c))
  | (c, Throw message) =>
      ({| calculator := c; historyManager := historyManager app |},
       Error message)
  end.

(** [handleKeyboardInput(event)]: the two toggles do not reach the
    calculator, every other action goes the way of a button click; a key
    without action shows nothing.  (The debugging shortcuts at the end of
    the handler touch neither the calculator nor the history.) *)
Definition handleKeyboardInput (newId : float) (now : jsstring)
           (event : KeyboardEvent) (app : App) : App * option Shown :=
  match getAction (key event) with
  | Some action =>
      if eqs action (str "history-toggle") then (app, None)
      else if eqs action (str "theme-toggle") then (app, None)
      else
        let after := handleButtonClick newId now action app in
        (fst after, Some (snd after))
  | None => (app, None)
  end.

(** The listeners [setupEventListeners] installs on the history panel:
    the clear button, and a click on an entry, which carries the entry's
    expression. *)
Definition onHistoryClear (app : App) : App :=
  {| calculator := calculator app;
     historyManager := clearHistory (historyManager app) |}.

Definition onHistoryItemClick (expression : jsstring) (app : App) : App :=
  if JsString.truthy expression then
    {| calculator := setExpression expression (calculator app);
       historyManager := historyManager app |}
  else app.

(** What the user does. *)
Inductive Event : Type :=
| Button (newId : float) (now : jsstring) (action : jsstring)
| KeyDown (newId : float) (now : jsstring) (event : KeyboardEvent)
| HistoryClear
| HistoryItemClick (expression : jsstring).

Definition handle (app : App) (event : Event) : App :=
  match event with
  | Button newId now action => fst (handleButtonClick newId now action app)
  | KeyDown newId now event => fst (handleKeyboardInput newId now event app)
  | HistoryClear => onHistoryClear app
  | HistoryItemClick expression => onHistoryItemClick expression app
  end.

Definition run (events : list Event) (app : App) : App :=
  fold_left handle events app.

End Host.

(** [new App()] when [loadHistory] finds the list [stored]. *)
Definition start (stored : list HistoryItem) : App :=
  {| calculator := init new; historyManager := stored |}.

End Application.
Import Application.

(* ================================================================== *)
(** * Notions used to state further properties *)

Module Checks.
Import JsNumber Factorial.
Open Scope float_scope.

(** Equality of the IEEE 754 data of two Numbers. *)
Definition sameKind (a b : spec_float) : bool :=
  match a, b with
  | S754_zero s, S754_zero t => Bool.eqb s t
  | S754_infinity s, S754_infinity t => Bool.eqb s t
  | S754_nan, S754_nan => true
  | S754_finite s m e, S754_finite t m' e' =>
      Bool.eqb s t && Pos.eqb m m' && Z.eqb e e'
  | _, _ => false
  end.

Definition sameNumber (x y : float) : bool := sameKind (Prim2SF x) (Prim2SF y).

(** The Numbers with mantissa [q * 2^j] and exponent [-j], for the [len]
    integers [q] from [lo] on, are the integers [q]. *)
Definition integersAt (j : Z) (lo : nat) (len : nat) : bool :=
  forallb (fun q =>
      sameNumber (SF2Prim (S754_finite false (Z.to_pos (2 ^ j * Z.of_nat q)) (- j)))
                 (ofNat q))
    (seq lo len).

(** The integers [lo], ..., [lo + len - 1] are in the domain of [factorial]. *)
Definition integersInDomain (lo len : nat) : bool :=
  forallb (fun k => in_domain (ofNat k)) (seq lo len).

(** The products of the loop for [lo], ..., [lo + len - 1] are finite and
    at least 1. *)
Definition productsFinite (lo len : nat) : bool :=
  forallb (fun k => isFinite (iterative_product k) && (1 <=? iterative_product k))
    (seq lo len).

(** How often the character [c] occurs in [s]. *)
Definition occurrences (c : char) (s : jsstring) : nat :=
  List.length (filter (N.eqb c) s).

(** What [normalizeOperators] makes of one character. *)
Definition asciiOperator (c : char) : jsstring :=
  if N.eqb c 94 then str "**"
  else if N.eqb c MULTIPLICATION_SIGN then str "*"
  else if N.eqb c DIVISION_SIGN then str "/"
  else if N.eqb c MINUS_SIGN then str "-"
  else [c].

(** [^], the multiplication sign, the division sign and the minus sign. *)
Definition isGlyph (c : char) : bool :=
  N.eqb c 94 || N.eqb c MULTIPLICATION_SIGN || N.eqb c DIVISION_SIGN
  || N.eqb c MINUS_SIGN.

(** The names a plain object inherits from [Object.prototype]: on them a
    property read of an object literal finds a member of the prototype. *)
Definition inheritedNames : list jsstring :=
  map str
    [ "constructor"; "hasOwnProperty"; "isPrototypeOf";
      "propertyIsEnumerable"; "toLocaleString"; "toString"; "valueOf";
      "__proto__"; "__defineGetter__"; "__defineSetter__";
      "__lookupGetter__"; "__lookupSetter__" ]%string.

Definition inherited (name : jsstring) : bool :=
  existsb (eqs name) inheritedNames.

(** Where the message of an error of [evaluate] comes from: the
    rewriting of function calls, validation, the evaluation sink run on a
    validated text, or the tests [evaluate] makes on the value the sink
    returned. *)
Inductive ErrorSource (runFunction : jsstring -> outcome float)
  : jsstring -> Prop :=
| from_factorial (message : jsstring) :
    FactorialDomainError message = true ->
    ErrorSource runFunction message
| from_arguments (name : jsstring) :
    In name functions ->
    ErrorSource runFunction (str "Invalid arguments for " ++ name)
| from_validation :
    ErrorSource runFunction (str "Invalid expression")
| from_sink (text message : jsstring) :
    isValidExpression text = true ->
    runFunction text = Throw message ->
    ErrorSource runFunction message
| from_result (text : jsstring) (result : float) (message : jsstring) :
    isValidExpression text = true ->
    runFunction text = Return result ->
    classify result = Throw message ->
    ErrorSource runFunction message.

(** No two entries of a history record the same calculation. *)
Fixpoint distinctCalculations (history : list HistoryItem) : bool :=
  match history with
  | [] => true
  | item :: rest =>
      negb (existsb (sameCalculation (h_expression item) (h_result item)) rest)
      && distinctCalculations rest
  end.

(** A history within the size limit, without two entries that
    [addToHistory] takes for the same calculation, and without an entry
    whose expression is empty. *)
Definition wellKept (history : list HistoryItem) : bool :=
  (List.length history <=? maxHistoryItems)%nat
  && distinctCalculations history
  && forallb (fun item => JsString.truthy (h_expression item)) history.



(** The action is one of the named cases of the [switch] in
    [handleAction]. *)
Definition isNamedCase (action : jsstring) : bool :=
  existsb (eqs action)
    (map str [ "clear"; "ce"; "backspace"; "equals"; "ans"; "memory-clear";
               "memory-recall"; "memory-add"; "memory-subtract"; "random";
               "negate" ]%string).

(** [handleAction] has a case for the action: one of the named cases, or
    one of the four tests at the end of the function. *)
Definition hasCase (action : jsstring) : bool :=
  isNamedCase action || isNumber action || isOperator action
  || isFunction action || isConstant action.

(** How many of the cases of [handleAction] the action fits: the named
    ones, and the four tests of the default case. *)
Definition casesFor (action : jsstring) : nat :=
  Nat.b2n (isNamedCase action) + Nat.b2n (isNumber action)
  + Nat.b2n (isOperator action) + Nat.b2n (isFunction action)
  + Nat.b2n (isConstant action).

(** The two actions [handleKeyboardInput] keeps from the calculator. *)
Definition isToggle (action : jsstring) : bool :=
  eqs action (str "history-toggle") || eqs action (str "theme-toggle").

(** The class [[0-9.]] of [appendNumber]. *)
Definition numberChar (c : char) : bool := isDigit c || N.eqb c 46.

(** [pre] is empty or ends with a character that is no digit and no dot:
    a number that follows it starts there. *)
Definition numberStartsAfter (pre : jsstring) : bool :=
  match pre with
  | [] => true
  | _ :: _ => negb (numberChar (last pre 0%N))
  end.

(** The text of the input a piece of a global replace stands for. *)
Definition source (p : piece) : jsstring :=
  match p with
  | Keep c => [c]
  | Hit matched _ => matched
  end.

(** Every character of every function name that is outside the allow-list
    of validation is also in the name of the [Math] method the call is
    rewritten to. *)
Definition namesKeepForbidden : bool :=
  forallb (fun name =>
      forallb (fun ch => allowedChar ch || includes (getMathEquivalent name) ch)
        name)
    functions.

End Checks.
Import Checks.

(* ================================================================== *)
(** * Properties of [factorial] *)

Module FactorialFacts.
Import JsNumber Factorial.
Open Scope float_scope.

(** ** Comparisons of binary64 values *)

Lemma SFcompare_antisym (a b : spec_float) :
  SFcompare a b = option_map CompOpp (SFcompare b a).
Proof.
  destruct a as [sa|sa| |sa ma ea], b as [sb|sb| |sb mb eb]; simpl;
    try destruct sa; try destruct sb; simpl; try reflexivity.
  - rewrite (Z.compare_antisym ea eb).
    destruct (ea ?= eb)%Z; simpl; try reflexivity.
    fold (Pos.compare mb ma). fold (Pos.compare ma mb).
    rewrite (Pos.compare_antisym mb ma).
    destruct (mb ?= ma)%positive; reflexivity.
  - rewrite (Z.compare_antisym ea eb).
    destruct (ea ?= eb)%Z; simpl; try reflexivity.
    fold (Pos.compare mb ma). fold (Pos.compare ma mb).
    rewrite (Pos.compare_antisym mb ma).
    destruct (mb ?= ma)%positive; reflexivity.
Qed.

Lemma is_nan_Prim2SF (x : float) :
  is_nan x = false -> SFcompare (Prim2SF x) (Prim2SF x) = Some Eq.
Proof.
  unfold is_nan. rewrite eqb_spec. unfold SFeqb.
  destruct (SFcompare (Prim2SF x) (Prim2SF x)) as [[| |]|]; simpl; congruence.
Qed.

Lemma not_nan_compare (x c : float) :
  is_nan x = false -> is_nan c = false ->
  exists o, SFcompare (Prim2SF x) (Prim2SF c) = Some o.
Proof.
  intros Hx Hc. apply is_nan_Prim2SF in Hx. apply is_nan_Prim2SF in Hc.
  destruct (Prim2SF x) as [sx|sx| |sx mx ex], (Prim2SF c) as [sc|sc| |sc mc ec];
    simpl in *; try discriminate; eauto.
Qed.

(** On Numbers that are not NaN, [c < x] is the negation of [x <= c]. *)
Lemma ltb_negb_leb (c x : float) :
  is_nan x = false -> is_nan c = false -> (c <? x) = negb (x <=? c).
Proof.
  intros Hx Hc. rewrite ltb_spec, leb_spec. unfold SFltb, SFleb.
  destruct (not_nan_compare x c Hx Hc) as [o Ho].
  rewrite (SFcompare_antisym (Prim2SF c) (Prim2SF x)), Ho.
  destruct o; reflexivity.
Qed.

Lemma is_finite_not_nan (x : float) : is_finite x = true -> is_nan x = false.
Proof.
  unfold is_finite. destruct (is_nan x); simpl; congruence.
Qed.

(** ** The loop is bounded by the guard [num > 170] *)

Lemma above_bound (num : float) :
  (170 <? num) = false -> (171 <=? num) = false.
Proof.
  rewrite ltb_spec, leb_spec. unfold SFltb, SFleb.
  set (a := Prim2SF 170). vm_compute in a. subst a.
  set (b := Prim2SF 171). vm_compute in b. subst b.
  destruct (Prim2SF num) as [s|s| |s m e]; cbn [SFcompare];
    try destruct s; try congruence.
  destruct (-45 ?= e)%Z; intros H; try discriminate H; try reflexivity.
  revert H.
  change (PosDef.Pos.compare_cont Eq 5981343255101440 m)
    with (Pos.compare 5981343255101440 m).
  change (PosDef.Pos.compare_cont Eq 6016527627190272 m)
    with (Pos.compare 6016527627190272 m).
  destruct (Pos.compare_spec 5981343255101440 m) as [E1|E1|E1];
    destruct (Pos.compare_spec 6016527627190272 m) as [E2|E2|E2];
    intros Hc; try discriminate Hc; try reflexivity; exfalso.
  - rewrite <- E1 in E2. vm_compute in E2. discriminate E2.
  - rewrite <- E1 in E2. vm_compute in E2. discriminate E2.
  - rewrite <- E2 in E1. vm_compute in E1. discriminate E1.
  - pose proof (Pos.lt_trans _ _ _ E2 E1) as E. vm_compute in E. discriminate E.
Qed.

Lemma loop_exits_in_bound (num : float) :
  (170 <? num) = false -> loop_exits loop_bound num 2 = true.
Proof.
  intros H. apply above_bound in H. vm_compute. rewrite H.
  repeat match goal with
         | |- (if ?b then _ else _) = _ => destruct b; [ | reflexivity ]
         end.
  reflexivity.
Qed.

Lemma loop_more_steps (k extra : nat) (num i r : float) :
  loop_exits k num i = true -> loop (k + extra) num i r = loop k num i r.
Proof.
  revert i r. induction k as [|k IH]; simpl; intros i r H; [discriminate|].
  destruct (i <=? num); [ apply IH, H | reflexivity ].
Qed.

(** Whatever Number passes the guards, more tests of the loop condition
    than [loop_bound] change nothing: the model's loop is the source's. *)
Lemma factorial_loop_total (num : float) (extra : nat) :
  (170 <? num) = false ->
  loop (loop_bound + extra) num 2 1 = loop loop_bound num 2 1.
Proof.
  intros H. apply loop_more_steps, loop_exits_in_bound, H.
Qed.

(** ** Domain *)

Lemma throws_outside_domain (n : float) :
  in_domain n = false ->
  exists m, factorial n = Throw m /\ FactorialDomainError m = true.
Proof.
  unfold in_domain, factorial, isFinite. intros H.
  destruct (is_finite n) eqn:Hf; simpl in *.
  - pose proof (is_finite_not_nan n Hf) as Hn.
    rewrite (ltb_negb_leb n 0 eq_refl Hn), (ltb_negb_leb 170 n Hn eq_refl).
    destruct (isInteger n); simpl in *.
    + destruct (0 <=? n); simpl in *.
      * rewrite H. simpl. exists too_large. split; reflexivity.
      * exists not_a_natural. split; reflexivity.
    + exists not_a_natural. split; reflexivity.
  - exists not_a_natural. split; reflexivity.
Qed.

Lemma returns_inside_domain (n : float) :
  in_domain n = true -> exists v, factorial n = Return v.
Proof.
  unfold in_domain, factorial, isFinite. intros H.
  apply andb_prop in H. destruct H as [H H170].
  apply andb_prop in H. destruct H as [H H0].
  apply andb_prop in H. destruct H as [Hf Hi].
  pose proof (is_finite_not_nan n Hf) as Hn.
  rewrite (ltb_negb_leb n 0 eq_refl Hn), (ltb_negb_leb 170 n Hn eq_refl).
  rewrite Hf, Hi, H0, H170. simpl.
  destruct (n <=? 1); eauto.
Qed.

Lemma one_at_most_one (n : float) :
  in_domain n = true -> (n <=? 1) = true -> factorial n = Return 1.
Proof.
  unfold in_domain, factorial, isFinite. intros H H1.
  apply andb_prop in H. destruct H as [H H170].
  apply andb_prop in H. destruct H as [H H0].
  apply andb_prop in H. destruct H as [Hf Hi].
  pose proof (is_finite_not_nan n Hf) as Hn.
  rewrite (ltb_negb_leb n 0 eq_refl Hn), (ltb_negb_leb 170 n Hn eq_refl).
  rewrite Hf, Hi, H0, H170, H1. reflexivity.
Qed.

Lemma product_up_to (k : nat) :
  (2 <= k <= 170)%nat -> factorial (ofNat k) = Return (iterative_product k).
Proof.
  intros [Hlo Hhi].
  destruct k as [|[|k]]; [ lia | lia | ]. clear Hlo.
  do 169 (destruct k as [|k]; [ vm_compute; reflexivity | ]).
  exfalso. do 170 apply le_S_n in Hhi. inversion Hhi.
Qed.

(** C1. [factorial(n)] throws one of its two domain errors unless [n] is
    finite, a mathematical integer and [0 <= n <= 170], and returns a value
    otherwise; it returns [1] when [n <= 1] (so for [0] and [1]); for every
    integer [2 <= k <= 170] it returns the product [2 * 3 * ... * k]
    multiplied up in that order in binary64; [factorial(5)] is [120], and
    [factorial(-1)], [factorial(2.5)], [factorial(171)] throw. *)
Theorem factorial_domain_and_value :
  (forall n, in_domain n = false ->
     exists m, factorial n = Throw m /\ FactorialDomainError m = true)
  /\ (forall n, in_domain n = true -> exists v, factorial n = Return v)
  /\ (forall n, in_domain n = true -> (n <=? 1) = true -> factorial n = Return 1)
  /\ factorial 0 = Return 1 /\ factorial 1 = Return 1
  /\ (forall k, (2 <= k <= 170)%nat ->
        factorial (ofNat k) = Return (iterative_product k))
  /\ factorial 5 = Return 120
  /\ factorial (-1) = Throw not_a_natural
  /\ factorial 2.5 = Throw not_a_natural
  /\ factorial 171 = Throw too_large.
Proof.
  split; [ exact throws_outside_domain | ].
  split; [ exact returns_inside_domain | ].
  split; [ exact one_at_most_one | ].
  split; [ reflexivity | ].
  split; [ reflexivity | ].
  split; [ exact product_up_to | ].
  repeat split; vm_compute; reflexivity.
Qed.

Lemma factorial_domain_and_value_witness :
  in_domain 171 = false
  /\ in_domain 1 = true /\ (1 <=? 1) = true
  /\ factorial (ofNat 6) = Return (iterative_product 6)
  /\ iterative_product 6 = 720.
Proof.
  split; [ reflexivity | ].
  split; [ reflexivity | ].
  split; [ reflexivity | ].
  split; [ | reflexivity ].
  apply factorial_domain_and_value. lia.
Defined.

End FactorialFacts.

(* ================================================================== *)
(** * Properties of the matcher *)

Module RegexFacts.

Lemma search_complete (r : regex) (pre suf : jsstring) :
  forall prev res,
    exec r [] (lastChar prev pre) suf = Some res ->
    search r prev (pre ++ suf) = true.
Proof.
  induction pre as [|c pre IH]; simpl; intros prev res H.
  - destruct suf; simpl; rewrite H; reflexivity.
  - destruct (exec r [] prev (c :: pre ++ suf)); [reflexivity|].
    eapply IH, H.
Qed.

Lemma search_sound (r : regex) (s : jsstring) :
  forall prev,
    search r prev s = true ->
    exists pre suf res,
      s = pre ++ suf /\ exec r [] (lastChar prev pre) suf = Some res.
Proof.
  induction s as [|c s IH]; simpl; intros prev H.
  - destruct (exec r [] prev []) as [res|] eqn:E; [|discriminate].
    exists [], [], res. split; [reflexivity | exact E].
  - destruct (exec r [] prev (c :: s)) as [res|] eqn:E.
    + exists [], (c :: s), res. split; [reflexivity | exact E].
    + destruct (IH (Some c) H) as (pre & suf & res & Hs & Hx).
      exists (c :: pre), suf, res. split; [simpl; congruence | exact Hx].
Qed.

Lemma greedy_succeeds (X : Type) (p : char -> bool)
      (k : jsstring -> option char -> jsstring -> option X) :
  (forall run prev s, k run prev s <> None) ->
  forall s min run prev,
    leading p min s = true -> greedy p k min run prev s <> None.
Proof.
  intros Hk. induction s as [|c s IH]; intros min run prev H.
  - destruct min; simpl in *; [apply Hk | discriminate].
  - simpl. destruct (p c) eqn:Hp.
    + assert (Hrec : leading p (pred min) s = true).
      { destruct min; simpl in *; [reflexivity|].
        rewrite Hp in H. exact H. }
      specialize (IH (pred min) (c :: run) (Some c) Hrec).
      destruct (greedy p k (pred min) (c :: run) (Some c) s); congruence.
    + destruct min; simpl in H; [apply Hk|].
      rewrite Hp in H. discriminate.
Qed.

End RegexFacts.

(* ================================================================== *)
(** * Properties of validation and of [evaluate] *)

Module EvaluateFacts.
Import RegexFacts JsNumber.
Open Scope float_scope.

Lemma rejects_operator_run (s : jsstring) :
  hasOperatorRun s -> isValidExpression s = false.
Proof.
  intros (pre & a & b & c & post & -> & Ha & Hb & Hc).
  assert (H : test operatorRun (pre ++ a :: b :: c :: post) = true).
  { unfold test, operatorRun.
    destruct (exec [Group arithOp 3] [] (lastChar None pre) (a :: b :: c :: post))
      as [res|] eqn:E.
    - eapply search_complete, E.
    - exfalso. revert E. cbn [exec]. apply greedy_succeeds.
      + intros; discriminate.
      + simpl. rewrite Ha, Hb, Hc. reflexivity. }
  unfold isValidExpression. rewrite H.
  destruct (hasBalancedParentheses _); simpl; [|reflexivity].
  destruct (test validPattern _); reflexivity.
Qed.

Lemma power_found (s : jsstring) :
  test powerOperator s = true -> hasPowerOperator s.
Proof.
  intros H. apply search_sound in H.
  destruct H as (pre & suf & res & -> & E).
  exists pre. unfold powerOperator in E. cbn [exec] in E.
  destruct suf as [|x [|y post]].
  - discriminate.
  - destruct (N.eqb x 42); discriminate.
  - destruct (N.eqb x 42) eqn:Hx; [|discriminate].
    destruct (N.eqb y 42) eqn:Hy; [|discriminate].
    apply N.eqb_eq in Hx, Hy. subst. exists post. reflexivity.
Qed.

Lemma rejects_operator_pair (s : jsstring) :
  hasOperatorThen (oneOf (str "+*/")) s -> ~ hasPowerOperator s ->
  isValidExpression s = false.
Proof.
  intros (pre & a & b & post & -> & Ha & Hb) Hno.
  assert (H : test operatorPair (pre ++ a :: b :: post) = true).
  { unfold test, operatorPair.
    eapply search_complete with (res := ([], post)).
    cbn [exec]. rewrite Ha, Hb. reflexivity. }
  assert (Hp : test powerOperator (pre ++ a :: b :: post) = false).
  { destruct (test powerOperator _) eqn:E; [|reflexivity].
    exfalso. apply Hno, power_found, E. }
  unfold isValidExpression. rewrite H, Hp.
  destruct (hasBalancedParentheses _); simpl; [|reflexivity].
  destruct (test validPattern _); simpl; [|reflexivity].
  destruct (test operatorRun _); reflexivity.
Qed.

Section Host.
Variable runFunction : jsstring -> outcome float.

Lemma evaluate_invalid (c : Calculator) (e p : jsstring) :
  rewrite c e = Return p -> isValidExpression p = false ->
  evaluate runFunction c e = Throw InvalidExpression.
Proof.
  intros Hr Hv. unfold evaluate. rewrite Hr. simpl. rewrite Hv. reflexivity.
Qed.

Lemma evaluate_valid (c : Calculator) (e p : jsstring) (v : float) :
  rewrite c e = Return p -> isValidExpression p = true ->
  runFunction p = Return v ->
  evaluate runFunction c e = rethrow (classify v).
Proof.
  intros Hr Hv Hs. unfold evaluate. rewrite Hr. simpl. rewrite Hv. simpl.
  unfold safeEvaluate.
  assert (Ht : test validPattern p = true).
  { unfold isValidExpression in Hv.
    destruct (hasBalancedParentheses p); simpl in Hv; [|discriminate].
    destruct (test validPattern p); [reflexivity | discriminate]. }
  rewrite Ht. simpl. rewrite Hs. reflexivity.
Qed.
End Host.

(** A text without constants, glyphs or calls is handed on as it is. *)
Lemma rewrite_two_plus_plus_three (c : Calculator) :
  rewrite c (str "2++3") = Return (str "2++3").
Proof.
  destruct c as [ex re lr me ne []]; vm_compute; reflexivity.
Qed.

(** C2 (amended). Validation rejects a rewritten text that contains a run
    of three arithmetic operators; it rejects a text without the power
    digraph in which an arithmetic operator is directly followed by [+],
    [*] or [/]; and [evaluate] fails on ["2++3"] with the invalid-expression
    error. *)
Theorem validation_rejects_operator_sequences :
  (forall s, hasOperatorRun s -> isValidExpression s = false)
  /\ (forall s, hasOperatorThen (oneOf (str "+*/")) s -> ~ hasPowerOperator s ->
        isValidExpression s = false)
  /\ (forall runFunction c,
        evaluate runFunction c (str "2++3") = Throw InvalidExpression).
Proof.
  split; [ exact rejects_operator_run | ].
  split; [ exact rejects_operator_pair | ].
  intros runFunction c.
  apply evaluate_invalid with (p := str "2++3").
  - apply rewrite_two_plus_plus_three.
  - reflexivity.
Qed.

Lemma validation_rejects_operator_sequences_witness :
  isValidExpression (str "1+-*2") = false
  /\ isValidExpression (str "2+/3") = false.
Proof.
  split.
  - apply (proj1 validation_rejects_operator_sequences).
    exists (str "1"), 43%N, 45%N, 42%N, (str "2"). repeat split.
  - apply (proj1 (proj2 validation_rejects_operator_sequences)).
    + exists (str "2"), 43%N, 47%N, (str "3"). repeat split.
    + intros (pre & post & H).
      do 5 (destruct pre as [|? pre]; [ discriminate H | ]).
      discriminate H.
Defined.

(** C2, as stated, fails: in ["2*-3"] the operators [*] and [-] are
    adjacent and are not the power digraph, yet validation accepts the text
    and [evaluate] returns [-6]. *)
Lemma validation_accepts_minus_after_operator :
  hasAdjacentOperators (str "2*-3")
  /\ isValidExpression (str "2*-3") = true
  /\ evaluate (interpret noMethods) new (str "2*-3") = Return (-6).
Proof.
  split; [ | split; vm_compute; reflexivity ].
  exists (str "2"), 42%N, 45%N, (str "3"). repeat split.
Qed.

(** ** Result classification *)

Lemma SFeqb_self (x : spec_float) :
  SFeqb x x = match x with S754_nan => false | _ => true end.
Proof.
  unfold SFeqb. destruct x as [s|s| |s m e]; simpl; try destruct s; try reflexivity.
  - rewrite Z.compare_refl.
    change (PosDef.Pos.compare_cont Eq m m) with (Pos.compare m m).
    rewrite Pos.compare_refl. reflexivity.
  - rewrite Z.compare_refl.
    change (PosDef.Pos.compare_cont Eq m m) with (Pos.compare m m).
    rewrite Pos.compare_refl. reflexivity.
Qed.

Lemma classify_by_kind (v : float) :
  classify v =
  match Prim2SF v with
  | S754_nan => Throw (str "Result is not a number")
  | S754_infinity _ => Throw (str "Result is infinite")
  | S754_zero _ | S754_finite _ _ _ => Return v
  end.
Proof.
  unfold classify, isFinite, isNaN, is_finite, is_nan, is_infinity.
  rewrite !eqb_spec, abs_spec, SFeqb_self.
  set (i := Prim2SF infinity). vm_compute in i. subst i.
  set (i := Prim2SF neg_infinity). vm_compute in i. subst i.
  destruct (Prim2SF v) as [s|s| |s m e]; try destruct s; reflexivity.
Qed.

Lemma isFinite_by_kind (v : float) :
  isFinite v =
  match Prim2SF v with
  | S754_zero _ | S754_finite _ _ _ => true
  | S754_infinity _ | S754_nan => false
  end.
Proof.
  unfold isFinite, is_finite, is_nan, is_infinity.
  rewrite !eqb_spec, abs_spec, SFeqb_self.
  set (i := Prim2SF infinity). vm_compute in i. subst i.
  destruct (Prim2SF v) as [s|s| |s m e]; try destruct s; reflexivity.
Qed.

(** What [evaluate] returns is finite. *)
Lemma evaluate_returns_finite (runFunction : jsstring -> outcome float)
      (c : Calculator) (e : jsstring) (v : float) :
  evaluate runFunction c e = Return v -> isFinite v = true.
Proof.
  unfold evaluate, safeEvaluate.
  destruct (rewrite c e) as [p|m]; cbn [bind rethrow]; [|discriminate].
  destruct (isValidExpression p); cbn [negb]; [|discriminate].
  destruct (test validPattern p); cbn [negb bind]; [|discriminate].
  destruct (runFunction p) as [r|m]; cbn [bind]; [|discriminate].
  rewrite classify_by_kind, (isFinite_by_kind v).
  destruct (Prim2SF r) as [s|s| |s m x] eqn:E; cbn [rethrow]; intros H;
    try discriminate H; inversion H; subst; rewrite E; reflexivity.
Qed.

(** C3. When rewriting and validation pass and the sink returns the Number
    [v], [evaluate] fails with the not-a-number error if [v] is NaN, fails
    with the infinite-result error if [v] is an infinity, and returns [v]
    otherwise; evaluating ["1/0"] fails with the infinite-result error, a
    NonFiniteResult. *)
Theorem evaluate_classifies_result :
  (forall runFunction c e p v,
      rewrite c e = Return p -> isValidExpression p = true ->
      runFunction p = Return v ->
      match Prim2SF v with
      | S754_nan => evaluate runFunction c e = Throw ResultNotANumber
      | S754_infinity _ => evaluate runFunction c e = Throw ResultInfinite
      | S754_zero _ | S754_finite _ _ _ => evaluate runFunction c e = Return v
      end)
  /\ (forall Math c,
        evaluate (interpret Math) c (str "1/0") = Throw ResultInfinite)
  /\ NonFiniteResult ResultInfinite = true
  /\ NonFiniteResult ResultNotANumber = true.
Proof.
  split; [ | split; [ | split; reflexivity ] ].
  - intros runFunction c e p v Hr Hv Hs.
    rewrite (evaluate_valid runFunction c e p v Hr Hv Hs), classify_by_kind.
    destruct (Prim2SF v); reflexivity.
  - intros Math c. destruct c as [ex re lr me ne []]; vm_compute; reflexivity.
Qed.

Lemma evaluate_classifies_result_witness :
  evaluate (interpret noMethods) new (str "0/0") = Throw ResultNotANumber
  /\ evaluate (interpret noMethods) new (str "2+3") = Return 5.
Proof.
  split.
  - exact (proj1 evaluate_classifies_result (interpret noMethods) new
             (str "0/0") (str "0/0") nan eq_refl eq_refl eq_refl).
  - exact (proj1 evaluate_classifies_result (interpret noMethods) new
             (str "2+3") (str "2+3") 5 eq_refl eq_refl eq_refl).
Defined.

(** ** Angle mode *)

Lemma rewrite_inverse_trig (c : Calculator) :
  rewrite c (str "asin(1)") = Return (str "Math.asin(1)")
  /\ rewrite c (str "acos(1)") = Return (str "Math.acos(1)")
  /\ rewrite c (str "atan(1)") = Return (str "Math.atan(1)").
Proof.
  destruct c as [ex re lr me ne []]; repeat split; vm_compute; reflexivity.
Qed.

Lemma evaluate_asin (runFunction : jsstring -> outcome float) (c : Calculator) :
  evaluate runFunction c (str "asin(1)")
  = rethrow (v <- runFunction (str "Math.asin(1)") ;; classify v).
Proof.
  unfold evaluate. rewrite (proj1 (rewrite_inverse_trig c)).
  reflexivity.
Qed.

(** C5 (what the code does). In degree mode the argument of [sin], [cos]
    and [tan] is multiplied by [Math.PI / 180] in the rewritten text, but
    [asin], [acos] and [atan] are rewritten to the bare primitive in either
    mode: evaluating ["asin(1)"] gives whatever the sink gives for
    ["Math.asin(1)"], with no factor [180 / Math.PI]. *)
Theorem degree_mode_skips_inverse_trig :
  forall runFunction c,
    (angleMode c = deg ->
       rewrite c (str "sin(90)") = Return (str "Math.sin((90) * Math.PI / 180)")
       /\ rewrite c (str "cos(0)") = Return (str "Math.cos((0) * Math.PI / 180)")
       /\ rewrite c (str "tan(45)") = Return (str "Math.tan((45) * Math.PI / 180)"))
    /\ (angleMode c = rad ->
       rewrite c (str "sin(pi/2)") = Return (str "Math.sin(3.141592653589793/2)"))
    /\ rewrite c (str "asin(1)") = Return (str "Math.asin(1)")
    /\ rewrite c (str "acos(1)") = Return (str "Math.acos(1)")
    /\ rewrite c (str "atan(1)") = Return (str "Math.atan(1)")
    /\ evaluate runFunction c (str "asin(1)")
       = rethrow (v <- runFunction (str "Math.asin(1)") ;; classify v).
Proof.
  intros runFunction c. split; [ | split ].
  - destruct c as [ex re lr me ne md]; cbn [angleMode]. intros ->.
    repeat split; vm_compute; reflexivity.
  - destruct c as [ex re lr me ne md]; cbn [angleMode]. intros ->.
    vm_compute; reflexivity.
  - destruct (rewrite_inverse_trig c) as (H1 & H2 & H3).
    repeat split; try assumption. apply evaluate_asin.
Qed.

Lemma degree_mode_skips_inverse_trig_witness :
  rewrite (setAngleMode deg new) (str "sin(90)")
  = Return (str "Math.sin((90) * Math.PI / 180)")
  /\ rewrite (setAngleMode deg new) (str "asin(1)")
     = rewrite (setAngleMode rad new) (str "asin(1)").
Proof.
  split.
  - apply (proj1 (degree_mode_skips_inverse_trig (interpret noMethods)
                    (setAngleMode deg new))).
    reflexivity.
  - rewrite (proj1 (proj2 (proj2 (degree_mode_skips_inverse_trig
                                    (interpret noMethods) (setAngleMode deg new))))).
    rewrite (proj1 (proj2 (proj2 (degree_mode_skips_inverse_trig
                                    (interpret noMethods) (setAngleMode rad new))))).
    reflexivity.
Defined.

End EvaluateFacts.

(* ================================================================== *)
(** * Constant substitution works on tokens *)

Module TokenFacts.
Import RegexFacts JsNumber.

(** ** Tokens *)

Lemma lexemes_head (s : jsstring) :
  match lexemes s with
  | Word _ :: _ => startsWord s = true
  | _ => startsWord s = false
  end.
Proof.
  destruct s as [|c t]; simpl; [reflexivity|].
  unfold startsWord. simpl.
  destruct (isWordChar c).
  - destruct (lexemes t) as [|[w|d] r]; reflexivity.
  - reflexivity.
Qed.

Lemma lexemes_text (s : jsstring) : flat_map text (lexemes s) = s.
Proof.
  induction s as [|c t IH]; simpl; [reflexivity|].
  destruct (isWordChar c).
  - destruct (lexemes t) as [|[w|d] r]; simpl in *; congruence.
  - simpl. congruence.
Qed.

Lemma lexemes_wellFormed (s : jsstring) : wellFormed false (lexemes s).
Proof.
  induction s as [|c t IH]; simpl; [exact I|].
  destruct (isWordChar c) eqn:E.
  - destruct (lexemes t) as [|[w|d] r]; simpl in *.
    + repeat split; try discriminate. rewrite E. reflexivity.
    + destruct IH as (_ & Hw & Hall & Hr).
      repeat split; try discriminate; [ rewrite E; exact Hall | exact Hr ].
    + destruct IH as (Hd & Hr).
      repeat split; try discriminate; [ rewrite E; reflexivity | | ]; assumption.
  - simpl. split; assumption.
Qed.

(** A run of word characters is one token. *)
Lemma lexemes_word (w : jsstring) :
  w <> [] -> forallb isWordChar w = true -> lexemes w = [Word w].
Proof.
  induction w as [|c t IH]; [congruence|]. intros _ H. simpl in H.
  apply andb_prop in H. destruct H as [Hc Ht]. simpl. rewrite Hc.
  destruct t as [|d u]; [reflexivity|].
  rewrite IH; [reflexivity | discriminate | exact Ht].
Qed.

Lemma lexemes_sign (c : char) : isWordChar c = false -> lexemes [c] = [Sign c].
Proof. intros H. simpl. rewrite H. reflexivity. Qed.

(** Tokens do not merge across a place where a sign stands on one side. *)
Lemma lexemes_app (u v : jsstring) :
  (u = [] \/ isWordAt (lastChar None u) = false \/ startsWord v = false) ->
  lexemes (u ++ v) = lexemes u ++ lexemes v.
Proof.
  induction u as [|c t IH]; intros H; [reflexivity|].
  simpl. destruct (isWordChar c) eqn:E.
  - destruct t as [|d t'].
    + simpl. destruct H as [H|[H|H]]; [discriminate | simpl in H; congruence | ].
      pose proof (lexemes_head v) as Hv. rewrite H in Hv.
      destruct (lexemes v) as [|[w|x] r]; [reflexivity | discriminate | reflexivity].
    + rewrite IH.
      * pose proof (lexemes_head (d :: t')) as Hh.
        destruct (lexemes (d :: t')) as [|[w|x] r] eqn:El; try reflexivity.
        exfalso. clear - El. simpl in El.
        destruct (isWordChar d); [ destruct (lexemes t') as [|[w|x] r] | ];
          discriminate.
      * right. destruct H as [H|[H|H]]; [discriminate | left | right; exact H].
        simpl in *. exact H.
  - rewrite IH; [reflexivity|].
    destruct t as [|d t']; [left; reflexivity|].
    right. destruct H as [H|[H|H]]; [discriminate | left | right; exact H].
    simpl in *. exact H.
Qed.

Lemma lexemes_flat_map (g : lexeme -> jsstring) :
  (forall c, isWordChar c = false -> g (Sign c) = [c]) ->
  forall ts afterWord,
    wellFormed afterWord ts ->
    lexemes (flat_map g ts) = flat_map (fun t => lexemes (g t)) ts.
Proof.
  intros Hg. induction ts as [|t r IH]; intros afterWord H; [reflexivity|].
  simpl. destruct t as [w|c]; simpl in H.
  - destruct H as (_ & _ & _ & Hr).
    rewrite lexemes_app, (IH true Hr); [reflexivity|].
    right. right. destruct r as [|[w'|d] r']; simpl in *.
    + reflexivity.
    + destruct Hr as (Hr & _). discriminate.
    + destruct Hr as (Hd & _). rewrite (Hg d Hd). exact Hd.
  - destruct H as (Hc & Hr).
    rewrite lexemes_app, (IH false Hr); [reflexivity|].
    right. left. rewrite (Hg c Hc). exact Hc.
Qed.

Lemma flat_map_wellFormed (f g : lexeme -> jsstring) :
  (forall w, w <> [] -> forallb isWordChar w = true -> f (Word w) = g (Word w)) ->
  (forall c, isWordChar c = false -> f (Sign c) = g (Sign c)) ->
  forall ts afterWord,
    wellFormed afterWord ts -> flat_map f ts = flat_map g ts.
Proof.
  intros Hw Hs. induction ts as [|t r IH]; intros afterWord H; [reflexivity|].
  simpl. destruct t as [w|c]; simpl in H.
  - destruct H as (_ & Hne & Hall & Hr).
    rewrite (Hw w Hne Hall), (IH true Hr). reflexivity.
  - destruct H as (Hc & Hr). rewrite (Hs c Hc), (IH false Hr). reflexivity.
Qed.

Lemma flat_map_flat_map (A B C : Type) (f : B -> list C) (g : A -> list B)
      (l : list A) :
  flat_map f (flat_map g l) = flat_map (fun x => flat_map f (g x)) l.
Proof.
  induction l as [|x l IH]; simpl; [reflexivity|].
  rewrite flat_map_app, IH. reflexivity.
Qed.

(** ** The pattern [\bNAME\b] *)

Lemma eqs_eq (a b : jsstring) : eqs a b = true <-> a = b.
Proof.
  revert b. induction a as [|x a IH]; destruct b as [|y b]; simpl;
    try (split; [discriminate | discriminate]); [split; reflexivity|].
  rewrite andb_true_iff, N.eqb_eq, IH. split.
  - intros [-> ->]. reflexivity.
  - intros H. inversion H. split; reflexivity.
Qed.

Lemma startsWith_app (name rest : jsstring) : startsWith (name ++ rest) name = true.
Proof.
  induction name as [|a n IH]; simpl; [reflexivity|].
  rewrite N.eqb_refl. exact IH.
Qed.

Lemma skipn_length_app (name rest : jsstring) :
  skipn (List.length name) (name ++ rest) = rest.
Proof. induction name as [|a n IH]; simpl; [reflexivity | exact IH]. Qed.

Lemma lastChar_word (w : jsstring) :
  w <> [] -> forallb isWordChar w = true ->
  forall prev, isWordAt (lastChar prev w) = true.
Proof.
  induction w as [|c t IH]; [congruence|]. intros _ H prev. simpl in H.
  apply andb_prop in H. destruct H as [Hc Ht]. unfold lastChar. simpl.
  destruct t as [|d u]; [exact Hc|].
  apply (IH ltac:(discriminate) Ht (Some c)).
Qed.

Lemma exec_lit (name : jsstring) (r : regex) (cap : jsstring) :
  forall prev s,
    exec (lit name ++ r) cap prev s
    = if startsWith s name
      then exec r cap (lastChar prev name) (skipn (List.length name) s)
      else None.
Proof.
  induction name as [|a n IH]; intros prev s; [reflexivity|].
  simpl. destruct s as [|x t]; [reflexivity|].
  destruct (N.eqb x a) eqn:E; [|reflexivity].
  apply N.eqb_eq in E. subst x. simpl. apply IH.
Qed.

Lemma exec_wholeWord (name : jsstring) (prev : option char) (s : jsstring) :
  exec (wholeWord name) [] prev s
  = if xorb (isWordAt prev) (startsWord s) && startsWith s name
       && xorb (isWordAt (lastChar prev name))
               (startsWord (skipn (List.length name) s))
    then Some ([], skipn (List.length name) s)
    else None.
Proof.
  unfold wholeWord. cbn [app exec]. fold (startsWord s).
  destruct (xorb (isWordAt prev) (startsWord s)); [|reflexivity].
  rewrite exec_lit. destruct (startsWith s name); [|reflexivity].
  cbn [exec andb].
  fold (startsWord (skipn (List.length name) s)).
  destruct (xorb _ _); reflexivity.
Qed.

(** A word that starts with [name] and is not [name] goes on after it. *)
Lemma longer_word (name : jsstring) :
  forall w rest,
    forallb isWordChar name = true -> forallb isWordChar w = true ->
    startsWord rest = false ->
    startsWith (w ++ rest) name = true -> eqs w name = false ->
    startsWord (skipn (List.length name) (w ++ rest)) = true.
Proof.
  induction name as [|a n IH]; intros w rest Hn Hw Hr Hs He.
  - destruct w as [|b w']; [discriminate|]. simpl in *.
    apply andb_prop in Hw. unfold startsWord. simpl. apply Hw.
  - simpl in Hn. apply andb_prop in Hn. destruct Hn as [Ha Hn].
    destruct w as [|b w']; simpl in *.
    + destruct rest as [|x rest']; [discriminate|].
      apply andb_prop in Hs. destruct Hs as [Hx _].
      apply N.eqb_eq in Hx. subst x. unfold startsWord in Hr. simpl in Hr.
      congruence.
    + apply andb_prop in Hs. destruct Hs as [Hb Hs]. rewrite Hb in He.
      apply andb_prop in Hw. destruct Hw as [_ Hw].
      apply IH; assumption.
Qed.

(** ** The global replace of [\bNAME\b] *)

Lemma render_keep (txt : jsstring) (c : char) (ps : list piece) :
  render txt (Keep c :: ps) = c :: render txt ps.
Proof. reflexivity. Qed.

Lemma render_hit (txt m cap : jsstring) (ps : list piece) :
  render txt (Hit m cap :: ps) = txt ++ render txt ps.
Proof. reflexivity. Qed.

Lemma scan_skip (r : regex) (u rest : jsstring) :
  forall prev,
    scan r (List.length u) prev (u ++ rest) = scan r 0 (lastChar prev u) rest.
Proof.
  induction u as [|c u IH]; intros prev; [reflexivity|].
  simpl. apply IH.
Qed.

Lemma scan_miss (r : regex) (prev : option char) (c : char) (t : jsstring) :
  exec r [] prev (c :: t) = None ->
  scan r 0 prev (c :: t) = Keep c :: scan r 0 (Some c) t.
Proof. intros H. simpl. rewrite H. reflexivity. Qed.

Lemma scan_hit (r : regex) (u rest cap : jsstring) (prev : option char) :
  exec r [] prev (u ++ rest) = Some (cap, rest) -> u <> [] ->
  scan r 0 prev (u ++ rest) = Hit u cap :: scan r 0 (lastChar prev u) rest.
Proof.
  intros H Hu. destruct u as [|c u']; [congruence|].
  change ((c :: u') ++ rest) with (c :: u' ++ rest) in *.
  cbn [scan]. rewrite H.
  replace (List.length (c :: u' ++ rest) - List.length rest)%nat
    with (S (List.length u')) by (cbn [List.length]; rewrite length_app; lia).
  rewrite scan_skip. f_equal.
  change (c :: u' ++ rest) with ((c :: u') ++ rest).
  rewrite firstn_app.
  replace (S (List.length u') - List.length (c :: u'))%nat with 0%nat
    by (cbn [List.length]; lia).
  change (S (List.length u')) with (List.length (c :: u')).
  rewrite firstn_all. cbn [firstn]. rewrite app_nil_r. reflexivity.
Qed.

Section WholeWord.
Variable name : jsstring.
Variable txt : jsstring.
Hypothesis name_not_empty : name <> [].
Hypothesis name_is_word : forallb isWordChar name = true.

Lemma name_starts_word (s : jsstring) :
  startsWith s name = true -> startsWord s = true.
Proof.
  destruct name as [|a n]; [congruence|]. simpl in name_is_word.
  apply andb_prop in name_is_word. destruct name_is_word as [Ha _].
  destruct s as [|x t]; simpl; [discriminate|].
  intros H. apply andb_prop in H. destruct H as [Hx _].
  apply N.eqb_eq in Hx. subst x. exact Ha.
Qed.

(** Inside a word nothing matches: the place before is a word character. *)
Lemma scan_inside_word (u rest : jsstring) :
  forall prev,
    isWordAt prev = true -> forallb isWordChar u = true ->
    render txt (scan (wholeWord name) 0 prev (u ++ rest))
    = u ++ render txt (scan (wholeWord name) 0 (lastChar prev u) rest).
Proof.
  induction u as [|c u IH]; intros prev Hp Hu; [reflexivity|].
  simpl in Hu. apply andb_prop in Hu. destruct Hu as [Hc Hu].
  change ((c :: u) ++ rest) with (c :: u ++ rest).
  rewrite scan_miss.
  - rewrite render_keep. cbn [app]. f_equal.
    apply (IH (Some c)); assumption.
  - rewrite exec_wholeWord. unfold startsWord at 1. cbn [hd_error isWordAt].
    rewrite Hp, Hc. reflexivity.
Qed.

Lemma scan_lexemes :
  forall ts prev,
    wellFormed (isWordAt prev) ts ->
    render txt (scan (wholeWord name) 0 prev (flat_map text ts))
    = flat_map (swap name txt) ts.
Proof.
  induction ts as [|t r IH]; intros prev H.
  - cbn [flat_map scan]. rewrite exec_wholeWord.
    destruct name as [|a n]; [congruence|].
    rewrite andb_false_r. reflexivity.
  - destruct t as [w|c]; cbn [wellFormed] in H.
    + destruct H as (Hp & Hne & Hw & Hr).
      assert (Hrest : startsWord (flat_map text r) = false).
      { destruct r as [|[w'|d] r']; cbn in *.
        - reflexivity.
        - destruct Hr as (Hr & _). discriminate.
        - apply Hr. }
      cbn [flat_map text swap].
      destruct (eqs w name) eqn:E.
      * apply eqs_eq in E. subst w.
        assert (Hx : exec (wholeWord name) [] prev (name ++ flat_map text r)
                     = Some ([], flat_map text r)).
        { rewrite exec_wholeWord, startsWith_app, skipn_length_app.
          rewrite (name_starts_word _ (startsWith_app name _)).
          rewrite Hp, Hrest, (lastChar_word name name_not_empty name_is_word).
          reflexivity. }
        rewrite (scan_hit _ _ _ _ _ Hx name_not_empty).
        rewrite render_hit. f_equal.
        apply IH.
        rewrite (lastChar_word name name_not_empty name_is_word). exact Hr.
      * destruct w as [|c w']; [congruence|].
        pose proof Hw as Hw0. cbn [forallb] in Hw0.
        apply andb_prop in Hw0. destruct Hw0 as [Hc Hw'].
        change ((c :: w') ++ flat_map text r) with (c :: w' ++ flat_map text r).
        rewrite scan_miss.
        -- rewrite render_keep. cbn [app]. f_equal.
           rewrite scan_inside_word; [ | exact Hc | exact Hw' ].
           f_equal. apply IH.
           change (lastChar (Some c) w') with (lastChar prev (c :: w')).
           rewrite (lastChar_word (c :: w') Hne Hw). exact Hr.
        -- rewrite exec_wholeWord.
           destruct (startsWith (c :: w' ++ flat_map text r) name) eqn:Hs;
             [ | rewrite andb_false_r; reflexivity ].
           pose proof (longer_word name (c :: w') (flat_map text r)
                         name_is_word Hw Hrest Hs E) as Hl.
           change ((c :: w') ++ flat_map text r)
             with (c :: w' ++ flat_map text r) in Hl.
           rewrite Hl.
           rewrite (lastChar_word name name_not_empty name_is_word).
           rewrite andb_false_r. reflexivity.
    + destruct H as (Hc & Hr).
      cbn [flat_map text swap app].
      rewrite scan_miss.
      * rewrite render_keep. cbn [app]. f_equal.
        apply IH. cbn [isWordAt]. rewrite Hc. exact Hr.
      * rewrite exec_wholeWord.
        destruct (startsWith (c :: flat_map text r) name) eqn:Hs;
          [ | rewrite andb_false_r; reflexivity ].
        apply name_starts_word in Hs. unfold startsWord in Hs.
        cbn in Hs. congruence.
Qed.

(** The global replace of a whole word replaces the tokens equal to it. *)
Lemma replaceWith_lexemes (s : jsstring) :
  replaceWith (wholeWord name) txt s = flat_map (swap name txt) (lexemes s).
Proof.
  unfold replaceWith. fold (render txt (scan (wholeWord name) 0 None s)).
  rewrite <- (lexemes_text s) at 1.
  apply scan_lexemes. apply lexemes_wellFormed.
Qed.

End WholeWord.

(** ** The four replacements of [evaluate], one after the other *)

Lemma swap_free (name txt : jsstring) (ts : list lexeme) :
  existsb (fun l => match l with Word w => eqs w name | Sign _ => false end) ts
  = false ->
  flat_map (swap name txt) ts = flat_map text ts.
Proof.
  induction ts as [|t r IH]; simpl; [reflexivity|].
  intros H. apply orb_false_elim in H. destruct H as [Ht Hr].
  rewrite (IH Hr). destruct t as [w|c]; simpl; [rewrite Ht|]; reflexivity.
Qed.

Lemma pass_free (name txt t : jsstring) :
  freeOf name t = true -> pass name txt t = t.
Proof.
  unfold freeOf, pass. intros H. apply negb_true_iff in H.
  rewrite (swap_free name txt _ H). apply lexemes_text.
Qed.

Lemma pass_word (name txt w : jsstring) :
  w <> [] -> forallb isWordChar w = true ->
  pass name txt w = if eqs w name then txt else w.
Proof.
  intros Hne Hw. unfold pass. rewrite (lexemes_word w Hne Hw). simpl.
  destruct (eqs w name); apply app_nil_r.
Qed.

Lemma pass_sign (name txt : jsstring) (c : char) :
  isWordChar c = false -> pass name txt [c] = [c].
Proof. intros H. unfold pass. rewrite (lexemes_sign c H). reflexivity. Qed.

Lemma replaceWith_after (name txt : jsstring) (g : lexeme -> jsstring)
      (s : jsstring) :
  name <> [] -> forallb isWordChar name = true ->
  (forall c, isWordChar c = false -> g (Sign c) = [c]) ->
  replaceWith (wholeWord name) txt (flat_map g (lexemes s))
  = flat_map (fun t => pass name txt (g t)) (lexemes s).
Proof.
  intros Hne Hw Hg.
  rewrite (replaceWith_lexemes name txt Hne Hw).
  rewrite (lexemes_flat_map g Hg (lexemes s) false (lexemes_wellFormed s)).
  apply flat_map_flat_map.
Qed.

Lemma constant_texts :
  numberToString (constant (str "pi")) = str "3.141592653589793"
  /\ numberToString (constant (str "e")) = str "2.718281828459045"
  /\ numberToString (constant (str "phi")) = str "1.618033988749895".
Proof. repeat split; vm_compute; reflexivity. Qed.

Lemma numberToString_zero (x : float) :
  is_zero x = true -> numberToString x = str "0".
Proof.
  unfold is_zero. rewrite eqb_spec. unfold numberToString, SFeqb.
  set (z := Prim2SF zero). vm_compute in z. subst z.
  destruct (Prim2SF x) as [s|s| |s m e]; cbn [SFcompare];
    try destruct s; try discriminate; reflexivity.
Qed.

(** [this.lastResult || 0] prints as the last result, or as [0] without
    one, as long as the last result is not NaN. *)
Lemma ans_text (c : Calculator) :
  (forall x, lastResult c = Some x -> isNaN x = false) ->
  numberToString (lastResultOr0 c)
  = numberToString (match lastResult c with Some x => x | None => 0%float end).
Proof.
  intros H. unfold lastResultOr0. destruct (lastResult c) as [x|]; [|reflexivity].
  specialize (H x eq_refl). unfold truthy, isNaN in *. rewrite H.
  rewrite orb_false_r. destruct (is_zero x) eqn:Hz; [|reflexivity].
  cbn [negb]. rewrite (numberToString_zero x Hz). reflexivity.
Qed.

Lemma substituteConstants_lexemes (c : Calculator) (e : jsstring) :
  (forall x, lastResult c = Some x -> isNaN x = false) ->
  substituteConstants c e = substituteTokens c e.
Proof.
  intros Hans. unfold substituteConstants, substituteTokens.
  destruct constant_texts as (Hpi & He & Hphi). rewrite Hpi, He, Hphi.
  rewrite (ans_text c Hans).
  set (ansT := numberToString
                 (match lastResult c with Some x => x | None => 0%float end)).
  rewrite (replaceWith_lexemes (str "pi") _ ltac:(discriminate) eq_refl).
  rewrite (replaceWith_after (str "e") _ _ e ltac:(discriminate) eq_refl)
    by reflexivity.
  rewrite (replaceWith_after (str "phi") _ _ e ltac:(discriminate) eq_refl)
    by (intros x Hx; cbn [swap]; apply pass_sign, Hx).
  rewrite (replaceWith_after (str "ans") _ _ e ltac:(discriminate) eq_refl)
    by (intros x Hx; cbn [swap]; rewrite !pass_sign by exact Hx; reflexivity).
  apply flat_map_wellFormed with (afterWord := false);
    [ | | apply lexemes_wellFormed ].
  - intros w Hne Hw. cbn [swap substituteToken]. unfold constantValue.
    destruct (eqs w (str "pi")) eqn:E1.
    { rewrite !pass_free by reflexivity. reflexivity. }
    rewrite (pass_word (str "e") _ w Hne Hw).
    destruct (eqs w (str "e")) eqn:E2.
    { rewrite !pass_free by reflexivity. reflexivity. }
    rewrite (pass_word (str "phi") _ w Hne Hw).
    destruct (eqs w (str "phi")) eqn:E3.
    { rewrite !pass_free by reflexivity. reflexivity. }
    rewrite (pass_word (str "ans") _ w Hne Hw).
    destruct (eqs w (str "ans")) eqn:E4; reflexivity.
  - intros x Hx. cbn [swap substituteToken]. rewrite !pass_sign by exact Hx.
    reflexivity.
Qed.

(** A word that is no constant name stays, whatever surrounds it. *)
Lemma identifier_kept (c : Calculator) (pre w post : jsstring) :
  w <> [] -> forallb isWordChar w = true -> constantValue c w = None ->
  isWordAt (lastChar None pre) = false -> startsWord post = false ->
  substituteTokens c (pre ++ w ++ post)
  = substituteTokens c pre ++ w ++ substituteTokens c post.
Proof.
  intros Hne Hw Hc Hpre Hpost. unfold substituteTokens.
  rewrite (lexemes_app pre (w ++ post)) by (right; left; exact Hpre).
  rewrite (lexemes_app w post) by (right; right; exact Hpost).
  rewrite !flat_map_app, (lexemes_word w Hne Hw).
  cbn [flat_map substituteToken]. rewrite Hc, app_nil_r. reflexivity.
Qed.

(** C4. Constant substitution in [evaluate] is substitution on tokens: a
    maximal run of word characters that is [pi], [e], [phi] or [ans] is
    replaced by the text of its value ([ans]: the last result, or [0]
    without one), and every other token is kept.  So a word that is none
    of the four names is never touched, whatever it contains: the [e] of
    ["exp("] stays. *)
Theorem constants_are_substituted_by_token :
  forall c,
    (forall x, lastResult c = Some x -> isNaN x = false) ->
    (forall e, substituteConstants c e = substituteTokens c e)
    /\ (forall pre w post,
          w <> [] -> forallb isWordChar w = true -> constantValue c w = None ->
          isWordAt (lastChar None pre) = false -> startsWord post = false ->
          substituteConstants c (pre ++ w ++ post)
          = substituteConstants c pre ++ w ++ substituteConstants c post)
    /\ substituteConstants c (str "exp(e)") = str "exp(2.718281828459045)"
    /\ (lastResult c = None -> substituteConstants c (str "ans+1") = str "0+1").
Proof.
  intros c Hans. split; [ | split; [ | split ] ].
  - intros e. apply substituteConstants_lexemes, Hans.
  - intros pre w post Hne Hw Hc Hpre Hpost.
    rewrite !(substituteConstants_lexemes c) by exact Hans.
    apply identifier_kept; assumption.
  - rewrite (substituteConstants_lexemes c _ Hans). reflexivity.
  - intros Hnone. rewrite (substituteConstants_lexemes c _ Hans).
    unfold substituteTokens.
    change (lexemes (str "ans+1"))
      with [Word (str "ans"); Sign 43%N; Word (str "1")].
    cbn [flat_map substituteToken].
    change (constantValue c (str "ans"))
      with (Some (match lastResult c with Some x => x | None => 0%float end)).
    rewrite Hnone. reflexivity.
Qed.

Lemma constants_are_substituted_by_token_witness :
  substituteConstants new (str "2*pi+exp(e)-ans")
  = substituteTokens new (str "2*pi+exp(e)-ans")
  /\ substituteConstants new (str "(exp)")
     = substituteConstants new (str "(") ++ str "exp"
       ++ substituteConstants new (str ")")
  /\ substituteConstants new (str "ans+1") = str "0+1".
Proof.
  assert (H : forall x, lastResult new = Some x -> isNaN x = false)
    by (intros x Hx; discriminate Hx).
  split; [ | split ].
  - apply (proj1 (constants_are_substituted_by_token new H)).
  - apply (proj1 (proj2 (constants_are_substituted_by_token new H))
             (str "(") (str "exp") (str ")")); try reflexivity.
    discriminate.
  - apply (proj2 (proj2 (proj2 (constants_are_substituted_by_token new H)))).
    reflexivity.
Defined.

End TokenFacts.
(* ================================================================== *)
(** * Properties of the keystroke state machine *)

Module StateFacts.
Import JsNumber.
Open Scope float_scope.

Lemma updateDisplay_expression (c : Calculator) :
  expression (updateDisplay c) = expression c.
Proof. unfold updateDisplay. destruct (noLastResult c); reflexivity. Qed.

Lemma updateDisplay_isNewExpression (c : Calculator) :
  isNewExpression (updateDisplay c) = isNewExpression c.
Proof. unfold updateDisplay. destruct (noLastResult c); reflexivity. Qed.

Lemma updateDisplay_lastResult (c : Calculator) :
  lastResult (updateDisplay c) = lastResult c.
Proof. unfold updateDisplay. destruct (noLastResult c); reflexivity. Qed.

(** ** [calculate] *)

Section Host.
Variable runFunction : jsstring -> outcome float.
Variable Math_random : float.

Lemma equals_is_calculate (c : Calculator) :
  handleAction runFunction Math_random (str "equals") c
  = calculate runFunction c.
Proof. reflexivity. Qed.

(** [calculate] by cases on the buffer and on what [evaluate] does. *)
Lemma calculate_cases (c : Calculator) :
  calculate runFunction c =
  match expression c with
  | [] => (c, Return None)
  | _ :: _ =>
      match evaluate runFunction c (expression c) with
      | Return v =>
          let c' :=
            set_isNewExpression true
              (set_result (numberToString v) (set_lastResult (Some v) c)) in
          (c', Return (Some {| er_expression := expression c';
                               er_result := v |}))
      | Throw e => (c, Throw e)
      end
  end.
Proof. unfold calculate. destruct (expression c); reflexivity. Qed.

Lemma calculate_throws (c : Calculator) (e : jsstring) :
  expression c <> [] ->
  evaluate runFunction c (expression c) = Throw e ->
  calculate runFunction c = (c, Throw e).
Proof.
  intros Hne He. rewrite calculate_cases, He.
  destruct (expression c); [congruence | reflexivity].
Qed.

Lemma calculate_keeps_expression (c : Calculator) :
  expression (fst (calculate runFunction c)) = expression c.
Proof.
  rewrite calculate_cases.
  destruct (expression c) as [|x s] eqn:Hx; [ exact Hx | ].
  destruct (evaluate runFunction c (x :: s)); cbn; exact Hx.
Qed.

Lemma calculate_returned (c c' : Calculator) (r : EvaluationResult) :
  calculate runFunction c = (c', Return (Some r)) ->
  isNewExpression c' = true /\ expression c' = expression c
  /\ lastResult c' = Some (er_result r)
  /\ evaluate runFunction c (expression c) = Return (er_result r).
Proof.
  rewrite calculate_cases.
  destruct (evaluate runFunction c (expression c)) as [v|m];
    destruct (expression c) as [|x s] eqn:Hx; intros H; try discriminate H;
    inversion H; subst; cbn; repeat split; assumption.
Qed.
End Host.

(** C10. With an empty buffer, [calculate] returns [null] and leaves the
    instance as it was, whatever the evaluation sink would do: the result
    does not depend on it. *)
Theorem calculate_on_empty_buffer :
  forall runFunction Math_random c,
    expression c = [] ->
    calculate runFunction c = (c, Return None)
    /\ handleAction runFunction Math_random (str "equals") c = (c, Return None).
Proof.
  intros runFunction Math_random c H.
  rewrite equals_is_calculate, calculate_cases, H. split; reflexivity.
Qed.

Lemma calculate_on_empty_buffer_witness :
  calculate (fun _ => Throw (str "never called")) new = (new, Return None)
  /\ handleAction (fun _ => Throw (str "never called")) 0 (str "equals") new
     = (new, Return None).
Proof.
  exact (calculate_on_empty_buffer (fun _ => Throw (str "never called")) 0
           new eq_refl).
Defined.

(** C6. When [evaluate] throws on the buffer, which is not empty, the
    [equals] action throws the same error and leaves the instance, its
    expression buffer included, as it was.  And whatever the [equals] action
    does, the expression buffer afterwards is the buffer before. *)
Theorem equals_failure_leaves_buffer :
  forall runFunction Math_random c,
    (forall e, expression c <> [] ->
               evaluate runFunction c (expression c) = Throw e ->
               handleAction runFunction Math_random (str "equals") c
               = (c, Throw e))
    /\ expression (fst (handleAction runFunction Math_random (str "equals") c))
       = expression c.
Proof.
  intros runFunction Math_random c. split.
  - intros e Hne He. rewrite equals_is_calculate.
    apply calculate_throws; assumption.
  - rewrite equals_is_calculate. apply calculate_keeps_expression.
Qed.

Lemma equals_failure_leaves_buffer_witness :
  handleAction (interpret noMethods) 0 (str "equals")
    (setExpression (str "2++3") (init new))
  = (setExpression (str "2++3") (init new), Throw InvalidExpression).
Proof.
  apply (proj1 (equals_failure_leaves_buffer (interpret noMethods) 0
                  (setExpression (str "2++3") (init new)))).
  - discriminate.
  - vm_compute. reflexivity.
Defined.

(** ** The last result of a reachable instance is a finite Number *)

Lemma appendNumber_lastResult (n : jsstring) (c : Calculator) :
  lastResult (appendNumber n c) = lastResult c.
Proof.
  unfold appendNumber. destruct (isNewExpression c); [reflexivity|].
  destruct (_ && _); [reflexivity|]. destruct (_ && _); reflexivity.
Qed.

Lemma appendOperator_lastResult (o : jsstring) (c : Calculator) :
  lastResult (appendOperator o c) = lastResult c.
Proof.
  unfold appendOperator.
  destruct (isNewExpression c); destruct (lastResult c) eqn:E; try reflexivity;
    cbn [lastResult set_expression set_isNewExpression set_result];
    exact E.
Qed.

Lemma appendFunction_lastResult (f : jsstring) (c : Calculator) :
  lastResult (appendFunction f c) = lastResult c.
Proof.
  unfold appendFunction. destruct (isNewExpression c);
    destruct (needsMultiplication _); reflexivity.
Qed.

Lemma appendConstant_lastResult (k : jsstring) (c : Calculator) :
  lastResult (appendConstant k c) = lastResult c.
Proof.
  unfold appendConstant. destruct (isNewExpression c);
    destruct (needsMultiplication _); reflexivity.
Qed.

Lemma clear_lastResult (c : Calculator) : lastResult (clear c) = None.
Proof. unfold clear. rewrite updateDisplay_lastResult. reflexivity. Qed.

Lemma backspace_lastResult (c : Calculator) :
  lastResult (backspace c) = lastResult c.
Proof.
  unfold backspace. destruct (_ <? _)%nat; [|reflexivity].
  rewrite updateDisplay_lastResult. reflexivity.
Qed.

Lemma negate_lastResult (c : Calculator) :
  lastResult (negate c) = lastResult c.
Proof.
  unfold negate. destruct (JsString.truthy _); [destruct (startsWith _ _)|];
    try reflexivity.
  destruct (lastResult c) eqn:E; [|exact E].
  cbn [lastResult set_expression set_isNewExpression]. exact E.
Qed.

Lemma calculate_lastResult (runFunction : jsstring -> outcome float)
      (c : Calculator) :
  lastResultFinite c -> lastResultFinite (fst (calculate runFunction c)).
Proof.
  intros H. rewrite calculate_cases.
  destruct (expression c); [exact H|].
  destruct (evaluate runFunction c _) as [v|m] eqn:E; [|exact H].
  intros x Hx. cbn in Hx. inversion Hx; subst.
  apply (EvaluateFacts.evaluate_returns_finite runFunction c _ _ E).
Qed.

Lemma clearEntry_lastResult (c : Calculator) :
  lastResult (clearEntry c) = None \/ lastResult (clearEntry c) = lastResult c.
Proof.
  unfold clearEntry. destruct (isNewExpression c).
  - left. apply clear_lastResult.
  - right. rewrite updateDisplay_lastResult. reflexivity.
Qed.

Ltac keeps_lastResult H :=
  cbn [fst]; intros x; rewrite updateDisplay_lastResult;
  rewrite ?backspace_lastResult, ?negate_lastResult, ?appendNumber_lastResult,
    ?appendOperator_lastResult, ?appendFunction_lastResult,
    ?appendConstant_lastResult;
  try (rewrite clear_lastResult; discriminate);
  apply H.

Ltac on_action name tac :=
  destruct (eqs _ name); [ cbv iota; tac | cbv iota ].

Lemma handleAction_lastResult (runFunction : jsstring -> outcome float)
      (random : float) (action : jsstring) (c : Calculator) :
  lastResultFinite c ->
  lastResultFinite (fst (handleAction runFunction random action c)).
Proof.
  intros H. unfold handleAction. cbv zeta.
  on_action (str "clear") ltac:(keeps_lastResult H).
  on_action (str "ce") ltac:(idtac).
  { cbn [fst]. intros x. rewrite updateDisplay_lastResult.
    destruct (clearEntry_lastResult c) as [E|E]; rewrite E;
      [discriminate | apply H]. }
  on_action (str "backspace") ltac:(keeps_lastResult H).
  on_action (str "equals") ltac:(apply calculate_lastResult, H).
  on_action (str "ans") ltac:(idtac).
  { destruct (lastResult c) eqn:E; keeps_lastResult H. }
  on_action (str "memory-clear") ltac:(keeps_lastResult H).
  on_action (str "memory-recall") ltac:(keeps_lastResult H).
  on_action (str "memory-add") ltac:(keeps_lastResult H).
  on_action (str "memory-subtract") ltac:(keeps_lastResult H).
  on_action (str "random") ltac:(keeps_lastResult H).
  on_action (str "negate") ltac:(keeps_lastResult H).
  destruct (isNumber action); [keeps_lastResult H|].
  destruct (isOperator action); [keeps_lastResult H|].
  destruct (isFunction action); [keeps_lastResult H|].
  destruct (isConstant action); keeps_lastResult H.
Qed.

(** Every reachable instance has no last result or a finite one, so its
    last result is never NaN. *)
Lemma reachable_lastResult (runFunction : jsstring -> outcome float)
      (c : Calculator) :
  reachable runFunction c -> lastResultFinite c.
Proof.
  induction 1 as [|random action c _ IH|ex c _ IH|mode c _ IH].
  - intros x Hx. discriminate Hx.
  - apply handleAction_lastResult, IH.
  - intros x. unfold setExpression. rewrite updateDisplay_lastResult. apply IH.
  - exact IH.
Qed.

Lemma reachable_not_NaN (runFunction : jsstring -> outcome float)
      (c : Calculator) :
  reachable runFunction c ->
  forall x, lastResult c = Some x -> isNaN x = false.
Proof.
  intros Hr x Hx. pose proof (reachable_lastResult runFunction c Hr x Hx) as Hf.
  unfold isFinite, is_finite in Hf. unfold isNaN.
  destruct (is_nan x); [discriminate Hf | reflexivity].
Qed.

(** ** Digits after [equals] *)

Lemma search_after_start (r : regex) (s : jsstring) :
  forall c, search (Bol :: r) (Some c) s = false.
Proof.
  induction s as [|x s IH]; intros c; simpl; [reflexivity | apply IH].
Qed.

(** [isNumber] accepts exactly the one-character strings made of a digit or
    a dot. *)
Lemma isNumber_one_char (d : jsstring) :
  isNumber d = true ->
  exists ch, d = [ch] /\ (isDigit ch || N.eqb ch 46) = true.
Proof.
  unfold isNumber, test. destruct d as [|ch [|ch2 t]]; simpl.
  - discriminate.
  - destruct (isDigit ch || N.eqb ch 46) eqn:E; [|discriminate].
    intros _. exists ch. split; [reflexivity | exact E].
  - destruct (isDigit ch || N.eqb ch 46); rewrite search_after_start;
      discriminate.
Qed.

Lemma eqs_one_char (ch : char) (s : jsstring) :
  (2 <=? List.length s)%nat = true -> eqs [ch] s = false.
Proof.
  destruct s as [|x [|y t]]; simpl; try discriminate.
  intros _. apply andb_false_r.
Qed.

Section Host.
Variable runFunction : jsstring -> outcome float.
Variable Math_random : float.

(** A digit or a dot is none of the named actions: it goes to
    [appendNumber], and then to [updateDisplay]. *)
Lemma handleAction_number (d : jsstring) (c : Calculator) :
  isNumber d = true ->
  handleAction runFunction Math_random d c
  = (updateDisplay (appendNumber d c), Return None).
Proof.
  intros Hd. destruct (isNumber_one_char d Hd) as (ch & -> & _).
  unfold handleAction.
  rewrite (eqs_one_char ch (str "clear") eq_refl),
    (eqs_one_char ch (str "ce") eq_refl),
    (eqs_one_char ch (str "backspace") eq_refl),
    (eqs_one_char ch (str "equals") eq_refl),
    (eqs_one_char ch (str "ans") eq_refl),
    (eqs_one_char ch (str "memory-clear") eq_refl),
    (eqs_one_char ch (str "memory-recall") eq_refl),
    (eqs_one_char ch (str "memory-add") eq_refl),
    (eqs_one_char ch (str "memory-subtract") eq_refl),
    (eqs_one_char ch (str "random") eq_refl),
    (eqs_one_char ch (str "negate") eq_refl), Hd.
  reflexivity.
Qed.

Lemma appendNumber_fresh (d : jsstring) (c : Calculator) :
  isNewExpression c = true ->
  expression (appendNumber d c) = d
  /\ isNewExpression (appendNumber d c) = false.
Proof.
  intros H. unfold appendNumber. rewrite H. split; reflexivity.
Qed.
End Host.

(** C9. After a successful [equals] the instance is Fresh
    ([isNewExpression]); a digit or decimal point pressed next replaces the
    buffer by exactly that character and enters Editing: nothing of the old
    buffer is kept. *)
Theorem digit_after_equals_starts_afresh :
  forall runFunction Math_random c c' r,
    handleAction runFunction Math_random (str "equals") c
    = (c', Return (Some r)) ->
    isNewExpression c' = true
    /\ forall d, isNumber d = true ->
         expression (fst (handleAction runFunction Math_random d c')) = d
         /\ isNewExpression (fst (handleAction runFunction Math_random d c'))
            = false.
Proof.
  intros runFunction Math_random c c' r H.
  rewrite equals_is_calculate in H. apply calculate_returned in H.
  destruct H as (Hnew & _). split; [exact Hnew|].
  intros d Hd. rewrite (handleAction_number runFunction Math_random d c' Hd).
  cbn [fst].
  rewrite updateDisplay_expression, updateDisplay_isNewExpression.
  apply appendNumber_fresh, Hnew.
Qed.

Lemma digit_after_equals_starts_afresh_witness :
  isNewExpression afterEquals = true
  /\ expression afterEquals = str "2+3"
  /\ expression (fst (handleAction (interpret noMethods) 0 (str "7") afterEquals))
     = str "7"
  /\ isNewExpression
       (fst (handleAction (interpret noMethods) 0 (str ".") afterEquals))
     = false.
Proof.
  pose proof (digit_after_equals_starts_afresh (interpret noMethods) 0
                (setExpression (str "2+3") (init new)) afterEquals
                {| er_expression := str "2+3"; er_result := 5 |} eq_refl)
    as [Hfresh Hnext].
  split; [exact Hfresh|]. split; [reflexivity|]. split.
  - apply (Hnext (str "7")). reflexivity.
  - apply (Hnext (str ".")). reflexivity.
Defined.

(** ** [backspace] *)

Lemma removelast_snoc (s : jsstring) (x : char) : removelast (s ++ [x]) = s.
Proof. apply removelast_last. Qed.

Lemma backspace_expression (c : Calculator) :
  expression (backspace c) = removelast (expression c).
Proof.
  unfold backspace. destruct (expression c) as [|x s] eqn:E.
  - cbn. exact E.
  - cbn [List.length Nat.ltb Nat.leb]. rewrite updateDisplay_expression.
    reflexivity.
Qed.

Lemma backspace_isNewExpression (c : Calculator) :
  isNewExpression (backspace c) = isNewExpression c.
Proof.
  unfold backspace. destruct (expression c) as [|x s].
  - reflexivity.
  - cbn [List.length Nat.ltb Nat.leb]. rewrite updateDisplay_isNewExpression.
    reflexivity.
Qed.

Lemma handleAction_backspace runFunction Math_random (c : Calculator) :
  handleAction runFunction Math_random (str "backspace") c
  = (updateDisplay (backspace c), Return None).
Proof. reflexivity. Qed.

(** C7 (amended). [backspace] removes the last character of a non-empty
    buffer in either mode, Fresh or Editing, and leaves the mode as it
    was; on an empty buffer it changes nothing.  The same holds of the
    [backspace] action of [handleAction]. *)
Theorem backspace_removes_last_character :
  forall runFunction Math_random c,
    (expression c = [] -> backspace c = c)
    /\ (forall s x, expression c = s ++ [x] ->
          expression (backspace c) = s
          /\ expression
               (fst (handleAction runFunction Math_random (str "backspace") c))
             = s)
    /\ isNewExpression (backspace c) = isNewExpression c
    /\ isNewExpression
         (fst (handleAction runFunction Math_random (str "backspace") c))
       = isNewExpression c.
Proof.
  intros runFunction Math_random c.
  rewrite handleAction_backspace. cbn [fst].
  rewrite updateDisplay_expression, updateDisplay_isNewExpression.
  rewrite backspace_expression, backspace_isNewExpression.
  repeat split.
  - intros H. unfold backspace. rewrite H. reflexivity.
  - rewrite H. apply removelast_snoc.
  - rewrite H. apply removelast_snoc.
Qed.

Lemma backspace_removes_last_character_witness :
  backspace new = new
  /\ expression (backspace (setExpression (str "12") (init new))) = str "1"
  /\ expression (backspace afterEquals) = str "2+".
Proof.
  split; [ | split ].
  - apply (proj1 (backspace_removes_last_character (interpret noMethods) 0 new)).
    reflexivity.
  - apply (proj1 (proj2 (backspace_removes_last_character (interpret noMethods) 0
                           (setExpression (str "12") (init new))))
             (str "1") 50%N).
    reflexivity.
  - apply (proj1 (proj2 (backspace_removes_last_character (interpret noMethods) 0
                           afterEquals))
             (str "2+") 51%N).
    reflexivity.
Defined.

(** C7, as stated, fails: after a successful [equals] the instance is
    Fresh and the buffer still holds ["2+3"]; [backspace] is then no no-op,
    it cuts the buffer to ["2+"]. *)
Lemma backspace_edits_while_fresh :
  isNewExpression afterEquals = true
  /\ expression afterEquals = str "2+3"
  /\ expression (backspace afterEquals) = str "2+"
  /\ expression
       (fst (handleAction (interpret noMethods) 0 (str "backspace") afterEquals))
     = str "2+"
  /\ eqs (expression (backspace afterEquals)) (expression afterEquals) = false.
Proof. repeat split; vm_compute; reflexivity. Qed.

(** ** [negate] *)

Lemma negate_nonempty (c : Calculator) (x : char) (s : jsstring) :
  expression c = x :: s ->
  negate c
  = set_expression (if N.eqb x 45 then s else 45%N :: x :: s) c.
Proof.
  intros H. unfold negate. rewrite H.
  change (startsWith (x :: s) (str "-")) with (N.eqb x 45 && true).
  rewrite andb_true_r. destruct (N.eqb x 45); reflexivity.
Qed.

Lemma negate_twice (c : Calculator) :
  togglesBack (expression c) = true ->
  expression (negate (negate c)) = expression c.
Proof.
  destruct (expression c) as [|x s] eqn:E; cbn; [discriminate|].
  rewrite (negate_nonempty c x s E).
  destruct (N.eqb x 45) eqn:Hx.
  - destruct s as [|y t]; [discriminate|]. intros Hy.
    rewrite (negate_nonempty (set_expression (y :: t) c) y t eq_refl).
    apply negb_true_iff in Hy. rewrite Hy. cbn.
    apply N.eqb_eq in Hx. subst x. reflexivity.
  - intros _.
    rewrite (negate_nonempty (set_expression (45%N :: x :: s) c)
               45%N (x :: s) eq_refl).
    reflexivity.
Qed.

(** C8 (amended). On a non-empty buffer [negate] toggles a leading minus
    sign and keeps the mode; applied twice it gives back the buffer it
    started from whenever that buffer is not the lone sign ["-"] and does
    not start with ["--"] (so for ["5"]); on an empty buffer with a last
    result it sets the buffer to ["-(lastResult)"] and enters Editing. *)
Theorem negate_toggles_leading_minus :
  forall c,
    (forall x s, expression c = x :: s ->
        expression (negate c) = (if N.eqb x 45 then s else 45%N :: x :: s)
        /\ isNewExpression (negate c) = isNewExpression c)
    /\ (togglesBack (expression c) = true ->
        expression (negate (negate c)) = expression c)
    /\ (forall r, expression c = [] -> lastResult c = Some r ->
        expression (negate c) = str "-(" ++ numberToString r ++ str ")"
        /\ isNewExpression (negate c) = false)
    /\ expression (negate (negate (set_expression (str "5") c))) = str "5".
Proof.
  intros c. split; [ | split; [ | split ] ].
  - intros x s H. rewrite (negate_nonempty c x s H). split; reflexivity.
  - apply negate_twice.
  - intros r He Hr. unfold negate. rewrite He, Hr. split; reflexivity.
  - apply (negate_twice (set_expression (str "5") c)). reflexivity.
Qed.

Lemma negate_toggles_leading_minus_witness :
  expression (negate (setExpression (str "-5") (init new))) = str "5"
  /\ expression (negate (negate (setExpression (str "-5") (init new))))
     = str "-5"
  /\ expression (negate afterEquals) = str "-2+3"
  /\ expression (negate (set_expression [] afterEquals)) = str "-(5)".
Proof.
  split; [ | split; [ | split ] ].
  - apply (proj1 (negate_toggles_leading_minus
                    (setExpression (str "-5") (init new))) 45%N (str "5")).
    reflexivity.
  - apply (proj1 (proj2 (negate_toggles_leading_minus
                           (setExpression (str "-5") (init new))))).
    reflexivity.
  - apply (proj1 (negate_toggles_leading_minus afterEquals) 50%N (str "+3")).
    reflexivity.
  - change (str "-(5)") with (str "-(" ++ numberToString 5 ++ str ")").
    apply (proj1 (proj2 (proj2 (negate_toggles_leading_minus
                                  (set_expression [] afterEquals)))) 5);
      reflexivity.
Defined.

(** C8, as stated, fails: the keys [5], [negate], [backspace] leave the
    non-empty buffer ["-"]; [negate] empties it, and a second [negate] on
    the empty buffer without a last result changes nothing, so the buffer
    is [""] and not ["-"]. *)
Lemma negate_twice_loses_lone_minus :
  expression loneMinus = str "-"
  /\ lastResult loneMinus = None
  /\ expression (negate loneMinus) = []
  /\ expression (negate (negate loneMinus)) = []
  /\ eqs (expression (negate (negate loneMinus))) (expression loneMinus) = false.
Proof. repeat split; vm_compute; reflexivity. Qed.

End StateFacts.

(* ================================================================== *)
(** * The Numbers [factorial] accepts *)

Module FactorialDomain.
Import JsNumber Factorial FactorialFacts.
Open Scope float_scope.

Lemma sameKind_eq (a b : spec_float) : sameKind a b = true -> a = b.
Proof.
  destruct a as [s|s| |s m e], b as [t|t| |t m' e']; simpl; try discriminate;
    try (intros H; apply Bool.eqb_prop in H; congruence); [reflexivity|].
  intros H. apply andb_prop in H. destruct H as [H He].
  apply andb_prop in H. destruct H as [Hs Hm].
  apply Bool.eqb_prop in Hs. apply Pos.eqb_eq in Hm. apply Z.eqb_eq in He.
  congruence.
Qed.

Lemma sameNumber_eq (x y : float) : sameNumber x y = true -> x = y.
Proof. intros H. apply Prim2SF_inj, sameKind_eq, H. Qed.

Lemma digits2_bounds (m : positive) :
  (2 ^ (Z.pos (digits2_pos m) - 1) <= Z.pos m < 2 ^ Z.pos (digits2_pos m))%Z.
Proof.
  induction m as [m IH|m IH|]; cbn [digits2_pos].
  - rewrite Pos2Z.inj_succ. change (Z.pos m~1) with (2 * Z.pos m + 1)%Z.
    replace (Z.succ (Z.pos (digits2_pos m)) - 1)%Z
      with (Z.succ (Z.pos (digits2_pos m) - 1)) by lia.
    rewrite !Z.pow_succ_r by lia.
    set (a := (2 ^ (_ - 1))%Z) in *. set (b := (2 ^ Z.pos _)%Z) in *.
    clearbody a b. lia.
  - rewrite Pos2Z.inj_succ. change (Z.pos m~0) with (2 * Z.pos m)%Z.
    replace (Z.succ (Z.pos (digits2_pos m)) - 1)%Z
      with (Z.succ (Z.pos (digits2_pos m) - 1)) by lia.
    rewrite !Z.pow_succ_r by lia.
    set (a := (2 ^ (_ - 1))%Z) in *. set (b := (2 ^ Z.pos _)%Z) in *.
    clearbody a b. lia.
  - simpl. lia.
Qed.

Lemma integers_checked :
  integersAt 51 2 2 = true /\ integersAt 50 4 4 = true
  /\ integersAt 49 8 8 = true /\ integersAt 48 16 16 = true
  /\ integersAt 47 32 32 = true /\ integersAt 46 64 64 = true
  /\ integersAt 45 128 43 = true.
Proof. repeat split; vm_compute; reflexivity. Qed.

Lemma integersAt_sound (j : Z) (lo len q : nat) :
  integersAt j lo len = true -> (lo <= q < lo + len)%nat ->
  SF2Prim (S754_finite false (Z.to_pos (2 ^ j * Z.of_nat q)) (- j)) = ofNat q.
Proof.
  unfold integersAt. rewrite forallb_forall. intros H Hq.
  apply sameNumber_eq, H, in_seq. lia.
Qed.

Lemma integer_of_mantissa (j : Z) (lo len : nat) (m : positive) :
  integersAt j lo len = true -> (0 <= j)%Z ->
  (Z.pos m mod 2 ^ j = 0)%Z ->
  (Z.of_nat lo * 2 ^ j <= Z.pos m < Z.of_nat (lo + len) * 2 ^ j)%Z ->
  exists k, (lo <= k < lo + len)%nat
            /\ SF2Prim (S754_finite false m (- j)) = ofNat k.
Proof.
  intros Hcheck Hj Hmod Hm.
  assert (Hp : (0 < 2 ^ j)%Z) by (apply Z.pow_pos_nonneg; lia).
  set (p := (2 ^ j)%Z) in *.
  assert (Hq : Z.pos m = (p * (Z.pos m / p))%Z)
    by (apply Z.div_exact; [lia | exact Hmod]).
  set (q := (Z.pos m / p)%Z) in *. clearbody q.
  assert (Hlo : (Z.of_nat lo <= q)%Z) by nia.
  assert (Hhi : (q < Z.of_nat (lo + len))%Z) by nia.
  exists (Z.to_nat q). split; [lia|].
  rewrite <- (integersAt_sound j lo len (Z.to_nat q) Hcheck) by lia.
  fold p. rewrite Z2Nat.id by lia. rewrite <- Hq. reflexivity.
Qed.

Lemma compare_cont_Eq (p q : positive) :
  PosDef.Pos.compare_cont Eq p q = Pos.compare p q.
Proof. reflexivity. Qed.

Ltac at_exponent j lo len check :=
  match goal with
  | Hi : (Z.pos ?m mod _ = 0)%Z |- _ =>
      destruct (integer_of_mantissa j lo len m check) as (k & Hk & Heq);
      [ lia
      | exact Hi
      | set (a := (Z.of_nat lo * 2 ^ j)%Z); vm_compute in a; subst a;
        set (b := (Z.of_nat (lo + len) * 2 ^ j)%Z); vm_compute in b; subst b;
        lia
      | exists k; split; [ lia | exact Heq ] ]
  end.

(** A Number above 1 that passes the three guards of [factorial] is one of
    the integers 2, ..., 170. *)
Lemma domain_numbers (n : float) :
  in_domain n = true -> (n <=? 1) = false ->
  exists k, (2 <= k <= 170)%nat /\ n = ofNat k.
Proof.
  unfold in_domain, isInteger. intros H H1.
  apply andb_prop in H; destruct H as [H H170].
  apply andb_prop in H; destruct H as [H H0].
  apply andb_prop in H; destruct H as [_ Hi].
  rewrite leb_spec in H0, H170, H1.
  pose proof (Prim2SF_valid n) as Hv.
  rewrite <- (SF2Prim_Prim2SF n).
  set (c0 := Prim2SF 0) in *; vm_compute in c0; subst c0.
  set (c1 := Prim2SF 1) in *; vm_compute in c1; subst c1.
  set (c2 := Prim2SF 170) in *; vm_compute in c2; subst c2.
  unfold SFleb in *.
  destruct (Prim2SF n) as [s|s| |s m e]; cbn [SFcompare] in *;
    try discriminate.
  destruct s; [discriminate|]. clear H0.
  cbn [valid_binary] in Hv. unfold bounded, canonical_mantissa, fexp, emin in Hv.
  unfold prec, emax in Hv.
  apply andb_prop in Hv. destruct Hv as [Hc _]. apply Z.eqb_eq in Hc.
  rewrite compare_cont_Eq in H170, H1.
  assert (Hm170 : e = (-45)%Z -> (Z.pos m <= 5981343255101440)%Z).
  { intros ->. rewrite Z.compare_refl in H170.
    destruct (Pos.compare_spec m 5981343255101440) as [E|E|E];
      [ | | discriminate H170 ].
    - rewrite E. apply Z.le_refl.
    - apply Z.lt_le_incl. exact E. }
  assert (Hm1 : e = (-52)%Z -> (4503599627370496 < Z.pos m)%Z).
  { intros ->. rewrite Z.compare_refl in H1.
    destruct (Pos.compare_spec m 4503599627370496) as [E|E|E];
      try discriminate H1. exact E. }
  assert (He : (-52 <= e <= -45)%Z).
  { clear - H170 H1.
    destruct (Z.compare_spec e (-45)); destruct (Z.compare_spec e (-52));
      try discriminate; lia. }
  clear H170 H1.
  assert (Hdig : Z.pos (digits2_pos m) = 53%Z) by (clear - Hc He; lia).
  pose proof (digits2_bounds m) as Hd. rewrite Hdig in Hd.
  change (2 ^ (53 - 1))%Z with 4503599627370496%Z in Hd.
  change (2 ^ 53)%Z with 9007199254740992%Z in Hd.
  clear Hc Hdig.
  replace (0 <=? e)%Z with false in Hi
    by (symmetry; apply Z.leb_gt; clear - He; lia).
  cbn [orb] in Hi. apply Z.eqb_eq in Hi.
  destruct integers_checked as (C51 & C50 & C49 & C48 & C47 & C46 & C45).
  assert (Hcases : e = (-52)%Z \/ e = (-51)%Z \/ e = (-50)%Z \/ e = (-49)%Z
                   \/ e = (-48)%Z \/ e = (-47)%Z \/ e = (-46)%Z \/ e = (-45)%Z)
    by (clear - He; lia).
  destruct Hcases as [E|[E|[E|[E|[E|[E|[E|E]]]]]]]; subst e.
  - exfalso. specialize (Hm1 eq_refl).
    apply Z.div_exact in Hi; [ | discriminate ].
    set (p := (2 ^ (- -52))%Z) in *. vm_compute in p. subst p.
    clear - Hi Hm1 Hd. lia.
  - at_exponent 51%Z 2%nat 2%nat C51.
  - at_exponent 50%Z 4%nat 4%nat C50.
  - at_exponent 49%Z 8%nat 8%nat C49.
  - at_exponent 48%Z 16%nat 16%nat C48.
  - at_exponent 47%Z 32%nat 32%nat C47.
  - at_exponent 46%Z 64%nat 64%nat C46.
  - specialize (Hm170 eq_refl). at_exponent 45%Z 128%nat 43%nat C45.
Qed.

Lemma integers_in_domain (k : nat) :
  (k <= 170)%nat -> in_domain (ofNat k) = true.
Proof.
  intros Hk.
  assert (C : integersInDomain 0 171 = true) by (vm_compute; reflexivity).
  unfold integersInDomain in C. rewrite forallb_forall in C.
  apply C, in_seq. lia.
Qed.

Lemma integers_above_one (k : nat) :
  (2 <= k <= 170)%nat -> (ofNat k <=? 1) = false.
Proof.
  intros Hk.
  assert (C : forallb (fun k => negb (ofNat k <=? 1)) (seq 2 169) = true)
    by (vm_compute; reflexivity).
  rewrite forallb_forall in C.
  apply negb_true_iff, C, in_seq. lia.
Qed.

Lemma productsFinite_sound (lo len k : nat) :
  productsFinite lo len = true -> (lo <= k < lo + len)%nat ->
  isFinite (iterative_product k) = true /\ (1 <=? iterative_product k) = true.
Proof.
  unfold productsFinite. rewrite forallb_forall. intros C Hk.
  apply andb_prop, C, in_seq. exact Hk.
Qed.

Lemma products_checked : productsFinite 2 169 = true.
Proof. vm_compute. reflexivity. Qed.

Lemma products_finite (k : nat) :
  (2 <= k <= 170)%nat ->
  isFinite (iterative_product k) = true /\ (1 <=? iterative_product k) = true.
Proof.
  intros Hk. apply (productsFinite_sound 2 169 k products_checked). lia.
Qed.

(** X1. The Numbers above 1 that [factorial] accepts are exactly the
    integers 2, 3, ..., 170, and for each of them it returns the product
    the loop builds. *)
Theorem factorial_accepts_the_integers_to_170 (n : float) :
  (in_domain n = true /\ (n <=? 1) = false)
  <-> (exists k, (2 <= k <= 170)%nat /\ n = ofNat k
                 /\ factorial n = Return (iterative_product k)).
Proof.
  split.
  - intros [Hd H1]. destruct (domain_numbers n Hd H1) as (k & Hk & ->).
    exists k. repeat split; try lia. apply product_up_to. exact Hk.
  - intros (k & Hk & -> & _). split.
    + apply integers_in_domain. lia.
    + apply integers_above_one. exact Hk.
Qed.

(** X2. Whatever [factorial] returns is a finite Number, at least 1: the
    bound of 170 keeps the product below the overflow threshold. *)
Theorem factorial_returns_finite (n r : float) :
  factorial n = Return r ->
  isFinite r = true /\ (1 <=? r) = true.
Proof.
  intros H.
  destruct (in_domain n) eqn:Hd.
  - destruct (n <=? 1) eqn:H1.
    + rewrite (one_at_most_one n Hd H1) in H. injection H as <-.
      split; vm_compute; reflexivity.
    + destruct (domain_numbers n Hd H1) as (k & Hk & ->).
      rewrite (product_up_to k Hk) in H. injection H as <-.
      apply products_finite. exact Hk.
  - destruct (throws_outside_domain n Hd) as (m & Hm & _).
    rewrite Hm in H. discriminate.
Qed.

Lemma factorial_returns_finite_witness :
  factorial 5 = Return 120
  /\ isFinite 120 = true /\ (1 <=? 120) = true.
Proof.
  split; [ vm_compute; reflexivity | ].
  apply (factorial_returns_finite 5 120). vm_compute. reflexivity.
Defined.

End FactorialDomain.

(* ================================================================== *)
(** * Validation and operator normalisation *)

Module ValidationFacts.
Import JsNumber.

(** ** Patterns anchored at both ends *)

Lemma greedy_to_end (p : char -> bool) (cap : jsstring) (s : jsstring) :
  forall (run : jsstring) (prev : option char),
    greedy p (fun _ prev' s' => exec [Eol] cap prev' s') 0 run prev s
    = if forallb p s then Some (cap, []) else None.
Proof.
  induction s as [|c t IH]; intros run prev.
  - reflexivity.
  - cbn [greedy forallb pred]. destruct (p c); cbn [andb].
    + rewrite IH. destruct (forallb p t); reflexivity.
    + reflexivity.
Qed.

Lemma anchored_fails_later (r : regex) (s : jsstring) :
  forall c, search (Bol :: r) (Some c) s = false.
Proof. induction s as [|d t IH]; intros c; cbn; [reflexivity | apply IH]. Qed.

(** [/^[p]*$/.test(s)] holds exactly when every character of [s] is in
    the class. *)
Lemma test_whole (p : char -> bool) (s : jsstring) :
  test [Bol; Many p 0; Eol] s = forallb p s.
Proof.
  unfold test. destruct s as [|c t].
  - reflexivity.
  - cbn [search].
    change (exec [Bol; Many p 0; Eol] [] None (c :: t))
      with (greedy p (fun _ prev' s' => exec [Eol] [] prev' s') 0 [] None (c :: t)).
    rewrite greedy_to_end.
    destruct (forallb p (c :: t)); [reflexivity | apply anchored_fails_later].
Qed.

(** ** Parentheses *)

Lemma occurrences_cons (c x : char) (s : jsstring) :
  occurrences c (x :: s)
  = ((if N.eqb c x then 1 else 0) + occurrences c s)%nat.
Proof. unfold occurrences. cbn [filter]. destruct (N.eqb c x); reflexivity. Qed.

Lemma balancedFrom_counts (s : jsstring) :
  forall count : Z,
    (0 <= count)%Z ->
    balancedFrom count s = true
    <-> ((forall n, (Z.of_nat (occurrences 41%N (firstn n s))
                     <= count + Z.of_nat (occurrences 40%N (firstn n s)))%Z)
         /\ (count + Z.of_nat (occurrences 40%N s)
             = Z.of_nat (occurrences 41%N s))%Z).
Proof.
  induction s as [|c t IH]; intros count Hc.
  - cbn [balancedFrom]. rewrite Z.eqb_eq. split.
    + intros ->. split; [ intros n; rewrite firstn_nil | ]; cbn; lia.
    + intros [_ H]. cbn in H. lia.
  - cbn [balancedFrom]. rewrite !occurrences_cons.
    rewrite (N.eqb_sym 40 c), (N.eqb_sym 41 c).
    destruct (N.eqb c 40) eqn:E40.
    + apply N.eqb_eq in E40. subst c. cbn [N.eqb Pos.eqb].
      replace (count + 1 <? 0)%Z with false by (symmetry; apply Z.ltb_ge; lia).
      rewrite IH by lia. split.
      * intros [Hp He]. split; [ | lia ].
        intros [|n]; cbn [firstn]; [ cbn; lia | ].
        rewrite !occurrences_cons. cbn [N.eqb Pos.eqb]. specialize (Hp n). lia.
      * intros [Hp He]. split; [ | lia ].
        intros n. specialize (Hp (S n)). cbn [firstn] in Hp.
        rewrite !occurrences_cons in Hp. cbn [N.eqb Pos.eqb] in Hp. lia.
    + destruct (N.eqb c 41) eqn:E41.
      * apply N.eqb_eq in E41. subst c. cbn [N.eqb Pos.eqb] in *.
        destruct (count - 1 <? 0)%Z eqn:Hneg.
        -- apply Z.ltb_lt in Hneg. split; [ discriminate | ].
           intros [Hp _]. specialize (Hp 1%nat). cbn in Hp. lia.
        -- apply Z.ltb_ge in Hneg. rewrite IH by lia. split.
           ++ intros [Hp He]. split; [ | lia ].
              intros [|n]; cbn [firstn]; [ cbn; lia | ].
              rewrite !occurrences_cons. cbn [N.eqb Pos.eqb].
              specialize (Hp n). lia.
           ++ intros [Hp He]. split; [ | lia ].
              intros n. specialize (Hp (S n)). cbn [firstn] in Hp.
              rewrite !occurrences_cons in Hp. cbn [N.eqb Pos.eqb] in Hp. lia.
      * replace (count <? 0)%Z with false by (symmetry; apply Z.ltb_ge; lia).
        rewrite IH by lia. split.
        -- intros [Hp He]. split; [ | lia ].
           intros [|n]; cbn [firstn]; [ cbn; lia | ].
           rewrite !occurrences_cons.
           rewrite (N.eqb_sym 40 c), (N.eqb_sym 41 c), E40, E41.
           specialize (Hp n). lia.
        -- intros [Hp He]. split; [ | lia ].
           intros n. specialize (Hp (S n)). cbn [firstn] in Hp.
           rewrite !occurrences_cons in Hp.
           rewrite (N.eqb_sym 40 c), (N.eqb_sym 41 c), E40, E41 in Hp. lia.
Qed.

(** X3. [hasBalancedParentheses] accepts a text exactly when no prefix of
    it has more closing than opening parentheses and the whole text has as
    many of each. *)
Theorem balanced_means_matched_counts (s : jsstring) :
  hasBalancedParentheses s = true
  <-> ((forall n, (occurrences 41%N (firstn n s) <= occurrences 40%N (firstn n s))%nat)
       /\ occurrences 40%N s = occurrences 41%N s).
Proof.
  unfold hasBalancedParentheses. rewrite balancedFrom_counts by lia. split.
  - intros [Hp He]. split; [ intros n; specialize (Hp n) | ]; lia.
  - intros [Hp He]. split; [ intros n; specialize (Hp n) | ]; lia.
Qed.

(** ** What validation guarantees *)

Lemma valid_is_allowed (t : jsstring) :
  isValidExpression t = true ->
  forallb allowedChar t = true /\ hasBalancedParentheses t = true.
Proof.
  unfold isValidExpression, validPattern. rewrite test_whole.
  destruct (hasBalancedParentheses t); cbn [negb]; [ | discriminate ].
  destruct (forallb allowedChar t); cbn [negb]; [ | discriminate ].
  intros _. split; reflexivity.
Qed.

(** X4. The evaluation sink is only ever given a text made of the
    allow-listed characters with balanced parentheses: two sinks that
    agree on those texts give the same [evaluate]. *)
Theorem evaluate_runs_only_validated_text
        (runFunction runFunction' : jsstring -> outcome float)
        (c : Calculator) (e : jsstring) :
  (forall t, forallb allowedChar t = true ->
             hasBalancedParentheses t = true ->
             runFunction t = runFunction' t) ->
  evaluate runFunction c e = evaluate runFunction' c e.
Proof.
  intros H. unfold evaluate. f_equal.
  destruct (rewrite c e) as [p|m]; cbn [bind]; [ | reflexivity ].
  destruct (isValidExpression p) eqn:V; cbn [negb]; [ | reflexivity ].
  destruct (valid_is_allowed p V) as [Ha Hb].
  unfold safeEvaluate, validPattern. rewrite test_whole, Ha. cbn [negb].
  rewrite (H p Ha Hb). reflexivity.
Qed.

Lemma evaluate_runs_only_validated_text_witness :
  let sink := fun t : jsstring =>
    if eqs t (str "1+1") then Return 2%float else Throw (str "unexpected") in
  let sink' := fun t : jsstring =>
    if eqs t (str "1+1") then Return 2%float
    else if forallb allowedChar t then Throw (str "unexpected")
    else Return 0%float in
  evaluate sink new (str "1+1") = evaluate sink' new (str "1+1").
Proof.
  intros sink sink'.
  apply (evaluate_runs_only_validated_text sink sink' new (str "1+1")).
  intros t Ha _. unfold sink, sink'. rewrite Ha. reflexivity.
Defined.

(** ** Operator glyphs *)

Lemma scan_one_char (x : char) (s : jsstring) :
  forall prev,
    scan [Chr x] 0 prev s
    = map (fun c => if N.eqb c x then Hit [c] [] else Keep c) s.
Proof.
  induction s as [|c t IH]; intros prev.
  - reflexivity.
  - cbn [scan exec map]. destruct (N.eqb c x).
    + cbn [List.length]. rewrite Nat.sub_succ_l, Nat.sub_diag by apply Nat.le_refl.
      cbn [firstn]. rewrite IH. reflexivity.
    + rewrite IH. reflexivity.
Qed.

Lemma replaceWith_one_char (x : char) (text s : jsstring) :
  replaceWith [Chr x] text s
  = flat_map (fun c => if N.eqb c x then text else [c]) s.
Proof.
  unfold replaceWith. rewrite scan_one_char.
  induction s as [|c t IH]; [reflexivity|].
  cbn [map flat_map]. rewrite IH. destruct (N.eqb c x); reflexivity.
Qed.

Lemma asciiOperator_steps (c : char) :
  flat_map (fun c => if N.eqb c MINUS_SIGN then str "-" else [c])
    (flat_map (fun c => if N.eqb c DIVISION_SIGN then str "/" else [c])
       (flat_map (fun c => if N.eqb c MULTIPLICATION_SIGN then str "*" else [c])
          (if N.eqb c 94 then str "**" else [c])))
  = asciiOperator c.
Proof.
  unfold asciiOperator.
  destruct (N.eqb c 94) eqn:E1; [reflexivity|].
  cbn [flat_map app].
  destruct (N.eqb c MULTIPLICATION_SIGN) eqn:E2; [reflexivity|].
  cbn [flat_map app].
  destruct (N.eqb c DIVISION_SIGN) eqn:E3; [reflexivity|].
  cbn [flat_map app].
  destruct (N.eqb c MINUS_SIGN) eqn:E4; reflexivity.
Qed.

Lemma no_glyph_in_asciiOperator (c : char) :
  forallb (fun d => negb (isGlyph d)) (asciiOperator c) = true.
Proof.
  unfold asciiOperator, isGlyph.
  destruct (N.eqb c 94) eqn:E1; [reflexivity|].
  destruct (N.eqb c MULTIPLICATION_SIGN) eqn:E2; [reflexivity|].
  destruct (N.eqb c DIVISION_SIGN) eqn:E3; [reflexivity|].
  destruct (N.eqb c MINUS_SIGN) eqn:E4; [reflexivity|].
  cbn [forallb]. rewrite E1, E2, E3, E4. reflexivity.
Qed.

Lemma normalizeOperators_flat_map (s : jsstring) :
  normalizeOperators s = flat_map asciiOperator s.
Proof.
  unfold normalizeOperators. cbv zeta. rewrite !replaceWith_one_char.
  induction s as [|c t IH]; [reflexivity|].
  cbn [flat_map]. rewrite !flat_map_app.
  f_equal; [ apply asciiOperator_steps | exact IH ].
Qed.

(** X5. [normalizeOperators] works character by character: [^] becomes
    [**], the three operator glyphs become [*], [/] and [-], every other
    character is kept; so the text it returns contains none of the four. *)
Theorem normalizeOperators_by_character (s : jsstring) :
  normalizeOperators s = flat_map asciiOperator s
  /\ forallb (fun d => negb (isGlyph d)) (normalizeOperators s) = true.
Proof.
  split; [ apply normalizeOperators_flat_map | ].
  rewrite normalizeOperators_flat_map.
  induction s as [|c t IH]; [reflexivity|].
  cbn [flat_map]. rewrite forallb_app, IH, no_glyph_in_asciiOperator.
  reflexivity.
Qed.

(** ** Function arguments *)

Lemma forallb_rev (p : char -> bool) (s : jsstring) :
  forallb p (rev s) = forallb p s.
Proof.
  induction s as [|c t IH]; [reflexivity|].
  cbn [rev forallb]. rewrite forallb_app, IH. cbn [forallb].
  rewrite andb_true_r. apply andb_comm.
Qed.

Lemma forallb_dropWhile (p q : char -> bool) (s : jsstring) :
  (forall c, q c = true -> p c = true) ->
  forallb p (dropWhile q s) = forallb p s.
Proof.
  intros H. induction s as [|c t IH]; [reflexivity|].
  cbn [dropWhile forallb]. destruct (q c) eqn:Q.
  - rewrite IH, (H c Q). reflexivity.
  - reflexivity.
Qed.

Lemma space_is_argChar (c : char) : isSpace c = true -> argChar c = true.
Proof.
  intros H. unfold argChar. rewrite H.
  rewrite orb_true_r. reflexivity.
Qed.

(** X6. [isValidFunctionArgs] accepts exactly the non-empty texts made of
    digits, [+ - * / ( ) .], white space and commas; trimming makes no
    difference.  In particular an argument with a letter in it, such as a
    nested call, is refused. *)
Theorem function_arguments_are_arithmetic_text (args : jsstring) :
  isValidFunctionArgs args
  = JsString.truthy args && forallb argChar args.
Proof.
  unfold isValidFunctionArgs. destruct (JsString.truthy args); cbn [negb andb].
  - rewrite test_whole. unfold trim.
    rewrite forallb_rev, (forallb_dropWhile _ _ _ space_is_argChar).
    rewrite forallb_rev. apply forallb_dropWhile, space_is_argChar.
  - reflexivity.
Qed.

(** X7. On a name that a plain object does not inherit from
    [Object.prototype], [getMathEquivalent] returns its argument: every
    entry of its table maps a name to itself, and a name that is not in
    the table is returned as it is.  The names of [functions], the only
    ones [processFunctionCalls] calls it with, are such names. *)
Theorem getMathEquivalent_is_the_identity (funcName : jsstring) :
  (inherited funcName = false -> getMathEquivalent funcName = funcName)
  /\ (In funcName functions -> inherited funcName = false).
Proof.
  split.
  - intros _. unfold getMathEquivalent. cbv zeta.
    destruct (find _ _) as [kv|] eqn:F; [ | reflexivity ].
    apply find_some in F. destruct F as [Hin E].
    apply TokenFacts.eqs_eq in E. rewrite <- E.
    apply in_map_iff in Hin. destruct Hin as (n & <- & _). reflexivity.
  - intros Hin.
    assert (A : forallb (fun n => negb (inherited n)) functions = true)
      by (vm_compute; reflexivity).
    rewrite forallb_forall in A. apply negb_true_iff, A, Hin.
Qed.

Lemma getMathEquivalent_is_the_identity_witness :
  getMathEquivalent (str "sqrt") = str "sqrt"
  /\ inherited (str "sqrt") = false.
Proof.
  split.
  - apply (proj1 (getMathEquivalent_is_the_identity (str "sqrt"))).
    reflexivity.
  - apply (proj2 (getMathEquivalent_is_the_identity (str "sqrt"))).
    vm_compute. tauto.
Defined.

End ValidationFacts.

(* ================================================================== *)
(** * The errors of [evaluate], and what it reads *)

Module EvaluateOutcomes.
Import JsNumber Factorial FactorialFacts EvaluateFacts.

Lemma splice_throws (f : jsstring -> jsstring -> outcome jsstring)
      (ps : list piece) (m : jsstring) :
  splice f ps = Throw m -> exists a b, f a b = Throw m.
Proof.
  induction ps as [|[ch|a b] ps IH]; cbn [splice].
  - discriminate.
  - destruct (splice f ps) as [tl|e]; cbn [bind]; [discriminate|].
    intros H. apply IH. exact H.
  - destruct (f a b) as [out|e] eqn:E; cbn [bind].
    + destruct (splice f ps) as [tl|e]; cbn [bind]; [discriminate|].
      intros H. apply IH. exact H.
    + intros H. exists a, b. rewrite E. exact H.
Qed.

Lemma replace_throws (r : regex) (f : jsstring -> jsstring -> outcome jsstring)
      (s m : jsstring) :
  replace r f s = Throw m -> exists a b, f a b = Throw m.
Proof. apply splice_throws. Qed.

(** A callback that always returns makes the replacement return. *)
Lemma replace_returns (r : regex) (f : jsstring -> jsstring -> outcome jsstring)
      (s : jsstring) :
  (forall a b m, f a b <> Throw m) ->
  exists t, replace r f s = Return t.
Proof.
  intros H. destruct (replace r f s) as [t|m] eqn:E.
  - exists t. reflexivity.
  - destruct (replace_throws r f s m E) as (a & b & Hab).
    exfalso. exact (H a b m Hab).
Qed.

Lemma generic_calls_throw (names : list jsstring) :
  forall (acc : outcome jsstring) (m : jsstring),
    fold_left (fun acc funcName =>
        processed <- acc ;;
        if existsb (eqs funcName) handledAbove then Return processed
        else
          replace (callOf funcName) (fun _ args =>
              if negb (isValidFunctionArgs args) then
                Throw (str "Invalid arguments for " ++ funcName)
              else
                Return (str "Math." ++ getMathEquivalent funcName
                          ++ str "(" ++ args ++ str ")")) processed)
      names acc = Throw m ->
    acc = Throw m
    \/ exists name, In name names /\ m = str "Invalid arguments for " ++ name.
Proof.
  induction names as [|n names IH]; intros acc m; cbn [fold_left].
  - intros H. left. exact H.
  - intros H. apply IH in H. destruct H as [H|(name & Hin & Hm)].
    + destruct acc as [p|e]; cbn [bind] in H; [ | left; exact H ].
      right. exists n. split; [ left; reflexivity | ].
      destruct (existsb (eqs n) handledAbove); [discriminate|].
      apply replace_throws in H. destruct H as (a & b & H).
      destruct (negb (isValidFunctionArgs b)); [ | discriminate ].
      injection H as <-. reflexivity.
    + right. exists name. split; [ right; exact Hin | exact Hm ].
Qed.

Ltac never_throws :=
  match goal with
  | H : replace _ _ _ = Throw _ |- _ =>
      apply replace_throws in H; destruct H as (? & ? & H); discriminate H
  end.

Lemma processFunctionCalls_throws (c : Calculator) (e m : jsstring) :
  processFunctionCalls c e = Throw m ->
  FactorialDomainError m = true
  \/ exists name, In name functions /\ m = str "Invalid arguments for " ++ name.
Proof.
  unfold processFunctionCalls. cbv zeta.
  destruct (replace (callOf (str "factorial")) _ e) as [p1|e1] eqn:E1;
    cbn [bind].
  2:{ intros H. injection H as <-.
      apply replace_throws in E1. destruct E1 as (a & b & H).
      destruct (negb (isValidFunctionArgs b)).
      - right. exists (str "factorial"). split.
        + unfold functions. apply in_map. cbn. tauto.
        + injection H as <-. reflexivity.
      - left. destruct (in_domain (parseFloat b)) eqn:D.
        + destruct (returns_inside_domain _ D) as (v & Hv).
          rewrite Hv in H. discriminate H.
        + destruct (throws_outside_domain _ D) as (m' & Hm & Hk).
          rewrite Hm in H. cbn [bind] in H. injection H as <-. exact Hk. }
  destruct (replace (callOf (str "reciprocal")) _ p1) as [p2|e2] eqn:E2;
    cbn [bind]; [ | never_throws ].
  destruct (replace (callOf (str "square")) _ p2) as [p3|e3] eqn:E3;
    cbn [bind]; [ | never_throws ].
  destruct (replace (callOf (str "cube")) _ p3) as [p4|e4] eqn:E4;
    cbn [bind]; [ | never_throws ].
  destruct (replace (callOf (str "percent")) _ p4) as [p5|e5] eqn:E5;
    cbn [bind]; [ | never_throws ].
  assert (Htrig : exists p8,
    match angleMode c with
    | deg =>
        processed <- replace (callOf (str "sin")) (fun _ args =>
            Return (str "Math.sin((" ++ args ++ str ") * Math.PI / 180)")) p5 ;;
        processed <- replace (callOf (str "cos")) (fun _ args =>
            Return (str "Math.cos((" ++ args ++ str ") * Math.PI / 180)")) processed ;;
        replace (callOf (str "tan")) (fun _ args =>
            Return (str "Math.tan((" ++ args ++ str ") * Math.PI / 180)")) processed
    | rad =>
        processed <- replace (callOf (str "sin")) (fun _ args =>
            Return (str "Math.sin(" ++ args ++ str ")")) p5 ;;
        processed <- replace (callOf (str "cos")) (fun _ args =>
            Return (str "Math.cos(" ++ args ++ str ")")) processed ;;
        replace (callOf (str "tan")) (fun _ args =>
            Return (str "Math.tan(" ++ args ++ str ")")) processed
    end = Return p8).
  { destruct (angleMode c).
    - destruct (replace_returns (callOf (str "sin")) (fun _ args =>
          Return (str "Math.sin(" ++ args ++ str ")")) p5) as (p6 & ->);
        [ discriminate | cbn [bind] ].
      destruct (replace_returns (callOf (str "cos")) (fun _ args =>
          Return (str "Math.cos(" ++ args ++ str ")")) p6) as (p7 & ->);
        [ discriminate | cbn [bind] ].
      apply replace_returns. discriminate.
    - destruct (replace_returns (callOf (str "sin")) (fun _ args =>
          Return (str "Math.sin((" ++ args ++ str ") * Math.PI / 180)")) p5)
        as (p6 & ->); [ discriminate | cbn [bind] ].
      destruct (replace_returns (callOf (str "cos")) (fun _ args =>
          Return (str "Math.cos((" ++ args ++ str ") * Math.PI / 180)")) p6)
        as (p7 & ->); [ discriminate | cbn [bind] ].
      apply replace_returns. discriminate. }
  destruct Htrig as (p8 & ->). cbn [bind].
  intros H. apply generic_calls_throw in H.
  destruct H as [H|H]; [ discriminate H | right; exact H ].
Qed.

(** The [catch] of [evaluate] puts its prefix in front of every message. *)
Lemma evaluate_throws_prefixed (runFunction : jsstring -> outcome float)
      (c : Calculator) (e m : jsstring) :
  evaluate runFunction c e = Throw m ->
  startsWith m (str "Calculation error: ") = true.
Proof.
  unfold evaluate.
  destruct (_ <- rewrite c e ;; _) as [v|m0]; cbn [rethrow]; [ discriminate | ].
  intros H. injection H as <-. reflexivity.
Qed.

(** X8. Every error of [evaluate] is [Calculation error: ] followed by a
    message that comes from one of five places: [factorial]'s domain check,
    the argument check of a function call, validation, the evaluation sink
    run on a validated text, or the tests [evaluate] makes on the value the
    sink returned for a validated text.  On a Number these tests throw only
    for one that is not finite, with [Result is not a number] or [Result is
    infinite].  The character check of [safeEvaluate] is never the
    source. *)
Theorem evaluate_error_messages (runFunction : jsstring -> outcome float)
        (c : Calculator) (e m : jsstring) :
  evaluate runFunction c e = Throw m ->
  (exists m', m = str "Calculation error: " ++ m'
              /\ ErrorSource runFunction m')
  /\ (forall (result : float) (message : jsstring),
         classify result = Throw message ->
         isFinite result = false
         /\ (message = str "Result is not a number"
             \/ message = str "Result is infinite")).
Proof.
  intros H. split.
  - revert H. unfold evaluate.
    destruct (rewrite c e) as [p|m0] eqn:R; cbn [bind rethrow].
    + destruct (isValidExpression p) eqn:V; cbn [negb rethrow].
      * destruct (ValidationFacts.valid_is_allowed p V) as [Ha _].
        unfold safeEvaluate, validPattern.
        rewrite ValidationFacts.test_whole, Ha. cbn [negb].
        destruct (runFunction p) as [r|m0] eqn:S; cbn [bind rethrow].
        -- destruct (classify r) as [v|m0] eqn:K; cbn [rethrow]; intros H;
             [ discriminate H | ].
           injection H as <-. eexists. split; [ reflexivity | ].
           apply (from_result runFunction p r m0 V S K).
        -- intros H. injection H as <-. eexists. split; [ reflexivity | ].
           apply (from_sink runFunction p m0 V S).
      * intros H. injection H as <-. eexists. split; [ reflexivity | ].
        apply from_validation.
    + intros H. injection H as <-. eexists. split; [ reflexivity | ].
      unfold rewrite in R. apply processFunctionCalls_throws in R.
      destruct R as [R|(name & Hin & ->)].
      * apply from_factorial. exact R.
      * apply from_arguments. exact Hin.
  - intros result message. unfold classify.
    destruct (isFinite result); cbn [negb]; [ discriminate | ].
    intros K. split; [ reflexivity | ].
    destruct (isNaN result);
      [ injection K as <-; left; reflexivity | ].
    destruct ((result =? infinity) || (result =? neg_infinity))%float;
      [ injection K as <-; right; reflexivity | discriminate K ].
Qed.

Lemma evaluate_error_messages_witness :
  (exists m',
      str "Calculation error: Invalid expression"
      = str "Calculation error: " ++ m'
      /\ ErrorSource (interpret noMethods) m')
  /\ (forall (result : float) (message : jsstring),
         classify result = Throw message ->
         isFinite result = false
         /\ (message = str "Result is not a number"
             \/ message = str "Result is infinite")).
Proof.
  apply (evaluate_error_messages (interpret noMethods) new (str "2++3")).
  vm_compute. reflexivity.
Defined.

(** X9. [evaluate] reads the instance only through the angle mode and
    through [this.lastResult || 0]: the buffer, the result line, the memory
    and the Fresh flag have no influence on it. *)
Theorem evaluate_reads_angle_mode_and_last_result
        (runFunction : jsstring -> outcome float) (c c' : Calculator)
        (e : jsstring) :
  angleMode c = angleMode c' ->
  lastResultOr0 c = lastResultOr0 c' ->
  evaluate runFunction c e = evaluate runFunction c' e.
Proof.
  intros Ha Hl. unfold evaluate, rewrite.
  assert (E : substituteConstants c e = substituteConstants c' e)
    by (unfold substituteConstants; rewrite Hl; reflexivity).
  rewrite E.
  assert (F : forall t, processFunctionCalls c t = processFunctionCalls c' t)
    by (intros t; unfold processFunctionCalls; rewrite Ha; reflexivity).
  rewrite F. reflexivity.
Qed.

Lemma evaluate_reads_angle_mode_and_last_result_witness :
  evaluate (interpret noMethods) (init new) (str "ans+1")
  = evaluate (interpret noMethods)
      (set_memory 5%float (setExpression (str "2*3") (init new)))
      (str "ans+1").
Proof.
  apply (evaluate_reads_angle_mode_and_last_result (interpret noMethods)
           (init new)
           (set_memory 5%float (setExpression (str "2*3") (init new)))
           (str "ans+1")); reflexivity.
Defined.

End EvaluateOutcomes.

(* ================================================================== *)
(** * What rewriting cannot remove *)

Module RewritingFacts.
Import JsNumber Factorial FactorialFacts EvaluateFacts TokenFacts.

(** ** Occurrences of a character *)

Lemma includes_app (u v : jsstring) (ch : char) :
  includes (u ++ v) ch = includes u ch || includes v ch.
Proof. unfold includes, oneOf. apply existsb_app. Qed.

Lemma includes_cons (x : char) (s : jsstring) (ch : char) :
  includes (x :: s) ch = N.eqb ch x || includes s ch.
Proof. reflexivity. Qed.

Lemma includes_all (p : char -> bool) (s : jsstring) (ch : char) :
  forallb p s = true -> p ch = false -> includes s ch = false.
Proof.
  intros Hs Hc. induction s as [|x t IH]; [ reflexivity | ].
  cbn [forallb] in Hs. apply andb_prop in Hs. destruct Hs as [Hx Ht].
  rewrite includes_cons, (IH Ht).
  destruct (N.eqb ch x) eqn:E; [ | reflexivity ].
  apply N.eqb_eq in E. subst x. rewrite Hx in Hc. discriminate Hc.
Qed.

(** ** The pieces of a global replace *)

Lemma scan_source (r : regex) (s : jsstring) :
  forall (skip : nat) (prev : option char),
    flat_map source (scan r skip prev s) = skipn skip s.
Proof.
  induction s as [|c t IH]; intros skip prev.
  - cbn [scan]. destruct skip; [ | reflexivity ].
    destruct (exec r [] prev []) as [[cap rest]|]; reflexivity.
  - cbn [scan]. destruct skip as [|k].
    + destruct (exec r [] prev (c :: t)) as [[cap rest]|].
      * destruct (List.length (c :: t) - List.length rest)%nat as [|k] eqn:L.
        -- cbn [flat_map source app]. rewrite IH. reflexivity.
        -- cbn [flat_map source]. rewrite IH.
           change (skipn k t) with (skipn (S k) (c :: t)).
           apply firstn_skipn.
      * cbn [flat_map source app]. rewrite IH. reflexivity.
    + rewrite IH. reflexivity.
Qed.

Lemma scan_hits (r : regex) (m cap : jsstring) (s : jsstring) :
  forall (skip : nat) (prev : option char),
    In (Hit m cap) (scan r skip prev s) ->
    exists prev' s' rest,
      exec r [] prev' s' = Some (cap, rest)
      /\ m = firstn (List.length s' - List.length rest) s'.
Proof.
  induction s as [|c t IH]; intros skip prev.
  - cbn [scan]. destruct skip; [ | intros [] ].
    destruct (exec r [] prev []) as [[cap' rest]|] eqn:E; [ | intros [] ].
    intros [H|[]]. injection H as <- <-.
    exists prev, [], rest. split; [ exact E | reflexivity ].
  - cbn [scan]. destruct skip as [|k]; [ | apply IH ].
    destruct (exec r [] prev (c :: t)) as [[cap' rest]|] eqn:E.
    + destruct (List.length (c :: t) - List.length rest)%nat as [|k] eqn:L.
      * intros [H|[H|H]]; [ | discriminate H | apply (IH _ _ H) ].
        injection H as <- <-.
        exists prev, (c :: t), rest. split; [ exact E | ].
        rewrite L. reflexivity.
      * intros [H|H]; [ | apply (IH _ _ H) ].
        injection H as <- <-.
        exists prev, (c :: t), rest. split; [ exact E | ].
        rewrite L. reflexivity.
    + intros [H|H]; [ discriminate H | apply (IH _ _ H) ].
Qed.

Lemma render_keeps (ch : char) (txt : jsstring) (ps : list piece) :
  (forall m cap, In (Hit m cap) ps -> includes m ch = false) ->
  includes (flat_map source ps) ch = true ->
  includes (render txt ps) ch = true.
Proof.
  induction ps as [|[x|m cap] ps IH]; intros Hh; cbn [flat_map source].
  - intros H. exact H.
  - change (render txt (Keep x :: ps)) with ([x] ++ render txt ps).
    rewrite !includes_app. intros H. apply orb_prop in H.
    destruct H as [H|H]; [ rewrite H; reflexivity | ].
    rewrite IH; [ apply orb_true_r | | exact H ].
    intros m cap Hin. apply (Hh m cap). right. exact Hin.
  - change (render txt (Hit m cap :: ps)) with (txt ++ render txt ps).
    rewrite !includes_app, (Hh m cap (or_introl eq_refl)). cbn [orb].
    intros H. rewrite IH; [ apply orb_true_r | | exact H ].
    intros m' cap' Hin. apply (Hh m' cap'). right. exact Hin.
Qed.

Lemma splice_keeps (ch : char) (f : jsstring -> jsstring -> outcome jsstring)
      (ps : list piece) :
  (forall m cap o, In (Hit m cap) ps -> f m cap = Return o ->
                   includes m ch = true -> includes o ch = true) ->
  forall out,
    splice f ps = Return out ->
    includes (flat_map source ps) ch = true ->
    includes out ch = true.
Proof.
  induction ps as [|[x|m cap] ps IH]; intros Hf out; cbn [splice flat_map source].
  - intros H. injection H as <-. intros H. exact H.
  - destruct (splice f ps) as [tl|e] eqn:S; cbn [bind]; [ | discriminate ].
    intros H. injection H as <-.
    change ([x] ++ flat_map source ps) with (x :: flat_map source ps).
    rewrite !includes_cons. intros H. apply orb_prop in H.
    destruct H as [H|H]; [ rewrite H; reflexivity | ].
    rewrite (IH (fun m cap o Hin => Hf m cap o (or_intror Hin)) tl eq_refl H).
    apply orb_true_r.
  - destruct (f m cap) as [o|e] eqn:F; cbn [bind]; [ | discriminate ].
    destruct (splice f ps) as [tl|e] eqn:S; cbn [bind]; [ | discriminate ].
    intros H. injection H as <-.
    rewrite !includes_app. intros H. apply orb_prop in H.
    destruct H as [H|H].
    + rewrite (Hf m cap o (or_introl eq_refl) F H). reflexivity.
    + rewrite (IH (fun m cap o Hin => Hf m cap o (or_intror Hin)) tl eq_refl H).
      apply orb_true_r.
Qed.

(** ** The shape of a match *)

Lemma greedy_sound (X : Type) (p : char -> bool)
      (k : jsstring -> option char -> jsstring -> option X) (s : jsstring) :
  forall (min : nat) (run : jsstring) (prev : option char) (r : X),
    greedy p k min run prev s = Some r ->
    exists taken rest,
      s = taken ++ rest /\ forallb p taken = true
      /\ k (rev run ++ taken) (lastChar prev taken) rest = Some r.
Proof.
  induction s as [|c t IH]; intros min run prev r.
  - cbn [greedy]. destruct min; [ | discriminate ].
    intros H. exists [], []. rewrite (app_nil_r (rev run)).
    cbn [lastChar fold_left]. repeat split. exact H.
  - cbn [greedy].
    assert (Stop : match min with
                   | O => k (rev run) prev (c :: t)
                   | S _ => None
                   end = Some r ->
                   exists taken rest,
                     c :: t = taken ++ rest /\ forallb p taken = true
                     /\ k (rev run ++ taken) (lastChar prev taken) rest = Some r).
    { destruct min; [ | discriminate ].
      intros H. exists [], (c :: t). rewrite (app_nil_r (rev run)).
      cbn [lastChar fold_left]. repeat split. exact H. }
    destruct (p c) eqn:P; [ | exact Stop ].
    destruct (greedy p k (Nat.pred min) (c :: run) (Some c) t) as [r'|] eqn:G;
      [ | exact Stop ].
    intros H. injection H as <-.
    destruct (IH _ _ _ _ G) as (taken & rest & -> & Hp & Hk).
    exists (c :: taken), rest. split; [ reflexivity | ].
    split; [ cbn [forallb]; rewrite P; exact Hp | ].
    cbn [rev] in Hk. rewrite <- app_assoc in Hk. exact Hk.
Qed.

Lemma startsWith_split (s name : jsstring) :
  startsWith s name = true -> s = name ++ skipn (List.length name) s.
Proof.
  revert s. induction name as [|x name IH]; intros s; [ reflexivity | ].
  destruct s as [|y s]; cbn [startsWith]; [ discriminate | ].
  intros H. apply andb_prop in H. destruct H as [E H].
  apply N.eqb_eq in E. subst y. cbn [List.length skipn app].
  rewrite <- (IH s H). reflexivity.
Qed.

(** A match of [/\bNAME\s*\(([^)]+)\)/]: the name, white space, the
    parenthesised capture. *)
Lemma callOf_shape (name cap rest : jsstring) (prev : option char)
      (s : jsstring) :
  exec (callOf name) [] prev s = Some (cap, rest) ->
  exists sp,
    s = name ++ sp ++ [40%N] ++ cap ++ [41%N] ++ rest
    /\ forallb isSpace sp = true.
Proof.
  unfold callOf. cbn [app exec].
  destruct (xorb (isWordAt prev) (isWordAt (hd_error s))); [ | discriminate ].
  rewrite exec_lit.
  destruct (startsWith s name) eqn:S; [ | discriminate ].
  pose proof (startsWith_split s name S) as Hs.
  set (s1 := skipn (List.length name) s) in *. clearbody s1. subst s.
  cbn [exec]. intros H. apply greedy_sound in H.
  destruct H as (sp & s2 & -> & Hsp & H).
  destruct s2 as [|x s2]; [ discriminate H | ].
  destruct (N.eqb x 40) eqn:E; [ | discriminate H ].
  apply N.eqb_eq in E. subst x.
  apply greedy_sound in H. destruct H as (taken & s3 & -> & _ & H).
  cbn [rev app] in H.
  destruct s3 as [|y s3]; [ discriminate H | ].
  destruct (N.eqb y 41) eqn:E; [ | discriminate H ].
  apply N.eqb_eq in E. subst y. injection H as <- <-.
  exists sp. split; [ reflexivity | exact Hsp ].
Qed.

Lemma matched_text (u v : jsstring) :
  firstn (List.length (u ++ v) - List.length v) (u ++ v) = u.
Proof.
  rewrite length_app, Nat.add_sub.
  rewrite firstn_app, Nat.sub_diag, firstn_all. cbn [firstn]. apply app_nil_r.
Qed.

Lemma space_is_allowed (c : char) : isSpace c = true -> allowedChar c = true.
Proof.
  intros H. unfold allowedChar. rewrite H. rewrite !orb_true_r. reflexivity.
Qed.

Lemma argChar_is_allowed (c : char) : argChar c = true -> allowedChar c = true.
Proof.
  unfold argChar, allowedChar. intros H.
  destruct (isDigit c); [ reflexivity | ].
  destruct (oneOf (str "+-*/().") c); [ reflexivity | ].
  destruct (isSpace c); [ reflexivity | ].
  cbn [orb] in *. apply N.eqb_eq in H. subst c. reflexivity.
Qed.

(** A forbidden character inside a match of a call is in the name or in
    the capture. *)
Lemma forbidden_in_call (ch : char) (name m cap : jsstring) (s : jsstring)
      (skip : nat) (prev : option char) :
  allowedChar ch = false ->
  In (Hit m cap) (scan (callOf name) skip prev s) ->
  includes m ch = true ->
  includes name ch = true \/ includes cap ch = true.
Proof.
  intros Hch Hin Hm.
  destruct (scan_hits _ _ _ _ _ _ Hin) as (prev' & s' & rest & E & ->).
  destruct (callOf_shape _ _ _ _ _ E) as (sp & -> & Hsp).
  replace (name ++ sp ++ [40%N] ++ cap ++ [41%N] ++ rest)
    with ((name ++ sp ++ [40%N] ++ cap ++ [41%N]) ++ rest) in Hm
    by (rewrite <- !app_assoc; reflexivity).
  rewrite matched_text in Hm. rewrite !includes_app in Hm.
  assert (Hs : includes sp ch = false).
  { apply (includes_all isSpace); [ exact Hsp | ].
    destruct (isSpace ch) eqn:S; [ | reflexivity ].
    rewrite (space_is_allowed ch S) in Hch. discriminate Hch. }
  assert (H40 : includes [40%N] ch = false).
  { cbn. destruct (N.eqb ch 40) eqn:E40; [ | reflexivity ].
    apply N.eqb_eq in E40. subst ch. discriminate Hch. }
  assert (H41 : includes [41%N] ch = false).
  { cbn. destruct (N.eqb ch 41) eqn:E41; [ | reflexivity ].
    apply N.eqb_eq in E41. subst ch. discriminate Hch. }
  rewrite Hs, H40, H41 in Hm. cbn [orb] in Hm. rewrite orb_false_r in Hm.
  apply orb_prop in Hm. exact Hm.
Qed.

(** One pass of [processFunctionCalls]. *)
Lemma pass_keeps (ch : char) (name : jsstring)
      (f : jsstring -> jsstring -> outcome jsstring) (s out : jsstring) :
  allowedChar ch = false ->
  (forall m cap o, f m cap = Return o ->
                   includes name ch = true \/ includes cap ch = true ->
                   includes o ch = true) ->
  replace (callOf name) f s = Return out ->
  includes s ch = true ->
  includes out ch = true.
Proof.
  intros Hch Hf R Hs. unfold replace in R.
  apply (splice_keeps ch f (scan (callOf name) 0 None s)); [ | exact R | ].
  - intros m cap o Hin F Hm. apply (Hf m cap o F).
    apply (forbidden_in_call ch name m cap s 0 None Hch Hin Hm).
  - rewrite scan_source. exact Hs.
Qed.

Lemma not_in_allowed_name (ch : char) (name : jsstring) :
  allowedChar ch = false -> forallb allowedChar name = true ->
  includes name ch = false.
Proof. intros Hch Hn. apply (includes_all allowedChar); assumption. Qed.

Lemma valid_arguments_chars (args : jsstring) :
  isValidFunctionArgs args = true -> forallb argChar args = true.
Proof.
  unfold isValidFunctionArgs. destruct (JsString.truthy args); cbn [negb];
    [ | discriminate ].
  rewrite ValidationFacts.test_whole. unfold trim.
  rewrite ValidationFacts.forallb_rev,
    (ValidationFacts.forallb_dropWhile _ _ _ ValidationFacts.space_is_argChar),
    ValidationFacts.forallb_rev,
    (ValidationFacts.forallb_dropWhile _ _ _ ValidationFacts.space_is_argChar).
  intros H. exact H.
Qed.

Lemma forbidden_in_arguments (ch : char) (args : jsstring) :
  allowedChar ch = false -> includes args ch = true ->
  isValidFunctionArgs args = false.
Proof.
  intros Hch Hin. destruct (isValidFunctionArgs args) eqn:V; [ | reflexivity ].
  apply valid_arguments_chars in V.
  rewrite (includes_all argChar args ch V) in Hin; [ discriminate Hin | ].
  destruct (argChar ch) eqn:A; [ | reflexivity ].
  rewrite (argChar_is_allowed ch A) in Hch. discriminate Hch.
Qed.

(** A callback whose text contains the capture. *)
Lemma around_capture (ch : char) (name a b : jsstring) :
  allowedChar ch = false -> forallb allowedChar name = true ->
  forall m cap o : jsstring,
    Return (a ++ cap ++ b) = Return o ->
    includes name ch = true \/ includes cap ch = true ->
    includes o ch = true.
Proof.
  intros Hch Hn m cap o H Hc. injection H as <-. destruct Hc as [Hc|Hc].
  - rewrite (not_in_allowed_name ch name Hch Hn) in Hc. discriminate Hc.
  - rewrite !includes_app, Hc, orb_true_r. reflexivity.
Qed.

Lemma includes_middle (ch : char) (a b c : jsstring) :
  includes b ch = true -> includes (a ++ b ++ c) ch = true.
Proof. intros H. rewrite !includes_app, H, orb_true_r. reflexivity. Qed.

Lemma generic_calls_keep (ch : char) (names : list jsstring) :
  allowedChar ch = false ->
  (forall name, In name names ->
     includes name ch = true -> includes (getMathEquivalent name) ch = true) ->
  forall (acc : outcome jsstring) (out : jsstring),
    fold_left (fun acc funcName =>
        processed <- acc ;;
        if existsb (eqs funcName) handledAbove then Return processed
        else
          replace (callOf funcName) (fun _ args =>
              if negb (isValidFunctionArgs args) then
                Throw (str "Invalid arguments for " ++ funcName)
              else
                Return (str "Math." ++ getMathEquivalent funcName
                          ++ str "(" ++ args ++ str ")")) processed)
      names acc = Return out ->
    exists p, acc = Return p
              /\ (includes p ch = true -> includes out ch = true).
Proof.
  intros Hch. induction names as [|n names IH]; intros Hn acc out;
    cbn [fold_left].
  - intros ->. exists out. split; [ reflexivity | intros H; exact H ].
  - intros H. apply IH in H; [ | intros name Hin; apply Hn; right; exact Hin ].
    destruct H as (p1 & H & Hk).
    destruct acc as [p|e]; cbn [bind] in H; [ | discriminate H ].
    exists p. split; [ reflexivity | ]. intros Hp. apply Hk.
    destruct (existsb (eqs n) handledAbove).
    + injection H as <-. exact Hp.
    + apply (fun Hf => pass_keeps ch n _ p p1 Hch Hf H Hp).
      intros m cap o F Hc.
      destruct (isValidFunctionArgs cap) eqn:V; cbn [negb] in F;
        [ | discriminate F ].
      destruct Hc as [Hc|Hc].
      * assert (E : o = str "Math." ++ getMathEquivalent n
                        ++ str "(" ++ cap ++ str ")") by congruence.
        rewrite E. apply includes_middle, (Hn n (or_introl eq_refl) Hc).
      * rewrite (forbidden_in_arguments ch cap Hch Hc) in V. discriminate V.
Qed.

Lemma names_keep_forbidden (ch : char) (name : jsstring) :
  allowedChar ch = false -> In name functions ->
  includes name ch = true -> includes (getMathEquivalent name) ch = true.
Proof.
  intros Hch Hin Hc.
  assert (C : namesKeepForbidden = true) by (vm_compute; reflexivity).
  unfold namesKeepForbidden in C. rewrite forallb_forall in C.
  specialize (C name Hin). rewrite forallb_forall in C.
  unfold includes, oneOf in Hc. apply existsb_exists in Hc.
  destruct Hc as (x & Hx & E). apply N.eqb_eq in E. subst x.
  specialize (C ch Hx). rewrite Hch in C. exact C.
Qed.

(** The first four passes of [processFunctionCalls], and what the rest
    keeps. *)
Lemma processFunctionCalls_steps (ch : char) (c : Calculator) (e p : jsstring) :
  allowedChar ch = false ->
  processFunctionCalls c e = Return p ->
  exists p1 p2 p3 p4,
    replace (callOf (str "factorial")) (fun _ args =>
        if negb (isValidFunctionArgs args) then
          Throw (str "Invalid arguments for factorial")
        else
          let num := parseFloat args in
          r <- factorial num ;; Return (numberToString r)) e = Return p1
    /\ replace (callOf (str "reciprocal")) (fun _ args =>
          Return (str "(1/(" ++ args ++ str "))")) p1 = Return p2
    /\ replace (callOf (str "square")) (fun _ args =>
          Return (str "Math.pow(" ++ args ++ str ", 2)")) p2 = Return p3
    /\ replace (callOf (str "cube")) (fun _ args =>
          Return (str "Math.pow(" ++ args ++ str ", 3)")) p3 = Return p4
    /\ (includes p4 ch = true -> includes p ch = true).
Proof.
  intros Hch. unfold processFunctionCalls. cbv zeta.
  destruct (replace (callOf (str "factorial")) _ e) as [p1|e1] eqn:E1;
    cbn [bind]; [ | discriminate ].
  destruct (replace (callOf (str "reciprocal")) _ p1) as [p2|e2] eqn:E2;
    cbn [bind]; [ | discriminate ].
  destruct (replace (callOf (str "square")) _ p2) as [p3|e3] eqn:E3;
    cbn [bind]; [ | discriminate ].
  destruct (replace (callOf (str "cube")) _ p3) as [p4|e4] eqn:E4;
    cbn [bind]; [ | discriminate ].
  destruct (replace (callOf (str "percent")) _ p4) as [p5|e5] eqn:E5;
    cbn [bind]; [ | discriminate ].
  intros H. exists p1, p2, p3, p4.
  repeat (split; [ first [ reflexivity | eassumption ] | ]).
  intros H4.
  assert (H5 : includes p5 ch = true).
  { apply (pass_keeps ch _ _ p4 p5 Hch) in E5; [ exact E5 | | exact H4 ].
    apply (around_capture ch (str "percent") (str "((") (str ")/100)")
             Hch eq_refl). }
  match type of H with
  | bind ?t _ = _ => destruct t as [p8|e8] eqn:T
  end; cbn [bind] in H; [ | discriminate H ].
  apply (generic_calls_keep ch functions Hch
           (fun name Hin => names_keep_forbidden ch name Hch Hin)) in H.
  destruct H as (p' & H & Hk). injection H as <-. apply Hk.
  destruct (angleMode c).
  - destruct (replace (callOf (str "sin")) _ p5) as [p6|e6] eqn:E6;
      cbn [bind] in T; [ | discriminate T ].
    destruct (replace (callOf (str "cos")) _ p6) as [p7|e7] eqn:E7;
      cbn [bind] in T; [ | discriminate T ].
    assert (H6 : includes p6 ch = true).
    { apply (pass_keeps ch _ _ p5 p6 Hch) in E6; [ exact E6 | | exact H5 ].
      apply (around_capture ch (str "sin") (str "Math.sin(") (str ")")
               Hch eq_refl). }
    assert (H7 : includes p7 ch = true).
    { apply (pass_keeps ch _ _ p6 p7 Hch) in E7; [ exact E7 | | exact H6 ].
      apply (around_capture ch (str "cos") (str "Math.cos(") (str ")")
               Hch eq_refl). }
    apply (pass_keeps ch _ _ p7 p8 Hch) in T; [ exact T | | exact H7 ].
    apply (around_capture ch (str "tan") (str "Math.tan(") (str ")")
             Hch eq_refl).
  - destruct (replace (callOf (str "sin")) _ p5) as [p6|e6] eqn:E6;
      cbn [bind] in T; [ | discriminate T ].
    destruct (replace (callOf (str "cos")) _ p6) as [p7|e7] eqn:E7;
      cbn [bind] in T; [ | discriminate T ].
    assert (H6 : includes p6 ch = true).
    { apply (pass_keeps ch _ _ p5 p6 Hch) in E6; [ exact E6 | | exact H5 ].
      apply (around_capture ch (str "sin") (str "Math.sin((") (str ") * Math.PI / 180)")
               Hch eq_refl). }
    assert (H7 : includes p7 ch = true).
    { apply (pass_keeps ch _ _ p6 p7 Hch) in E7; [ exact E7 | | exact H6 ].
      apply (around_capture ch (str "cos") (str "Math.cos((") (str ") * Math.PI / 180)")
               Hch eq_refl). }
    apply (pass_keeps ch _ _ p7 p8 Hch) in T; [ exact T | | exact H7 ].
    apply (around_capture ch (str "tan") (str "Math.tan((") (str ") * Math.PI / 180)")
             Hch eq_refl).
Qed.

Lemma processFunctionCalls_keeps (ch : char) (c : Calculator) (e p : jsstring) :
  allowedChar ch = false ->
  processFunctionCalls c e = Return p ->
  includes e ch = true -> includes p ch = true.
Proof.
  intros Hch H He.
  destruct (processFunctionCalls_steps ch c e p Hch H)
    as (p1 & p2 & p3 & p4 & E1 & E2 & E3 & E4 & Hk).
  apply Hk.
  apply (pass_keeps ch _ _ p3 p4 Hch) in E4; [ exact E4 | | ].
  { apply (around_capture ch (str "cube") (str "Math.pow(") (str ", 3)")
             Hch eq_refl). }
  apply (pass_keeps ch _ _ p2 p3 Hch) in E3; [ exact E3 | | ].
  { apply (around_capture ch (str "square") (str "Math.pow(") (str ", 2)")
             Hch eq_refl). }
  apply (pass_keeps ch _ _ p1 p2 Hch) in E2; [ exact E2 | | ].
  { apply (around_capture ch (str "reciprocal") (str "(1/(") (str "))")
             Hch eq_refl). }
  apply (pass_keeps ch _ _ e p1 Hch) in E1; [ exact E1 | | exact He ].
  intros m cap o F Hc. destruct Hc as [Hc|Hc].
  - rewrite not_in_allowed_name in Hc;
      [ discriminate Hc | assumption | reflexivity ].
  - rewrite (forbidden_in_arguments ch cap Hch Hc) in F. discriminate F.
Qed.

(** ** Constants and operators *)

Lemma wholeWord_match (name m cap : jsstring) (s : jsstring)
      (skip : nat) (prev : option char) :
  In (Hit m cap) (scan (wholeWord name) skip prev s) -> m = name.
Proof.
  intros Hin.
  destruct (scan_hits _ _ _ _ _ _ Hin) as (prev' & s' & rest & E & ->).
  rewrite exec_wholeWord in E.
  destruct (startsWith s' name) eqn:S;
    [ | rewrite andb_false_r in E; discriminate E ].
  destruct (_ && _ && _); [ | discriminate E ].
  injection E as _ <-.
  pose proof (startsWith_split s' name S) as Hs.
  set (s1 := skipn (List.length name) s') in *. clearbody s1. subst s'.
  apply matched_text.
Qed.

Lemma replaceWith_keeps (ch : char) (name txt s : jsstring) :
  includes name ch = false ->
  includes s ch = true ->
  includes (replaceWith (wholeWord name) txt s) ch = true.
Proof.
  intros Hn Hs. apply render_keeps.
  - intros m cap Hin. rewrite (wholeWord_match _ _ _ _ _ _ Hin). exact Hn.
  - rewrite scan_source. exact Hs.
Qed.

Lemma substituteConstants_keeps (ch : char) (c : Calculator) (e : jsstring) :
  allowedChar ch = false ->
  includes e ch = true -> includes (substituteConstants c e) ch = true.
Proof.
  intros Hch He. unfold substituteConstants. cbv zeta.
  repeat (apply replaceWith_keeps;
          [ apply not_in_allowed_name; [ exact Hch | reflexivity ] | ]).
  exact He.
Qed.

Lemma normalizeOperators_keeps (ch : char) (e : jsstring) :
  isGlyph ch = false ->
  includes e ch = true -> includes (normalizeOperators e) ch = true.
Proof.
  intros Hg.
  assert (E : normalizeOperators e = flat_map asciiOperator e)
    by apply ValidationFacts.normalizeOperators_flat_map.
  rewrite E. clear E. induction e as [|x t IH]; [ intros H; exact H | ].
  rewrite includes_cons. cbn [flat_map]. rewrite includes_app. intros H.
  apply orb_prop in H. destruct H as [H|H].
  - apply N.eqb_eq in H. subst x. unfold asciiOperator.
    unfold isGlyph in Hg. apply orb_false_iff in Hg. destruct Hg as [Hg G4].
    apply orb_false_iff in Hg. destruct Hg as [Hg G3].
    apply orb_false_iff in Hg. destruct Hg as [G1 G2].
    rewrite G1, G2, G3, G4. cbn. rewrite N.eqb_refl. reflexivity.
  - rewrite (IH H). apply orb_true_r.
Qed.

(** X10. A character outside the allow-list of validation, other than the
    four operator glyphs, is never removed by the rewriting steps of
    [evaluate]; so a text that contains one is rejected without reaching
    the evaluation sink, with an error that does not depend on the sink.
    The letter [w] is such a character: every text that calls [pow]
    fails. *)
Theorem forbidden_character_is_rejected (c : Calculator) (e : jsstring)
        (ch : char) :
  allowedChar ch = false -> isGlyph ch = false ->
  includes e ch = true ->
  exists m, forall runFunction : jsstring -> outcome float,
      evaluate runFunction c e = Throw m.
Proof.
  intros Hch Hg He.
  pose proof (normalizeOperators_keeps ch _ Hg
                (substituteConstants_keeps ch c e Hch He)) as Hn.
  unfold evaluate, rewrite.
  destruct (processFunctionCalls c (normalizeOperators (substituteConstants c e)))
    as [p|m0] eqn:R; cbn [bind rethrow].
  - pose proof (processFunctionCalls_keeps ch c _ p Hch R Hn) as Hp.
    assert (V : isValidExpression p = false).
    { destruct (isValidExpression p) eqn:V; [ | reflexivity ].
      destruct (ValidationFacts.valid_is_allowed p V) as [Ha _].
      rewrite (includes_all allowedChar p ch Ha Hch) in Hp. discriminate Hp. }
    rewrite V. cbn [negb rethrow]. eexists. intros _. reflexivity.
  - eexists. intros _. reflexivity.
Qed.

Lemma forbidden_character_is_rejected_witness :
  exists m, forall runFunction : jsstring -> outcome float,
      evaluate runFunction new (str "pow(2,3)") = Throw m.
Proof.
  apply (forbidden_character_is_rejected new (str "pow(2,3)") 119%N);
    reflexivity.
Defined.

(** ** Calls of [square] and [cube] *)

Lemma scan_no_match (r : regex) (s : jsstring) :
  forall prev, search r prev s = false -> scan r 0 prev s = map Keep s.
Proof.
  induction s as [|c t IH]; intros prev; cbn [search scan map].
  - destruct (exec r [] prev []) as [[cap rest]|]; [ discriminate | reflexivity ].
  - destruct (exec r [] prev (c :: t)) as [[cap rest]|]; [ discriminate | ].
    intros H. rewrite (IH _ H). reflexivity.
Qed.

Lemma replace_no_match (r : regex)
      (f : jsstring -> jsstring -> outcome jsstring) (s : jsstring) :
  search r None s = false -> replace r f s = Return s.
Proof.
  intros H. unfold replace. rewrite (scan_no_match r s None H).
  clear H. induction s as [|c t IH]; [ reflexivity | ].
  cbn [map splice]. rewrite IH. reflexivity.
Qed.

Lemma includes_member (x : char) (s : jsstring) :
  In x s -> includes s x = true.
Proof.
  intros H. unfold includes, oneOf. apply existsb_exists.
  exists x. split; [ exact H | apply N.eqb_refl ].
Qed.

(** A text without one of the characters of the name has no call of it. *)
Lemma no_call_without (name s : jsstring) (x : char) (prev : option char) :
  In x name -> includes s x = false -> search (callOf name) prev s = false.
Proof.
  intros Hx Hs. destruct (search (callOf name) prev s) eqn:S; [ | reflexivity ].
  apply RegexFacts.search_sound in S.
  destruct S as (pre & suf & [cap rest] & -> & E).
  apply callOf_shape in E. destruct E as (sp & -> & _).
  rewrite !includes_app, (includes_member x name Hx) in Hs.
  rewrite orb_true_r in Hs. discriminate Hs.
Qed.

Lemma search_hits (r : regex) (s : jsstring) :
  forall prev, search r prev s = true ->
               exists m cap, In (Hit m cap) (scan r 0 prev s).
Proof.
  induction s as [|c t IH]; intros prev; cbn [search scan].
  - destruct (exec r [] prev []) as [[cap rest]|]; [ | discriminate ].
    intros _. exists [], cap. left. reflexivity.
  - destruct (exec r [] prev (c :: t)) as [[cap rest]|].
    + intros _.
      destruct (List.length (c :: t) - List.length rest)%nat;
        eexists; eexists; left; reflexivity.
    + intros H. destruct (IH _ H) as (m & cap & Hin).
      exists m, cap. right. exact Hin.
Qed.

Lemma splice_hit (f : jsstring -> jsstring -> outcome jsstring)
      (m cap : jsstring) (ps : list piece) :
  In (Hit m cap) ps ->
  forall out,
    splice f ps = Return out ->
    exists o, f m cap = Return o
              /\ forall ch, includes o ch = true -> includes out ch = true.
Proof.
  induction ps as [|[x|m' cap'] ps IH]; intros Hin out; cbn [splice].
  - destruct Hin.
  - destruct Hin as [Hin|Hin]; [ discriminate Hin | ].
    destruct (splice f ps) as [tl|e]; cbn [bind]; [ | discriminate ].
    intros H. injection H as <-.
    destruct (IH Hin tl eq_refl) as (o & Ho & Hk).
    exists o. split; [ exact Ho | ].
    intros ch Hc. rewrite includes_cons, (Hk ch Hc). apply orb_true_r.
  - destruct (f m' cap') as [o'|e] eqn:F; cbn [bind]; [ | discriminate ].
    destruct (splice f ps) as [tl|e]; cbn [bind]; [ | discriminate ].
    intros H. injection H as <-. destruct Hin as [Hin|Hin].
    + injection Hin as -> ->. exists o'. split; [ exact F | ].
      intros ch Hc. rewrite includes_app, Hc. reflexivity.
    + destruct (IH Hin tl eq_refl) as (o & Ho & Hk).
      exists o. split; [ exact Ho | ].
      intros ch Hc. rewrite includes_app, (Hk ch Hc). apply orb_true_r.
Qed.

(** A pass that finds a call puts the text of its callback in. *)
Lemma pass_puts (ch : char) (r : regex)
      (f : jsstring -> jsstring -> outcome jsstring) (s out : jsstring) :
  search r None s = true ->
  (forall m cap o, f m cap = Return o -> includes o ch = true) ->
  replace r f s = Return out ->
  includes out ch = true.
Proof.
  intros S Hf R. destruct (search_hits r s None S) as (m & cap & Hin).
  destruct (splice_hit f m cap _ Hin out R) as (o & Ho & Hk).
  apply Hk, (Hf m cap o Ho).
Qed.

Lemma greedy_takes_all (X : Type) (p : char -> bool)
      (k : jsstring -> option char -> jsstring -> option X)
      (x : char) (rest : jsstring) (r : X) (ds : jsstring) :
  p x = false ->
  forall (min : nat) (run : jsstring) (prev : option char),
    forallb p ds = true -> (min <= List.length ds)%nat ->
    k (rev run ++ ds) (lastChar prev ds) (x :: rest) = Some r ->
    greedy p k min run prev (ds ++ x :: rest) = Some r.
Proof.
  intros Hx. induction ds as [|d ds IH]; intros min run prev Hp Hmin Hk.
  - cbn [app greedy]. rewrite Hx.
    destruct min; [ | inversion Hmin ].
    rewrite (app_nil_r (rev run)) in Hk. exact Hk.
  - cbn [app greedy]. cbn [forallb] in Hp. apply andb_prop in Hp.
    destruct Hp as [Hd Hp]. rewrite Hd.
    rewrite (IH (Nat.pred min) (d :: run) (Some d) Hp).
    + reflexivity.
    + cbn [List.length] in Hmin. destruct min; cbn [Nat.pred]; lia.
    + cbn [rev]. rewrite <- app_assoc. exact Hk.
Qed.

Lemma digit_differs (d x : char) :
  isDigit d = true -> isDigit x = false -> N.eqb d x = false.
Proof.
  intros Hd Hx. destruct (N.eqb d x) eqn:E; [ | reflexivity ].
  apply N.eqb_eq in E. subst x. rewrite Hd in Hx. discriminate Hx.
Qed.

Lemma digits_without (ds : jsstring) (x : char) :
  forallb isDigit ds = true -> isDigit x = false -> includes ds x = false.
Proof. intros Hd Hx. apply (includes_all isDigit); assumption. Qed.

Lemma digits_are_words (ds : jsstring) :
  forallb isDigit ds = true -> forallb isWordChar ds = true.
Proof.
  intros H. rewrite forallb_forall in *. intros d Hd. specialize (H d Hd).
  unfold isWordChar. rewrite H. rewrite !orb_true_r. reflexivity.
Qed.

Lemma digits_are_no_name (ds n : jsstring) :
  forallb isDigit ds = true -> startsWord n = true ->
  match n with x :: _ => isDigit x | [] => true end = false ->
  eqs ds n = false.
Proof.
  intros Hd _ Hn. destruct ds as [|d ds], n as [|x n]; try reflexivity;
    try discriminate Hn.
  cbn [eqs]. cbn [forallb] in Hd. apply andb_prop in Hd. destruct Hd as [Hd _].
  rewrite (digit_differs d x Hd Hn). reflexivity.
Qed.

(** The tokens of [NAME(digits)]. *)
Lemma lexemes_call (name ds : jsstring) :
  name <> [] -> forallb isWordChar name = true ->
  ds <> [] -> forallb isDigit ds = true ->
  lexemes (name ++ str "(" ++ ds ++ str ")")
  = [Word name; Sign 40%N; Word ds; Sign 41%N].
Proof.
  intros Hn Hw Hd Hds.
  rewrite lexemes_app by (right; right; reflexivity).
  rewrite (lexemes_word name Hn Hw).
  rewrite (lexemes_app (str "(")) by (right; left; reflexivity).
  rewrite (lexemes_app ds) by (right; right; reflexivity).
  rewrite (lexemes_word ds Hd (digits_are_words ds Hds)).
  reflexivity.
Qed.

Lemma constant_skips_call (n txt name ds : jsstring) :
  n <> [] -> forallb isWordChar n = true ->
  match n with x :: _ => isDigit x | [] => true end = false ->
  name <> [] -> forallb isWordChar name = true -> eqs name n = false ->
  ds <> [] -> forallb isDigit ds = true ->
  replaceWith (wholeWord n) txt (name ++ str "(" ++ ds ++ str ")")
  = name ++ str "(" ++ ds ++ str ")".
Proof.
  intros Hn Hnw Hnd Hname Hw Hne Hd Hds.
  rewrite (replaceWith_lexemes n txt Hn Hnw).
  rewrite (lexemes_call name ds Hname Hw Hd Hds).
  cbn [flat_map swap]. rewrite Hne.
  rewrite (digits_are_no_name ds n Hds); [ | | exact Hnd ].
  - rewrite app_nil_r. reflexivity.
  - destruct n as [|x n]; [ contradiction Hn; reflexivity | ].
    cbn [forallb] in Hnw. apply andb_prop in Hnw. destruct Hnw as [Hx _].
    exact Hx.
Qed.

Lemma digits_are_plain (ds : jsstring) :
  forallb isDigit ds = true -> flat_map asciiOperator ds = ds.
Proof.
  induction ds as [|d ds IH]; [ reflexivity | ].
  cbn [forallb flat_map]. intros H. apply andb_prop in H. destruct H as [Hd H].
  rewrite (IH H). unfold asciiOperator.
  rewrite (digit_differs d 94%N Hd eq_refl),
    (digit_differs d MULTIPLICATION_SIGN Hd eq_refl),
    (digit_differs d DIVISION_SIGN Hd eq_refl),
    (digit_differs d MINUS_SIGN Hd eq_refl).
  reflexivity.
Qed.

(** The first two steps of [evaluate] leave [square(digits)] and
    [cube(digits)] as they are. *)
Lemma call_is_not_rewritten_early (c : Calculator) (name ds : jsstring) :
  name = str "square" \/ name = str "cube" ->
  ds <> [] -> forallb isDigit ds = true ->
  normalizeOperators (substituteConstants c (name ++ str "(" ++ ds ++ str ")"))
  = name ++ str "(" ++ ds ++ str ")".
Proof.
  intros Hname Hd Hds.
  assert (E : substituteConstants c (name ++ str "(" ++ ds ++ str ")")
              = name ++ str "(" ++ ds ++ str ")").
  { unfold substituteConstants. cbv zeta.
    destruct Hname as [-> | ->];
      rewrite !constant_skips_call;
      try reflexivity; try discriminate; assumption. }
  rewrite E, ValidationFacts.normalizeOperators_flat_map.
  rewrite !flat_map_app, (digits_are_plain ds Hds).
  destruct Hname as [-> | ->]; reflexivity.
Qed.

Lemma call_is_found (name ds : jsstring) :
  name = str "square" \/ name = str "cube" ->
  ds <> [] -> forallb isDigit ds = true ->
  search (callOf name) None (name ++ str "(" ++ ds ++ str ")") = true.
Proof.
  intros Hname Hd Hds.
  apply (RegexFacts.search_complete (callOf name) []
           (name ++ str "(" ++ ds ++ str ")") None (ds, [])).
  cbn [lastChar fold_left]. unfold callOf. cbn [app exec].
  replace (xorb (isWordAt None)
             (isWordAt (hd_error (name ++ str "(" ++ ds ++ str ")"))))
    with true by (destruct Hname as [-> | ->]; reflexivity).
  rewrite exec_lit, startsWith_app, skipn_length_app.
  cbn [exec str app list_ascii_of_string map N_of_ascii greedy].
  change (isSpace _) with false. cbv iota. cbn [N.eqb Pos.eqb].
  apply greedy_takes_all.
  - reflexivity.
  - rewrite forallb_forall in *. intros d Hin.
    rewrite (digit_differs d 41%N (Hds d Hin) eq_refl). reflexivity.
  - destruct ds; [ contradiction Hd; reflexivity | cbn; lia ].
  - cbn [exec rev app]. rewrite N.eqb_refl. reflexivity.
Qed.

(** X11. A call of [square] or [cube] on a number written in digits never
    evaluates: the call is rewritten to a call of [Math.pow], whose [w]
    validation does not allow, so [evaluate] throws without consulting the
    evaluation sink, whatever the state. *)
Theorem square_and_cube_never_evaluate (c : Calculator) (name ds : jsstring) :
  name = str "square" \/ name = str "cube" ->
  ds <> [] -> forallb isDigit ds = true ->
  exists m, forall runFunction : jsstring -> outcome float,
      evaluate runFunction c (name ++ str "(" ++ ds ++ str ")") = Throw m.
Proof.
  intros Hname Hd Hds. unfold evaluate, rewrite.
  rewrite (call_is_not_rewritten_early c name ds Hname Hd Hds).
  assert (Hno : forall x, isDigit x = false ->
                  includes (name ++ str "(" ++ ds ++ str ")") x
                  = includes name x || (N.eqb x 40 || N.eqb x 41)).
  { intros x Hx. rewrite !includes_app, (digits_without ds x Hds Hx).
    cbn. rewrite !orb_false_r. reflexivity. }
  assert (Hf : includes (name ++ str "(" ++ ds ++ str ")") 102%N = false)
    by (rewrite (Hno 102%N eq_refl); destruct Hname as [-> | ->]; reflexivity).
  assert (Hi : includes (name ++ str "(" ++ ds ++ str ")") 105%N = false)
    by (rewrite (Hno 105%N eq_refl); destruct Hname as [-> | ->]; reflexivity).
  assert (Hq : name = str "cube" ->
               includes (name ++ str "(" ++ ds ++ str ")") 113%N = false)
    by (intros ->; rewrite (Hno 113%N eq_refl); reflexivity).
  pose proof (call_is_found name ds Hname Hd Hds) as Hfound.
  set (e0 := name ++ str "(" ++ ds ++ str ")") in *. clearbody e0. clear Hno.
  destruct (processFunctionCalls c e0) as [p|m0] eqn:R; cbn [bind rethrow];
    [ | eexists; intros _; reflexivity ].
  assert (Hw : allowedChar 119%N = false) by reflexivity.
  destruct (processFunctionCalls_steps 119%N c _ p Hw R)
    as (p1 & p2 & p3 & p4 & E1 & E2 & E3 & E4 & Hk).
  assert (Hp : includes p 119%N = true).
  { apply Hk.
    rewrite replace_no_match in E1
      by (apply (no_call_without _ _ 102%N); [ cbn; tauto | exact Hf ]).
    injection E1 as <-.
    rewrite replace_no_match in E2
      by (apply (no_call_without _ _ 105%N); [ cbn; tauto | exact Hi ]).
    injection E2 as <-.
    destruct Hname as [-> | ->].
    - apply (pass_keeps 119%N _ _ p3 p4 Hw) in E4; [ exact E4 | | ].
      { apply (around_capture 119%N (str "cube") (str "Math.pow(") (str ", 3)")
                 Hw eq_refl). }
      apply (pass_puts 119%N _ _ _ p3 Hfound) in E3; [ exact E3 | ].
      intros m cap o H. injection H as <-. reflexivity.
    - rewrite replace_no_match in E3
        by (apply (no_call_without _ _ 113%N);
            [ cbn; tauto | exact (Hq eq_refl) ]).
      injection E3 as <-.
      apply (pass_puts 119%N _ _ _ p4 Hfound) in E4; [ exact E4 | ].
      intros m cap o H. injection H as <-. reflexivity. }
  assert (V : isValidExpression p = false).
  { destruct (isValidExpression p) eqn:V; [ | reflexivity ].
    destruct (ValidationFacts.valid_is_allowed p V) as [Ha _].
    rewrite (includes_all allowedChar p 119%N Ha Hw) in Hp. discriminate Hp. }
  rewrite V. cbn [negb rethrow]. eexists. intros _. reflexivity.
Qed.

Lemma square_and_cube_never_evaluate_witness :
  exists m, forall runFunction : jsstring -> outcome float,
      evaluate runFunction new (str "square" ++ str "(" ++ str "12" ++ str ")")
      = Throw m.
Proof.
  apply (square_and_cube_never_evaluate new (str "square") (str "12")).
  - left. reflexivity.
  - discriminate.
  - reflexivity.
Defined.

End RewritingFacts.

(* ================================================================== *)
(** * What [handleAction] leaves alone *)

Module ActionFacts.
Import JsNumber StateFacts.

Ltac by_cases :=
  repeat match goal with
         | |- context [if ?b then _ else _] => destruct b
         | |- context [match ?x with Some _ => _ | None => _ end] => destruct x
         end;
  reflexivity.

Lemma updateDisplay_frame (c : Calculator) :
  angleMode (updateDisplay c) = angleMode c
  /\ memory (updateDisplay c) = memory c.
Proof. unfold updateDisplay. split; by_cases. Qed.

Lemma clear_frame (c : Calculator) :
  angleMode (clear c) = angleMode c /\ memory (clear c) = memory c.
Proof.
  unfold clear. destruct (updateDisplay_frame
    (set_isNewExpression true
       (set_lastResult None (set_result [] (set_expression [] c))))) as [-> ->].
  split; reflexivity.
Qed.

Lemma clearEntry_frame (c : Calculator) :
  angleMode (clearEntry c) = angleMode c /\ memory (clearEntry c) = memory c.
Proof.
  unfold clearEntry. destruct (isNewExpression c).
  - apply clear_frame.
  - destruct (updateDisplay_frame (set_expression [] c)) as [-> ->].
    split; reflexivity.
Qed.

Lemma backspace_frame (c : Calculator) :
  angleMode (backspace c) = angleMode c /\ memory (backspace c) = memory c.
Proof.
  unfold backspace. destruct (0 <? List.length (expression c))%nat.
  - destruct (updateDisplay_frame
      (set_expression (slice_0_m1 (expression c)) c)) as [-> ->].
    split; reflexivity.
  - split; reflexivity.
Qed.

Lemma appendNumber_frame (n : jsstring) (c : Calculator) :
  angleMode (appendNumber n c) = angleMode c
  /\ memory (appendNumber n c) = memory c.
Proof. unfold appendNumber. split; by_cases. Qed.

Lemma appendOperator_frame (o : jsstring) (c : Calculator) :
  angleMode (appendOperator o c) = angleMode c
  /\ memory (appendOperator o c) = memory c.
Proof. unfold appendOperator. split; by_cases. Qed.

Lemma appendFunction_frame (f : jsstring) (c : Calculator) :
  angleMode (appendFunction f c) = angleMode c
  /\ memory (appendFunction f c) = memory c.
Proof. unfold appendFunction. split; by_cases. Qed.

Lemma appendConstant_frame (k : jsstring) (c : Calculator) :
  angleMode (appendConstant k c) = angleMode c
  /\ memory (appendConstant k c) = memory c.
Proof. unfold appendConstant. split; by_cases. Qed.

Lemma negate_frame (c : Calculator) :
  angleMode (negate c) = angleMode c /\ memory (negate c) = memory c.
Proof. unfold negate. split; by_cases. Qed.

Lemma calculate_frame (runFunction : jsstring -> outcome float)
      (c : Calculator) :
  angleMode (fst (calculate runFunction c)) = angleMode c
  /\ memory (fst (calculate runFunction c)) = memory c.
Proof.
  rewrite calculate_cases. destruct (expression c); [ split; reflexivity | ].
  destruct (evaluate runFunction c (c0 :: j)); split; reflexivity.
Qed.

Ltac framed lemma :=
  cbn [fst];
  match goal with
  | |- context [updateDisplay ?x] =>
      destruct (updateDisplay_frame x) as [-> ->]
  end;
  first [ destruct lemma as [-> ->] | idtac ];
  split; [ reflexivity | intros _; reflexivity ].

(** X12. [handleAction] never changes the angle mode, and it changes the
    memory only for the actions [memory-clear], [memory-add] and
    [memory-subtract]. *)
Theorem handleAction_keeps_angle_mode_and_memory
        (runFunction : jsstring -> outcome float) (Math_random : float)
        (action : jsstring) (c : Calculator) :
  angleMode (fst (handleAction runFunction Math_random action c)) = angleMode c
  /\ (eqs action (str "memory-clear") || eqs action (str "memory-add")
      || eqs action (str "memory-subtract") = false ->
      memory (fst (handleAction runFunction Math_random action c)) = memory c).
Proof.
  unfold handleAction. cbv zeta.
  on_action (str "clear") ltac:(framed (clear_frame c)).
  on_action (str "ce") ltac:(framed (clearEntry_frame c)).
  on_action (str "backspace") ltac:(framed (backspace_frame c)).
  on_action (str "equals") ltac:(idtac).
  { destruct (calculate_frame runFunction c) as [-> ->].
    split; [ reflexivity | intros _; reflexivity ]. }
  on_action (str "ans") ltac:(idtac).
  { destruct (lastResult c) as [r|].
    - framed (appendNumber_frame (numberToString r) c).
    - framed (updateDisplay_frame c). }
  on_action (str "memory-clear") ltac:(idtac).
  { cbn [fst]. destruct (updateDisplay_frame (set_memory 0 c)) as [-> _].
    split; [ reflexivity | discriminate ]. }
  on_action (str "memory-recall")
    ltac:(framed (appendNumber_frame (numberToString (memory c)) c)).
  on_action (str "memory-add") ltac:(idtac).
  { cbn [fst].
    destruct (updateDisplay_frame
                (set_memory (memory c + lastResultOr0 c) c)) as [-> _].
    split; [ reflexivity | discriminate ]. }
  on_action (str "memory-subtract") ltac:(idtac).
  { cbn [fst].
    destruct (updateDisplay_frame
                (set_memory (memory c - lastResultOr0 c) c)) as [-> _].
    split; [ reflexivity | discriminate ]. }
  on_action (str "random")
    ltac:(framed (appendNumber_frame (numberToString Math_random) c)).
  on_action (str "negate") ltac:(framed (negate_frame c)).
  destruct (isNumber action); [ framed (appendNumber_frame action c) | ].
  destruct (isOperator action); [ framed (appendOperator_frame action c) | ].
  destruct (isFunction action); [ framed (appendFunction_frame action c) | ].
  destruct (isConstant action); [ framed (appendConstant_frame action c) | ].
  framed (updateDisplay_frame c).
Qed.

(** The completion of [handleAction]: that of [calculate] for [equals],
    [null] otherwise. *)
Lemma handleAction_completion
      (runFunction : jsstring -> outcome float) (Math_random : float)
      (action : jsstring) (c : Calculator) :
  snd (handleAction runFunction Math_random action c)
  = if eqs action (str "equals") then snd (calculate runFunction c)
    else Return None.
Proof.
  destruct (eqs action (str "equals")) eqn:E.
  - apply TokenFacts.eqs_eq in E. subst action. reflexivity.
  - unfold handleAction. cbv zeta. rewrite E.
    repeat match goal with
           | |- context [if ?b then _ else _] => destruct b
           end; reflexivity.
Qed.

(** X13. Only [equals] can fail or hand back a result: every other action
    returns [null], whatever the state. *)
Theorem only_equals_returns_a_result
        (runFunction : jsstring -> outcome float) (Math_random : float)
        (action : jsstring) (c : Calculator) :
  eqs action (str "equals") = false ->
  snd (handleAction runFunction Math_random action c) = Return None.
Proof.
  intros H. unfold handleAction. cbv zeta. rewrite H.
  repeat match goal with
         | |- context [if ?b then _ else _] => destruct b
         end; reflexivity.
Qed.

Lemma only_equals_returns_a_result_witness :
  snd (handleAction (interpret noMethods) 0%float (str "backspace")
         (setExpression (str "1/") (init new))) = Return None.
Proof.
  apply (only_equals_returns_a_result (interpret noMethods) 0%float
           (str "backspace") (setExpression (str "1/") (init new))).
  reflexivity.
Defined.

(** ** An operator pressed before the first result *)

Lemma isOperator_one_char (o : jsstring) :
  isOperator o = true ->
  exists ch, o = [ch] /\ oneOf (str "+-*/()^%") ch = true.
Proof.
  unfold isOperator, test. destruct o as [|ch [|ch2 t]]; cbn [search exec].
  - discriminate.
  - destruct (oneOf (str "+-*/()^%") ch) eqn:E; [|discriminate].
    intros _. exists ch. split; [reflexivity | exact E].
  - destruct (oneOf (str "+-*/()^%") ch);
      rewrite ValidationFacts.anchored_fails_later; discriminate.
Qed.

Lemma operator_is_no_number (ch : char) :
  oneOf (str "+-*/()^%") ch = true -> isNumber [ch] = false.
Proof.
  unfold oneOf. intros H. apply existsb_exists in H.
  destruct H as (x & Hin & Hx). apply N.eqb_eq in Hx. subst x.
  cbn in Hin.
  repeat (destruct Hin as [<-|Hin]; [ vm_compute; reflexivity | ]).
  destruct Hin.
Qed.

Lemma handleAction_operator (runFunction : jsstring -> outcome float)
      (Math_random : float) (o : jsstring) (c : Calculator) :
  isOperator o = true ->
  handleAction runFunction Math_random o c
  = (updateDisplay (appendOperator o c), Return None).
Proof.
  intros Ho. destruct (isOperator_one_char o Ho) as (ch & -> & Hch).
  unfold handleAction.
  rewrite (eqs_one_char ch (str "clear") eq_refl),
    (eqs_one_char ch (str "ce") eq_refl),
    (eqs_one_char ch (str "backspace") eq_refl),
    (eqs_one_char ch (str "equals") eq_refl),
    (eqs_one_char ch (str "ans") eq_refl),
    (eqs_one_char ch (str "memory-clear") eq_refl),
    (eqs_one_char ch (str "memory-recall") eq_refl),
    (eqs_one_char ch (str "memory-add") eq_refl),
    (eqs_one_char ch (str "memory-subtract") eq_refl),
    (eqs_one_char ch (str "random") eq_refl),
    (eqs_one_char ch (str "negate") eq_refl),
    (operator_is_no_number ch Hch), Ho.
  reflexivity.
Qed.

(** X14. On an instance that is Fresh and has no last result (a new one,
    or one just cleared), an operator key is appended to the buffer but
    the instance stays Fresh, so the digit or decimal point pressed next
    replaces the buffer: the operator, an opening parenthesis included, is
    lost. *)
Theorem operator_before_first_result_is_lost
        (runFunction : jsstring -> outcome float) (Math_random : float)
        (o d : jsstring) (c : Calculator) :
  isNewExpression c = true -> lastResult c = None ->
  isOperator o = true -> isNumber d = true ->
  let c1 := fst (handleAction runFunction Math_random o c) in
  let c2 := fst (handleAction runFunction Math_random d c1) in
  expression c1 = expression c ++ operatorMap o
  /\ isNewExpression c1 = true
  /\ expression c2 = d.
Proof.
  intros Hn Hl Ho Hd c1 c2. subst c1 c2.
  rewrite (handleAction_operator _ _ o c Ho). cbn [fst].
  rewrite (handleAction_number _ _ d _ Hd). cbn [fst].
  rewrite !updateDisplay_expression.
  assert (E : appendOperator o c
              = set_expression (expression c ++ operatorMap o) c).
  { unfold appendOperator. rewrite Hn, Hl. reflexivity. }
  assert (F : isNewExpression (updateDisplay (appendOperator o c)) = true).
  { rewrite updateDisplay_isNewExpression, E. exact Hn. }
  split; [ rewrite E; reflexivity | ].
  split; [ exact F | ].
  apply (appendNumber_fresh d _ F).
Qed.

Lemma operator_before_first_result_is_lost_witness :
  let c1 := fst (handleAction (interpret noMethods) 0%float (str "(") (init new)) in
  let c2 := fst (handleAction (interpret noMethods) 0%float (str "2") c1) in
  expression c1 = expression (init new) ++ operatorMap (str "(")
  /\ isNewExpression c1 = true
  /\ expression c2 = str "2".
Proof.
  apply (operator_before_first_result_is_lost (interpret noMethods) 0%float
           (str "(") (str "2") (init new));
    reflexivity.
Defined.

(** ** The cases of [handleAction] *)

Lemma existsb_eqs (a : jsstring) (l : list jsstring) :
  existsb (eqs a) l = true -> In a l.
Proof.
  intros H. apply existsb_exists in H. destruct H as (n & Hin & E).
  apply TokenFacts.eqs_eq in E. subst n. exact Hin.
Qed.

Ltac each_member H :=
  cbn [In map] in H;
  repeat (destruct H as [H|H]; [ subst; vm_compute; lia | ]);
  destruct H.

(** X15. The cases of [handleAction] exclude one another: an action is a
    named case, a digit or dot, an operator, a function name or a constant
    name, and never two of these; so the order of the tests in the default
    case does not matter. *)
Theorem handleAction_cases_are_exclusive (action : jsstring) :
  (casesFor action <= 1)%nat.
Proof.
  destruct (isFunction action) eqn:F.
  { unfold isFunction in F. apply existsb_eqs in F.
    unfold functions in F. each_member F. }
  destruct (isConstant action) eqn:K.
  { unfold isConstant in K. apply existsb_eqs in K.
    unfold constants in K. each_member K. }
  destruct (isNamedCase action) eqn:N.
  { unfold isNamedCase in N. apply existsb_eqs in N. each_member N. }
  unfold casesFor. rewrite F, K, N. cbn [Nat.b2n Nat.add].
  destruct (isOperator action) eqn:O.
  - destruct (isOperator_one_char action O) as (ch & -> & Hch).
    rewrite (operator_is_no_number ch Hch). cbn. lia.
  - destruct (isNumber action); cbn; lia.
Qed.

End ActionFacts.

(* ================================================================== *)
(** * The memory register *)

Module MemoryFacts.
Import JsNumber StateFacts.
Open Scope float_scope.





End MemoryFacts.

(* ================================================================== *)
(** * Typing a number *)

Module TypingFacts.
Import JsNumber StateFacts.

Lemma greedy_to_end_from (p : char -> bool) (cap : jsstring) (s : jsstring) :
  forall (min : nat) (run : jsstring) (prev : option char),
    greedy p (fun _ prev' s' => exec [Eol] cap prev' s') min run prev s
    = if forallb p s && (min <=? List.length s)%nat then Some (cap, [])
      else None.
Proof.
  induction s as [|c t IH]; intros min run prev.
  - cbn [greedy forallb List.length andb]. destruct min; reflexivity.
  - cbn [greedy forallb List.length]. destruct (p c); cbn [andb].
    + rewrite IH.
      replace (Nat.pred min <=? List.length t)%nat
        with (min <=? S (List.length t))%nat
        by (destruct min; reflexivity).
      destruct (forallb p t && (min <=? S (List.length t))%nat);
        [ reflexivity | destruct min; reflexivity ].
    + destruct min; reflexivity.
Qed.

Lemma exec_trailing (p : char -> bool) (min : nat) (prev : option char)
      (s : jsstring) :
  exec [Many p min; Eol] [] prev s
  = if forallb p s && (min <=? List.length s)%nat then Some ([], [])
    else None.
Proof. apply greedy_to_end_from. Qed.

Lemma not_all_before (p : char -> bool) (pre run : jsstring) :
  pre <> [] -> p (last pre 0%N) = false ->
  forallb p (pre ++ run) = false.
Proof.
  induction pre as [|x pre IH]; intros Hne Hl; [ contradiction Hne; reflexivity | ].
  cbn [app forallb]. destruct pre as [|y pre].
  - cbn [last] in Hl. rewrite Hl. reflexivity.
  - rewrite IH; [ apply andb_false_r | discriminate | exact Hl ].
Qed.

(** [/[p]+$/] finds the run of [p] the text ends with. *)
Lemma findFrom_trailing (p : char -> bool) (run : jsstring) :
  forallb p run = true ->
  forall (pre : jsstring) (prev : option char),
    match pre with [] => true | _ :: _ => negb (p (last pre 0%N)) end = true ->
    findFrom [Many p 1; Eol] prev (pre ++ run)
    = match run with [] => None | _ :: _ => Some run end.
Proof.
  intros Hrun. induction pre as [|x pre IH]; intros prev Hb.
  - cbn [app]. destruct run as [|c t].
    + reflexivity.
    + cbn [findFrom]. rewrite exec_trailing, Hrun.
      cbn [andb List.length Nat.leb Nat.sub firstn].
      rewrite firstn_all. reflexivity.
  - cbn [app findFrom]. rewrite exec_trailing.
    change (x :: pre ++ run) with ((x :: pre) ++ run).
    rewrite not_all_before;
      [ | discriminate | apply negb_true_iff; exact Hb ].
    cbn [andb]. apply IH. destruct pre as [|y pre]; [ reflexivity | exact Hb ].
Qed.

Lemma appendNumber_point (c : Calculator) (pre run : jsstring) :
  isNewExpression c = false ->
  expression c = pre ++ run ->
  forallb numberChar run = true ->
  numberStartsAfter pre = true ->
  appendNumber (str ".") c
  = if includes run 46%N then c
    else set_expression (expression c ++ str ".") c.
Proof.
  intros Hn He Hrun Hpre. unfold appendNumber, matchFirst. rewrite Hn, He.
  rewrite (findFrom_trailing (fun c0 => isDigit c0 || N.eqb c0 46) run Hrun
             pre None Hpre).
  destruct run as [|d t]; [ reflexivity | ].
  cbn [eqs str]. destruct (includes (d :: t) 46%N); reflexivity.
Qed.

(** X17. While a number is being typed (the instance is Editing and the
    buffer ends with a run of digits and dots that starts the buffer or
    follows another character), the decimal-point key does nothing if the
    run already holds a decimal point, and is appended otherwise: a typed
    number never gets a second decimal point. *)
Theorem second_decimal_point_is_ignored
        (runFunction : jsstring -> outcome float) (Math_random : float)
        (c : Calculator) (pre run : jsstring) :
  isNewExpression c = false ->
  expression c = pre ++ run ->
  forallb numberChar run = true ->
  numberStartsAfter pre = true ->
  expression (fst (handleAction runFunction Math_random (str ".") c))
  = if includes run 46%N then expression c else expression c ++ str ".".
Proof.
  intros Hn He Hrun Hpre.
  rewrite (handleAction_number runFunction Math_random (str ".") c eq_refl).
  cbn [fst]. rewrite updateDisplay_expression.
  rewrite (appendNumber_point c pre run Hn He Hrun Hpre).
  destruct (includes run 46%N); reflexivity.
Qed.

Lemma second_decimal_point_is_ignored_witness :
  let c := setExpression (str "2+3.5") (init new) in
  expression (fst (handleAction (interpret noMethods) 0%float (str ".") c))
  = expression c.
Proof.
  intros c.
  apply (second_decimal_point_is_ignored (interpret noMethods) 0%float c
           (str "2+") (str "3.5")); reflexivity.
Defined.

End TypingFacts.

(* ================================================================== *)
(** * The result line *)

Module DisplayFacts.
Import JsNumber StateFacts.



















End DisplayFacts.

(* ================================================================== *)
(** * The history list *)

Module HistoryFacts.
Import JsNumber FactorialFacts EvaluateFacts TokenFacts.
Open Scope float_scope.

(** ** Strict equality of Numbers *)

Lemma SFcompare_Eq_same (a b : spec_float) :
  SFcompare a b = Some Eq ->
  a = b \/ exists s t, a = S754_zero s /\ b = S754_zero t.
Proof.
  destruct a as [sa|sa| |sa ma ea], b as [sb|sb| |sb mb eb]; cbn [SFcompare];
    try destruct sa; try destruct sb;
    try discriminate; try (intros _; left; reflexivity);
    try (intros _; right; eexists; eexists; split; reflexivity).
  - destruct (Z.compare_spec ea eb) as [E|E|E]; try discriminate.
    rewrite FactorialDomain.compare_cont_Eq.
    destruct (Pos.compare_spec ma mb) as [G|G|G]; try discriminate.
    intros _. left. subst. reflexivity.
  - destruct (Z.compare_spec ea eb) as [E|E|E]; try discriminate.
    rewrite FactorialDomain.compare_cont_Eq.
    destruct (Pos.compare_spec ma mb) as [G|G|G]; try discriminate.
    intros _. left. subst. reflexivity.
Qed.

Lemma SFcompare_Eq_trans (a b c : spec_float) :
  SFcompare a b = Some Eq -> SFcompare a c = Some Eq ->
  SFcompare c b = Some Eq.
Proof.
  intros H1 H2.
  destruct (SFcompare_Eq_same a c H2) as [<-|(s & t & -> & ->)];
    [ exact H1 | ].
  destruct (SFcompare_Eq_same _ b H1) as [<-|(s' & t' & _ & ->)];
    reflexivity.
Qed.

(** [x === i] and [x === j] give [j === i]. *)
Lemma strictly_equal_trans (x i j : float) :
  (x =? i) = true -> (x =? j) = true -> (j =? i) = true.
Proof.
  rewrite !eqb_spec. unfold SFeqb.
  destruct (SFcompare (Prim2SF x) (Prim2SF i)) as [[| |]|] eqn:E1;
    try discriminate.
  destruct (SFcompare (Prim2SF x) (Prim2SF j)) as [[| |]|] eqn:E2;
    try discriminate.
  intros _ _. rewrite (SFcompare_Eq_trans _ _ _ E1 E2). reflexivity.
Qed.

Lemma finite_equals_itself (r : float) : isFinite r = true -> (r =? r) = true.
Proof.
  rewrite isFinite_by_kind, eqb_spec, SFeqb_self.
  destruct (Prim2SF r); intros H; try reflexivity; discriminate H.
Qed.

Lemma eqs_same (s : jsstring) : eqs s s = true.
Proof. apply eqs_eq. reflexivity. Qed.

(** ** The size limit *)

Lemma addToHistory_cases (newId : float) (now expression : jsstring)
      (result : float) (history : list HistoryItem) :
  addToHistory newId now expression result history
  = if existsb (sameCalculation expression result) history then history
    else firstn maxHistoryItems
           ({| id := newId; h_expression := expression; h_result := result;
               timestamp := now |} :: history).
Proof.
  unfold addToHistory. cbv zeta.
  destruct (existsb (sameCalculation expression result) history);
    [reflexivity|].
  destruct (maxHistoryItems <? _)%nat eqn:L; [reflexivity|].
  apply Nat.ltb_ge in L. symmetry. apply firstn_all2. exact L.
Qed.

(** X19. A history within the limit of 50 entries stays within it under
    [addToHistory], [removeHistoryItem] and [clearHistory];
    [importHistory] keeps at most the first 50 imported entries, and an
    addition that is not a duplicate leaves at most 50 entries whatever the
    list held before. *)
Theorem history_stays_within_the_limit
        (newId : float) (now expression : jsstring) (result i : float)
        (data : option (list HistoryItem)) (history : list HistoryItem) :
  ((List.length history <= maxHistoryItems)%nat ->
   (List.length (addToHistory newId now expression result history)
    <= maxHistoryItems)%nat
   /\ (List.length (removeHistoryItem i history) <= maxHistoryItems)%nat
   /\ (List.length (clearHistory history) <= maxHistoryItems)%nat
   /\ (List.length (fst (importHistory data history)) <= maxHistoryItems)%nat)
  /\ (existsb (sameCalculation expression result) history = false ->
      (List.length (addToHistory newId now expression result history)
       <= maxHistoryItems)%nat)
  /\ (forall imported, data = Some imported ->
        fst (importHistory data history) = firstn maxHistoryItems imported).
Proof.
  rewrite addToHistory_cases. repeat split.
  - destruct (existsb _ history); [ exact H | apply firstn_le_length ].
  - unfold removeHistoryItem.
    apply Nat.le_trans with (List.length history);
      [ apply filter_length_le | exact H ].
  - cbn. apply Nat.le_0_l.
  - destruct data as [l|]; cbn [importHistory fst];
      [ apply firstn_le_length | exact H ].
  - intros ->. apply firstn_le_length.
  - intros imported ->. reflexivity.
Qed.

Lemma history_stays_within_the_limit_witness :
  let history := [ {| id := 1; h_expression := str "1+1"; h_result := 2;
                      timestamp := str "t" |} ] in
  (List.length (addToHistory 2 (str "u") (str "2*3") 6 history)
   <= maxHistoryItems)%nat.
Proof.
  intros history.
  apply (history_stays_within_the_limit 2 (str "u") (str "2*3") 6 1
           None history).
  vm_compute. reflexivity.
Defined.

(** ** No calculation is recorded twice *)

Lemma existsb_firstn (p : HistoryItem -> bool) (n : nat)
      (history : list HistoryItem) :
  existsb p history = false -> existsb p (firstn n history) = false.
Proof.
  revert n. induction history as [|x t IH]; intros [|n] H; try reflexivity.
  cbn [firstn existsb] in *. apply orb_false_iff in H. destruct H as [-> H].
  apply IH. exact H.
Qed.

Lemma existsb_filter (p q : HistoryItem -> bool) (history : list HistoryItem) :
  existsb p history = false -> existsb p (filter q history) = false.
Proof.
  induction history as [|x t IH]; intros H; [reflexivity|].
  cbn [existsb filter] in *. apply orb_false_iff in H. destruct H as [Hx H].
  destruct (q x); cbn [existsb]; [ rewrite Hx | ]; apply IH; exact H.
Qed.

Lemma distinct_firstn (n : nat) (history : list HistoryItem) :
  distinctCalculations history = true ->
  distinctCalculations (firstn n history) = true.
Proof.
  revert n. induction history as [|x t IH]; intros [|n] H; try reflexivity.
  cbn [firstn distinctCalculations] in *.
  apply andb_prop in H. destruct H as [Hx H].
  apply negb_true_iff in Hx.
  rewrite (existsb_firstn _ n t Hx), (IH n H). reflexivity.
Qed.

Lemma distinct_filter (q : HistoryItem -> bool) (history : list HistoryItem) :
  distinctCalculations history = true ->
  distinctCalculations (filter q history) = true.
Proof.
  induction history as [|x t IH]; intros H; [reflexivity|].
  cbn [filter distinctCalculations] in *.
  apply andb_prop in H. destruct H as [Hx H].
  apply negb_true_iff in Hx.
  destruct (q x); [ | apply IH; exact H ].
  cbn [distinctCalculations].
  rewrite (existsb_filter _ q t Hx), (IH H). reflexivity.
Qed.

(** X20. A history in which no calculation (expression and result) occurs
    twice stays so under [addToHistory] and [removeHistoryItem]. *)
Theorem history_records_each_calculation_once
        (newId : float) (now expression : jsstring) (result i : float)
        (history : list HistoryItem) :
  distinctCalculations history = true ->
  distinctCalculations (addToHistory newId now expression result history) = true
  /\ distinctCalculations (removeHistoryItem i history) = true.
Proof.
  intros H. split.
  - rewrite addToHistory_cases.
    destruct (existsb (sameCalculation expression result) history) eqn:D;
      [ exact H | ].
    apply distinct_firstn. cbn [distinctCalculations h_expression h_result].
    rewrite D, H. reflexivity.
  - apply distinct_filter. exact H.
Qed.

Lemma history_records_each_calculation_once_witness :
  let history := [ {| id := 1; h_expression := str "1+1"; h_result := 2;
                      timestamp := str "t" |} ] in
  distinctCalculations (addToHistory 2 (str "u") (str "1+1") 2 history) = true
  /\ distinctCalculations (removeHistoryItem 1 history) = true.
Proof.
  intros history.
  apply (history_records_each_calculation_once 2 (str "u") (str "1+1") 2 1
           history).
  vm_compute. reflexivity.
Defined.

Lemma adding_once_records (newId : float) (now expression : jsstring)
      (result : float) (history : list HistoryItem) :
  (result =? result) = true ->
  existsb (sameCalculation expression result)
    (addToHistory newId now expression result history) = true.
Proof.
  intros Hr. rewrite addToHistory_cases.
  destruct (existsb (sameCalculation expression result) history) eqn:D;
    [ exact D | ].
  unfold maxHistoryItems. cbn [firstn existsb].
  unfold sameCalculation at 1. cbn [h_expression h_result].
  rewrite eqs_same, Hr. reflexivity.
Qed.

(** X21. Adding the same calculation a second time changes nothing,
    provided its result equals itself (is not NaN); and after an addition
    the calculation is in the list. *)
Theorem adding_twice_adds_once
        (id1 id2 : float) (t1 t2 expression : jsstring) (result : float)
        (history : list HistoryItem) :
  (result =? result) = true ->
  existsb (sameCalculation expression result)
    (addToHistory id1 t1 expression result history) = true
  /\ addToHistory id2 t2 expression result
       (addToHistory id1 t1 expression result history)
     = addToHistory id1 t1 expression result history.
Proof.
  intros Hr.
  pose proof (adding_once_records id1 t1 expression result history Hr) as E.
  split; [ exact E | ].
  rewrite (addToHistory_cases id2), E. reflexivity.
Qed.

Lemma adding_twice_adds_once_witness :
  existsb (sameCalculation (str "1+1") 2)
    (addToHistory 1 (str "t") (str "1+1") 2 []) = true
  /\ addToHistory 2 (str "u") (str "1+1") 2
       (addToHistory 1 (str "t") (str "1+1") 2 [])
     = addToHistory 1 (str "t") (str "1+1") 2 [].
Proof.
  apply (adding_twice_adds_once 1 2 (str "t") (str "u") (str "1+1") 2 []).
  vm_compute. reflexivity.
Defined.

(** X22. After [removeHistoryItem(i)] the lookup [getHistoryItem(i)] finds
    nothing, and the lookup of an identifier that is not strictly equal to
    [i] finds what it found before. *)
Theorem removed_item_is_not_found (i j : float) (history : list HistoryItem) :
  getHistoryItem i (removeHistoryItem i history) = None
  /\ ((j =? i) = false ->
      getHistoryItem j (removeHistoryItem i history) = getHistoryItem j history).
Proof.
  unfold getHistoryItem, removeHistoryItem. split.
  - induction history as [|x t IH]; [reflexivity|].
    cbn [filter]. destruct (id x =? i) eqn:E; cbn [negb]; [ exact IH | ].
    cbn [find]. rewrite E. exact IH.
  - intros Hj. induction history as [|x t IH]; [reflexivity|].
    cbn [filter find]. destruct (id x =? i) eqn:E; cbn [negb].
    + destruct (id x =? j) eqn:F; [ | exact IH ].
      rewrite (strictly_equal_trans _ _ _ E F) in Hj. discriminate Hj.
    + cbn [find]. rewrite IH. reflexivity.
Qed.

(** X23. The entry [addToHistory] has just added is the one
    [getHistoryItem] finds under its identifier, even if an older entry
    carries the same identifier; the identifier must be strictly equal to
    itself, and the calculation must not have been in the list. *)
Theorem added_item_is_found
        (newId : float) (now expression : jsstring) (result : float)
        (history : list HistoryItem) :
  existsb (sameCalculation expression result) history = false ->
  (newId =? newId) = true ->
  getHistoryItem newId (addToHistory newId now expression result history)
  = Some {| id := newId; h_expression := expression; h_result := result;
            timestamp := now |}.
Proof.
  intros Hd Hi. rewrite addToHistory_cases, Hd.
  unfold getHistoryItem, maxHistoryItems. cbn [firstn find id].
  rewrite Hi. reflexivity.
Qed.

Lemma added_item_is_found_witness :
  let history := [ {| id := 7; h_expression := str "1+1"; h_result := 2;
                      timestamp := str "t" |} ] in
  getHistoryItem 7 (addToHistory 7 (str "u") (str "2*3") 6 history)
  = Some {| id := 7; h_expression := str "2*3"; h_result := 6;
            timestamp := str "u" |}.
Proof.
  intros history.
  apply (added_item_is_found 7 (str "u") (str "2*3") 6 history);
    vm_compute; reflexivity.
Defined.

End HistoryFacts.

(* ================================================================== *)
(** * Button clicks: the calculator and the history together *)

Module ApplicationFacts.
Import JsNumber EvaluateFacts TokenFacts StateFacts HistoryFacts.

Lemma eqs_false_or_equals (action : jsstring) :
  eqs action (str "equals") = false \/ action = str "equals".
Proof.
  destruct (eqs action (str "equals")) eqn:E;
    [ right; apply eqs_eq, E | left; reflexivity ].
Qed.

Section Host.
Variable runFunction : jsstring -> outcome float.
Variable Math_random : float.

Lemma returned_by_equals (action : jsstring) (c c' : Calculator)
      (r : EvaluationResult) :
  handleAction runFunction Math_random action c = (c', Return (Some r)) ->
  action = str "equals"
  /\ er_expression r = expression c /\ expression c <> []
  /\ evaluate runFunction c (expression c) = Return (er_result r).
Proof.
  intros H. destruct (eqs_false_or_equals action) as [E| ->].
  - pose proof (ActionFacts.handleAction_completion
                  runFunction Math_random action c) as N.
    rewrite H, E in N. discriminate N.
  - split; [ reflexivity | ]. rewrite equals_is_calculate in H.
    rewrite calculate_cases in H.
    destruct (expression c) as [|x t] eqn:E; [ discriminate H | ].
    destruct (evaluate runFunction c (x :: t)) as [v|m]; [ | discriminate H ].
    injection H as _ <-. cbn [er_expression er_result].
    repeat split; [ exact E | discriminate ].
Qed.

End Host.

(** X24. When [evaluate] throws on the buffer, which is not empty, a click
    on [equals] ends in [showError] with the message [evaluate] threw, which
    starts with [Calculation error: ], and changes neither the calculator
    nor the history.  A click on any other action never ends in
    [showError]. *)
Theorem failed_click_changes_nothing
        (runFunction : jsstring -> outcome float) (Math_random : float)
        (newId : float) (now action : jsstring) (app : App) :
  (forall m,
      action = str "equals" ->
      expression (calculator app) <> [] ->
      evaluate runFunction (calculator app) (expression (calculator app))
      = Throw m ->
      handleButtonClick runFunction Math_random newId now action app
      = (app, Error m)
      /\ startsWith m (str "Calculation error: ") = true)
  /\ (eqs action (str "equals") = false ->
      exists shown,
        snd (handleButtonClick runFunction Math_random newId now action app)
        = Display shown).
Proof.
  split.
  - intros m -> Hne Hev. split.
    + unfold handleButtonClick.
      rewrite equals_is_calculate,
        (calculate_throws runFunction _ _ Hne Hev).
      destruct app; reflexivity.
    + apply (EvaluateOutcomes.evaluate_throws_prefixed _ _ _ _ Hev).
  - intros H. unfold handleButtonClick.
    pose proof (ActionFacts.handleAction_completion
                  runFunction Math_random action (calculator app)) as N.
    rewrite H in N.
    destruct (handleAction runFunction Math_random action (calculator app))
      as [c' [res|msg]]; cbn [snd] in N; [ | discriminate N ].
    eexists. reflexivity.
Qed.

Lemma failed_click_changes_nothing_witness :
  let app := {| calculator := setExpression (str "2++3") (init new);
                historyManager := [] |} in
  let m := str "Calculation error: Invalid expression" in
  handleButtonClick (interpret noMethods) 0%float 1%float (str "t")
    (str "equals") app
  = (app, Error m)
  /\ startsWith m (str "Calculation error: ") = true.
Proof.
  intros app m.
  apply (proj1 (failed_click_changes_nothing (interpret noMethods) 0%float
                  1%float (str "t") (str "equals") app) m).
  - reflexivity.
  - discriminate.
  - vm_compute. reflexivity.
Defined.

(** X25. A click on [equals] whose buffer is not empty and evaluates to
    [v] shows the buffer with the text of [v], and afterwards the history
    holds that calculation; a click on any other action leaves the history
    as it was. *)
Theorem successful_equals_is_recorded
        (runFunction : jsstring -> outcome float) (Math_random : float)
        (newId : float) (now action : jsstring) (app : App) :
  (forall v,
      action = str "equals" ->
      expression (calculator app) <> [] ->
      evaluate runFunction (calculator app) (expression (calculator app))
      = Return v ->
      let after := handleButtonClick runFunction Math_random newId now action app in
      existsb (sameCalculation (expression (calculator app)) v)
        (historyManager (fst after)) = true
      /\ snd after = Display {| d_expression := expression (calculator app);
                                d_result := numberToString v |})
  /\ (eqs action (str "equals") = false ->
      historyManager
        (fst (handleButtonClick runFunction Math_random newId now action app))
      = historyManager app).
Proof.
  split.
  - intros v -> Hne Hev after. subst after. unfold handleButtonClick.
    rewrite equals_is_calculate, calculate_cases.
    destruct (expression (calculator app)) as [|x t] eqn:E;
      [ contradiction Hne; reflexivity | ].
    rewrite Hev. cbv zeta. cbn [fst snd er_expression er_result expression
      set_isNewExpression set_result set_lastResult historyManager calculator].
    rewrite E. cbn [JsString.truthy]. split.
    + apply adding_once_records.
      apply finite_equals_itself, (evaluate_returns_finite _ _ _ _ Hev).
    + unfold getDisplayState. cbv zeta.
      cbn [expression result lastResult set_isNewExpression set_result
           set_lastResult].
      rewrite E. cbn [JsString.truthy].
      destruct (JsString.truthy (numberToString v)); reflexivity.
  - intros H. unfold handleButtonClick.
    pose proof (ActionFacts.handleAction_completion
                  runFunction Math_random action (calculator app)) as N.
    rewrite H in N.
    destruct (handleAction runFunction Math_random action (calculator app))
      as [c' [res|msg]]; cbn [snd] in N; [ | discriminate N ].
    injection N as ->. reflexivity.
Qed.

Lemma successful_equals_is_recorded_witness :
  let app := {| calculator := setExpression (str "1+2") (init new);
                historyManager := [] |} in
  let after := handleButtonClick (interpret noMethods) 0%float 1%float
                 (str "t") (str "equals") app in
  existsb (sameCalculation (expression (calculator app)) 3%float)
    (historyManager (fst after)) = true
  /\ snd after = Display {| d_expression := expression (calculator app);
                            d_result := numberToString 3%float |}.
Proof.
  intros app.
  apply (proj1 (successful_equals_is_recorded (interpret noMethods) 0%float
                  1%float (str "t") (str "equals") app) 3%float).
  - reflexivity.
  - discriminate.
  - vm_compute. reflexivity.
Defined.

(** ** What every run keeps *)

Lemma forallb_firstn (p : HistoryItem -> bool) (n : nat)
      (history : list HistoryItem) :
  forallb p history = true -> forallb p (firstn n history) = true.
Proof.
  revert n. induction history as [|x t IH]; intros [|n] H; try reflexivity.
  cbn [firstn forallb] in *. apply andb_prop in H. destruct H as [-> H].
  apply IH. exact H.
Qed.

Lemma addToHistory_wellKept (newId : float) (now expression : jsstring)
      (result : float) (history : list HistoryItem) :
  expression <> [] ->
  wellKept history = true ->
  wellKept (addToHistory newId now expression result history) = true.
Proof.
  intros He H. rewrite addToHistory_cases.
  destruct (existsb (sameCalculation expression result) history) eqn:D;
    [ exact H | ].
  unfold wellKept in *.
  apply andb_prop in H. destruct H as [H Hc].
  apply andb_prop in H. destruct H as [_ Hd].
  rewrite distinct_firstn, forallb_firstn.
  - rewrite andb_true_r, andb_true_r. apply Nat.leb_le, firstn_le_length.
  - cbn [forallb]. rewrite Hc. cbn [h_expression].
    destruct expression; [ contradiction He; reflexivity | ].
    reflexivity.
  - cbn [distinctCalculations h_expression h_result]. rewrite D, Hd.
    reflexivity.
Qed.

Lemma click_wellKept (runFunction : jsstring -> outcome float)
      (Math_random : float) (newId : float) (now action : jsstring)
      (app : App) :
  wellKept (historyManager app) = true ->
  wellKept (historyManager
              (fst (handleButtonClick runFunction Math_random newId now
                      action app))) = true.
Proof.
  intros H. unfold handleButtonClick.
  destruct (handleAction runFunction Math_random action (calculator app))
    as [c' [[r|]|msg]] eqn:E; cbn [fst historyManager]; try exact H.
  destruct (returned_by_equals _ _ _ _ _ _ E) as (_ & Hx & Hne & _).
  destruct (JsString.truthy (er_expression r)); [ | exact H ].
  apply addToHistory_wellKept; [ rewrite Hx; exact Hne | exact H ].
Qed.

Lemma handle_wellKept (runFunction : jsstring -> outcome float)
      (Math_random : float) (event : Event) (app : App) :
  wellKept (historyManager app) = true ->
  wellKept (historyManager (handle runFunction Math_random app event)) = true.
Proof.
  intros H. destruct event as [newId now action|newId now ev| |ex];
    cbn [handle].
  - apply click_wellKept, H.
  - unfold handleKeyboardInput. destruct (getAction (key ev)); [ | exact H ].
    destruct (eqs _ (str "history-toggle")); [ exact H | ].
    destruct (eqs _ (str "theme-toggle")); [ exact H | ].
    cbn [fst]. apply click_wellKept, H.
  - reflexivity.
  - unfold onHistoryItemClick. destruct (JsString.truthy ex); exact H.
Qed.

(** X26. Whatever the user does (buttons, keys, the history's clear
    button, clicks on history entries), starting from a stored history that
    is within the limit, has no two entries that [addToHistory] takes for
    the same calculation and has no entry with an empty expression, the
    history stays so. *)
Theorem every_run_keeps_the_history_well
        (runFunction : jsstring -> outcome float) (Math_random : float)
        (events : list Event) (stored : list HistoryItem) :
  wellKept stored = true ->
  wellKept
    (historyManager (run runFunction Math_random events (start stored)))
  = true.
Proof.
  intros H. unfold run.
  assert (G : forall a,
    wellKept (historyManager a) = true ->
    wellKept (historyManager
                (fold_left (handle runFunction Math_random) events a)) = true).
  { induction events as [|ev evs IH]; intros a Ha; cbn [fold_left].
    - exact Ha.
    - apply IH, handle_wellKept, Ha. }
  apply G. exact H.
Qed.

Lemma every_run_keeps_the_history_well_witness :
  wellKept
    (historyManager
       (run (interpret noMethods) 0%float
          [ Button 1%float (str "t") (str "1");
            KeyDown 2%float (str "u")
              {| key := str "Enter"; code := str "Enter";
                 ctrlKey := false; altKey := false; shiftKey := false;
                 metaKey := false |};
            HistoryClear ] (start [])))
  = true.
Proof.
  apply (every_run_keeps_the_history_well (interpret noMethods) 0%float
           [ Button 1%float (str "t") (str "1");
             KeyDown 2%float (str "u")
               {| key := str "Enter"; code := str "Enter";
                  ctrlKey := false; altKey := false; shiftKey := false;
                  metaKey := false |};
             HistoryClear ] []).
  reflexivity.
Defined.

End ApplicationFacts.

(* ================================================================== *)
(** * Keys and shortcuts *)

Module KeyboardFacts.

Lemma property_in (o : list (jsstring * jsstring)) (k v : jsstring) :
  property o k = Some v -> In v (map snd o).
Proof.
  unfold property. destruct (find _ (rev o)) as [kv|] eqn:F; [ | discriminate ].
  intros H. injection H as <-. apply find_some in F. destruct F as [F _].
  apply in_map, in_rev, F.
Qed.

Lemma keyMappings_truthy (k v : jsstring) :
  property keyMappings k = Some v -> JsString.truthy v = true.
Proof.
  intros H. apply property_in in H.
  assert (C : forallb JsString.truthy (map snd keyMappings) = true)
    by (vm_compute; reflexivity).
  rewrite forallb_forall in C. apply C, H.
Qed.

Lemma truthyProperty_keyMappings (k : jsstring) :
  truthyProperty keyMappings k = property keyMappings k.
Proof.
  unfold truthyProperty. destruct (property keyMappings k) as [v|] eqn:P;
    [ | reflexivity ].
  rewrite (keyMappings_truthy k v P). reflexivity.
Qed.

(** X27. [getAction] is a lookup of the key in [keyMappings], then of the
    lower-cased key; every value of the table is truthy, and the three
    special cases that follow the lookups (Enter and =, Escape and Delete,
    Backspace) are never reached, since those keys are in the table. *)
Theorem getAction_is_a_table_lookup (k : jsstring) :
  getAction k
  = match property keyMappings k with
    | Some action => Some action
    | None => property keyMappings (toLowerCase k)
    end.
Proof.
  unfold getAction. cbv zeta. rewrite !truthyProperty_keyMappings.
  destruct (property keyMappings k) as [a|] eqn:P; [ reflexivity | ].
  destruct (property keyMappings (toLowerCase k)) as [a|]; [ reflexivity | ].
  destruct (eqs k (str "Enter")) eqn:E1.
  { apply TokenFacts.eqs_eq in E1. subst k. vm_compute in P. discriminate P. }
  destruct (eqs k (str "=")) eqn:E2.
  { apply TokenFacts.eqs_eq in E2. subst k. vm_compute in P. discriminate P. }
  destruct (eqs k (str "Escape")) eqn:E3.
  { apply TokenFacts.eqs_eq in E3. subst k. vm_compute in P. discriminate P. }
  destruct (eqs k (str "Delete")) eqn:E4.
  { apply TokenFacts.eqs_eq in E4. subst k. vm_compute in P. discriminate P. }
  destruct (eqs k (str "Backspace")) eqn:E5.
  { apply TokenFacts.eqs_eq in E5. subst k. vm_compute in P. discriminate P. }
  reflexivity.
Qed.

Lemma getAction_in_table (k action : jsstring) :
  getAction k = Some action -> In action (map snd keyMappings).
Proof.
  unfold getAction. cbv zeta. rewrite !truthyProperty_keyMappings.
  destruct (property keyMappings k) as [a|] eqn:P.
  { intros H. injection H as <-. apply (property_in _ _ _ P). }
  destruct (property keyMappings (toLowerCase k)) as [a|] eqn:Q.
  { intros H. injection H as <-. apply (property_in _ _ _ Q). }
  destruct (eqs k (str "Enter") || eqs k (str "=")).
  { intros H. injection H as <-. vm_compute. tauto. }
  destruct (eqs k (str "Escape") || eqs k (str "Delete")).
  { intros H. injection H as <-. vm_compute. tauto. }
  destruct (eqs k (str "Backspace")); [ | discriminate ].
  intros H. injection H as <-. vm_compute. tauto.
Qed.

(** What [hasCase] stands for: an action without a case falls through
    [handleAction] to the final [updateDisplay]. *)
Lemma no_case_changes_nothing (runFunction : jsstring -> outcome float)
      (Math_random : float) (action : jsstring) (c : Calculator) :
  hasCase action = false ->
  handleAction runFunction Math_random action c
  = (updateDisplay c, Return None).
Proof.
  intros H. unfold hasCase in H.
  apply orb_false_iff in H. destruct H as [H Hc].
  apply orb_false_iff in H. destruct H as [H Hf].
  apply orb_false_iff in H. destruct H as [H Ho].
  apply orb_false_iff in H. destruct H as [H Hn].
  unfold isNamedCase in H. cbn [existsb map] in H.
  repeat (apply orb_false_iff in H;
          let E := fresh "E" in destruct H as [E H]).
  clear H. unfold handleAction.
  repeat match goal with
         | E : _ = false |- _ => rewrite E; clear E
         end.
  reflexivity.
Qed.

(** X28. Every action [getAction] gives for a key is one of the two
    toggles, which [handleKeyboardInput] keeps to itself, or an action
    [handleAction] has a case for: no key ends in the default case. *)
Theorem every_key_action_has_a_case (k action : jsstring) :
  getAction k = Some action ->
  isToggle action || hasCase action = true.
Proof.
  intros H. apply getAction_in_table in H.
  assert (C : forallb (fun a => isToggle a || hasCase a)
                (map snd keyMappings) = true)
    by (vm_compute; reflexivity).
  rewrite forallb_forall in C. apply C, H.
Qed.

Lemma every_key_action_has_a_case_witness :
  isToggle (str "sqrt") || hasCase (str "sqrt") = true.
Proof.
  apply (every_key_action_has_a_case (str "Q") (str "sqrt")).
  vm_compute. reflexivity.
Defined.

(** X29. A shortcut is recognised only with Alt, Shift and Meta up: every
    entry of [shortcuts] is a bare function key or Ctrl with a key code,
    and the text [getShortcut] builds names each modifier that is down. *)
Theorem shortcuts_need_plain_or_ctrl (event : KeyboardEvent) (action : jsstring) :
  getShortcut event = Some action ->
  altKey event = false /\ shiftKey event = false /\ metaKey event = false.
Proof.
  unfold getShortcut. cbv zeta.
  destruct event as [k cd ctrl alt shift meta]. cbn [Keyboard.code ctrlKey altKey shiftKey metaKey].
  destruct alt, shift, meta; try (intros _; repeat split; reflexivity);
    destruct ctrl; cbn; discriminate.
Qed.

Lemma shortcuts_need_plain_or_ctrl_witness :
  let event := {| key := str "m"; code := str "KeyM"; ctrlKey := true;
                  altKey := false; shiftKey := false; metaKey := false |} in
  altKey event = false /\ shiftKey event = false /\ metaKey event = false.
Proof.
  intros event.
  apply (shortcuts_need_plain_or_ctrl event (str "memory-clear")).
  vm_compute. reflexivity.
Defined.

End KeyboardFacts.
